(** * AEnvironment: instance controller and admission gateway

    A shallow embedding of the Go sources of the pod controller
    (package [aenvhub_http_server]) and of the gateway
    (packages [controller] and [service] of the api-service), with the
    properties of the TTL reclamation loop, the template merge and the
    error translation stated over it. *)

From Stdlib Require Import ZArith String Ascii List Lia.
From stdpp Require Import base option list gmap strings.

Local Open Scope string_scope.
Local Open Scope list_scope.
Local Open Scope Z_scope.

(** ** The Go runtime: panics and dynamically typed values *)

Module Go.

(** A Go call either returns or panics; the message of the panic is
    kept so that the failing statement can be told apart. *)
Inductive Result (A : Type) : Type :=
| Ok (a : A)
| Panic (msg : string).
Arguments Ok {A} a.
Arguments Panic {A} msg.

Definition bind {A B} (r : Result A) (k : A -> Result B) : Result B :=
  match r with
  | Ok a => k a
  | Panic msg => Panic msg
  end.

Definition returns {A} (r : Result A) : bool :=
  match r with Ok _ => true | Panic _ => false end.

Definition panics {A} (r : Result A) : bool := negb (returns r).

(** The dynamic values an [interface{}] of a deploy configuration can
    hold.  [encoding/json] decodes into [nil], [bool], [float64],
    [string], [[]interface{}] and [map[string]interface{}]; the gateway
    additionally stores the statically typed [map[string]string] and
    [[]string] of its request.  A map is given by its entries in the
    order a [range] loop visits them (any order of distinct keys); of a
    number only its being a number matters here, it is held as an
    integer. *)
#[warnings="-register-all"]
Inductive Any : Type :=
| ANil
| ABool (b : bool)
| ANumber (n : Z)
| AString (s : string)
| ASlice (l : list Any)
| AMap (m : list (string * Any))
| AStrSlice (l : list string)
| AStrMap (m : list (string * string)).

(** [v.(string)] *)
Definition assertString (what : string) (v : option Any) : Result string :=
  match v with
  | Some (AString s) => Ok s
  | _ => Panic ("interface conversion: " +:+ what +:+ " is not string")
  end.

(** [v, ok := x.(string)] *)
Definition asString (v : option Any) : option string :=
  match v with
  | Some (AString s) => Some s
  | _ => None
  end.

End Go.

(** Sequencing of calls that may panic, in stdpp's [x ← r; k] notation. *)
#[global] Instance Result_bind : MBind Go.Result :=
  fun A B k r => Go.bind r k.
#[global] Instance Result_ret : MRet Go.Result := fun A a => Go.Ok a.

(** ** Package [time] *)

Module time.

(** A [Duration] is a signed 64-bit count of nanoseconds. *)
Definition minDuration : Z := - 2 ^ 63.
Definition maxDuration : Z := 2 ^ 63 - 1.

Definition Nanosecond : Z := 1.
Definition Microsecond : Z := 1000 * Nanosecond.
Definition Millisecond : Z := 1000 * Microsecond.
Definition Second : Z := 1000 * Millisecond.
Definition Minute : Z := 60 * Second.
Definition Hour : Z := 60 * Minute.

(** [t.Sub(u)]: the difference of two instants (nanoseconds since the
    epoch), saturated to the range of [Duration]. *)
Definition Sub (t u : Z) : Z :=
  Z.max minDuration (Z.min maxDuration (t - u)).

Definition isDigit (c : ascii) : bool :=
  let n := N_of_ascii c in ((48 <=? n) && (n <=? 57))%N.

Definition digitVal (c : ascii) : Z := Z.of_N (N_of_ascii c) - 48.

(** [leadingInt]: the leading digits of the string, [None] on overflow. *)
Fixpoint leadingInt (x : Z) (s : string) : option (Z * string) :=
  match s with
  | String c s' =>
      if isDigit c then
        if 2 ^ 63 / 10 <? x then None
        else
          let x' := x * 10 + digitVal c in
          if 2 ^ 63 <? x' then None else leadingInt x' s'
      else Some (x, s)
  | EmptyString => Some (x, s)
  end.

(** [leadingFraction]: the leading digits after a period, as a
    numerator and a power of ten; digits past the precision of 64 bits
    are dropped. *)
Fixpoint leadingFraction (x scale : Z) (overflow : bool) (s : string)
  : Z * Z * string :=
  match s with
  | String c s' =>
      if isDigit c then
        if overflow then leadingFraction x scale overflow s'
        else if (2 ^ 63 - 1) / 10 <? x then leadingFraction x scale true s'
        else
          let y := x * 10 + digitVal c in
          if 2 ^ 63 <? y then leadingFraction x scale true s'
          else leadingFraction y (scale * 10) overflow s'
      else (x, scale, s)
  | EmptyString => (x, scale, s)
  end.

(** The unit of a group: everything up to the next period or digit. *)
Fixpoint splitUnit (s : string) : string * string :=
  match s with
  | String c s' =>
      if isDigit c || Ascii.eqb c "."%char then (EmptyString, s)
      else let '(u, r) := splitUnit s' in (String c u, r)
  | EmptyString => (EmptyString, EmptyString)
  end.

Definition micro_sign : string :=
  String (ascii_of_nat 194) (String (ascii_of_nat 181) "s").
Definition greek_mu : string :=
  String (ascii_of_nat 206) (String (ascii_of_nat 188) "s").

Definition unitMap (u : string) : option Z :=
  if decide (u = "ns") then Some Nanosecond
  else if decide (u = "us") then Some Microsecond
  else if decide (u = micro_sign) then Some Microsecond
  else if decide (u = greek_mu) then Some Microsecond
  else if decide (u = "ms") then Some Millisecond
  else if decide (u = "s") then Some Second
  else if decide (u = "m") then Some Minute
  else if decide (u = "h") then Some Hour
  else None.

(** One group (digits, an optional period and digits, a unit) added to
    the running total [d]. *)
Definition parseGroup (d : Z) (s : string) : option (Z * string) :=
  match s with
  | EmptyString => None
  | String c _ =>
      if negb (Ascii.eqb c "."%char || isDigit c) then None
      else
        match leadingInt 0 s with
        | None => None
        | Some (v, s1) =>
            let pre := negb (String.length s =? String.length s1)%nat in
            let '(f, scale, s2, post) :=
              match s1 with
              | String "."%char s1' =>
                  let '(f, scale, s2) := leadingFraction 0 1 false s1' in
                  (f, scale, s2, negb (String.length s1' =? String.length s2)%nat)
              | _ => (0, 1, s1, false)
              end in
            if negb pre && negb post then None
            else
              let '(u, s3) := splitUnit s2 in
              if decide (u = EmptyString) then None
              else
                match unitMap u with
                | None => None
                | Some unit =>
                    if 2 ^ 63 / unit <? v then None
                    else
                      let v1 := v * unit in
                      let v2 := if 0 <? f then v1 + (f * unit) / scale else v1 in
                      if (0 <? f) && (2 ^ 63 <? v2) then None
                      else
                        let d' := d + v2 in
                        if 2 ^ 63 <? d' then None else Some (d', s3)
                end
            end
  end.

Fixpoint parseGroups (fuel : nat) (d : Z) (s : string) : option Z :=
  match s with
  | EmptyString => Some d
  | _ =>
      match fuel with
      | O => None
      | S fuel' =>
          match parseGroup d s with
          | None => None
          | Some (d', s') => parseGroups fuel' d' s'
          end
      end
  end.

(** A model of the standard library's [time.ParseDuration], after its
    grammar (an optional sign, then one or more groups of a decimal
    number and a unit, or a bare ["0"]): [Some d] for the duration
    in nanoseconds, [None] where the library returns an error.  The
    library evaluates the fraction of a group in [float64]; the model
    evaluates it exactly.  Every group consumes at least one character,
    so the length of the string is enough fuel. *)
Definition ParseDuration (orig : string) : option Z :=
  let '(neg, s) :=
    match orig with
    | String "-"%char s' => (true, s')
    | String "+"%char s' => (false, s')
    | _ => (false, orig)
    end in
  if decide (s = "0") then Some 0
  else if decide (s = "") then None
  else
    match parseGroups (String.length s) 0 s with
    | None => None
    | Some d =>
        if neg then Some (- d)
        else if 2 ^ 63 - 1 <? d then None else Some d
    end.

End time.

(** ** Package [k8s.io/apimachinery/pkg/api/resource] *)

Module resource.

(** The zero value of a [Quantity] has no format yet. *)
Inductive Format := FormatUnset | DecimalExponent | BinarySI | DecimalSI.

#[global] Instance Format_eq_dec : EqDecision Format.
Proof. solve_decision. Defined.

(** A quantity is a fixed-point number; the library keeps no more than
    nine decimal places, so the value is held in units of [10^-9]. *)
Record Quantity := mkQuantity { nano : Z; format : Format }.

#[global] Instance Quantity_eq_dec : EqDecision Quantity.
Proof. solve_decision. Defined.

Definition zeroQuantity : Quantity := mkQuantity 0 FormatUnset.

(** [NewQuantity(value, format)] and [NewMilliQuantity(value, format)] *)
Definition NewQuantity (value : Z) (f : Format) : Quantity :=
  mkQuantity (value * 10 ^ 9) f.
Definition NewMilliQuantity (value : Z) (f : Format) : Quantity :=
  mkQuantity (value * 10 ^ 6) f.

(** Division rounded away from zero, for a positive divisor. *)
Definition divAway (n d : Z) : Z :=
  if 0 <=? n then (n + d - 1) / d else - ((- n + d - 1) / d).

(** [q.Value()] and [q.MilliValue()]: the value, respectively a
    thousand times the value, rounded up to an integer. *)
Definition Value (q : Quantity) : Z := divAway (nano q) (10 ^ 9).
Definition MilliValue (q : Quantity) : Z := divAway (nano q) (10 ^ 6).

(** [q.Cmp(y)]: -1, 0 or 1; the format plays no part. *)
Definition Cmp (q y : Quantity) : Z :=
  match nano q ?= nano y with
  | Lt => -1
  | Eq => 0
  | Gt => 1
  end.

Fixpoint digits (acc : Z) (n : nat) (s : string) : Z * nat * string :=
  match s with
  | String c s' =>
      if time.isDigit c then digits (acc * 10 + time.digitVal c) (S n) s'
      else (acc, n, s)
  | EmptyString => (acc, n, s)
  end.

Definition signed (s : string) : bool * string :=
  match s with
  | String "-"%char s' => (false, s')
  | String "+"%char s' => (true, s')
  | _ => (true, s)
  end.

(** The multiplier of a suffix as a fraction, with its format. *)
Definition interpret (suf : string) : option (Z * Z * Format) :=
  if decide (suf = "Ki") then Some (2 ^ 10, 1, BinarySI)
  else if decide (suf = "Mi") then Some (2 ^ 20, 1, BinarySI)
  else if decide (suf = "Gi") then Some (2 ^ 30, 1, BinarySI)
  else if decide (suf = "Ti") then Some (2 ^ 40, 1, BinarySI)
  else if decide (suf = "Pi") then Some (2 ^ 50, 1, BinarySI)
  else if decide (suf = "Ei") then Some (2 ^ 60, 1, BinarySI)
  else if decide (suf = "n") then Some (1, 10 ^ 9, DecimalSI)
  else if decide (suf = "u") then Some (1, 10 ^ 6, DecimalSI)
  else if decide (suf = "m") then Some (1, 10 ^ 3, DecimalSI)
  else if decide (suf = "") then Some (1, 1, DecimalSI)
  else if decide (suf = "k") then Some (10 ^ 3, 1, DecimalSI)
  else if decide (suf = "M") then Some (10 ^ 6, 1, DecimalSI)
  else if decide (suf = "G") then Some (10 ^ 9, 1, DecimalSI)
  else if decide (suf = "T") then Some (10 ^ 12, 1, DecimalSI)
  else if decide (suf = "P") then Some (10 ^ 15, 1, DecimalSI)
  else if decide (suf = "E") then Some (10 ^ 18, 1, DecimalSI)
  else
    match suf with
    | String c rest =>
        if Ascii.eqb c "e"%char || Ascii.eqb c "E"%char then
          let '(pos, ds) := signed rest in
          match digits 0 0 ds with
          | (_, O, _) => None
          | (e, _, EmptyString) =>
              if pos then Some (10 ^ e, 1, DecimalExponent)
              else Some (1, 10 ^ e, DecimalExponent)
          | _ => None
          end
        else None
    | EmptyString => None
    end.

(** A model of [resource.ParseQuantity], after the grammar documented
    with the type: a quantity is a signed number followed by a suffix,
    the number being digits with an optional fraction, the suffix one of
    the binary multipliers [Ki Mi Gi Ti Pi Ei], one of the decimal
    multipliers [n u m k M G T P E] or none, or a decimal exponent.  The
    value is rounded up to nine decimal places; a binary quantity is
    capped at [2^63 - 1] and, below one, printed in decimal.  [None]
    where the library returns an error. *)
Definition ParseQuantity (str : string) : option Quantity :=
  let '(positive, s0) := signed str in
  let '(num, n1, s1) := digits 0 0 s0 in
  let '(den, n2, s2) :=
    match s1 with
    | String "."%char s1' => digits 0 0 s1'
    | _ => (0, O, s1)
    end in
  if (n1 + n2 =? 0)%nat then None
  else
    match interpret s2 with
    | None => None
    | Some (mn, md, f) =>
        let whole := num * 10 ^ Z.of_nat n2 + den in
        let amount := divAway (whole * mn * 10 ^ 9) (10 ^ Z.of_nat n2 * md) in
        let capped :=
          if decide (f = BinarySI) then Z.min amount ((2 ^ 63 - 1) * 10 ^ 9)
          else amount in
        let f' :=
          if bool_decide (f = BinarySI) && (0 <? capped) && (capped <? 10 ^ 9)
          then DecimalSI else f in
        Some (mkQuantity (if positive then capped else - capped) f')
    end.

End resource.

(** ** Package [k8s.io/api/core/v1]: the part of a pod the controller uses *)

Module corev1.

Record EnvVar := mkEnvVar { Name : string; Value : string }.

(** A Go map is [nil] or a map; reading a [nil] map is allowed, writing
    to it panics. *)
Record ResourceRequirements := mkResources {
  Limits : option (gmap string resource.Quantity);
  Requests : option (gmap string resource.Quantity);
}.

Definition ResourceCPU : string := "cpu".
Definition ResourceMemory : string := "memory".
Definition ResourceEphemeralStorage : string := "ephemeral-storage".

Record Container := mkContainer {
  ContainerName : string;
  Image : string;
  Args : list string;
  Env : list EnvVar;
  Resources : ResourceRequirements;
}.

(** Instants are nanoseconds since the epoch. *)
Record Pod := mkPod {
  PodName : string;
  Namespace : string;
  Labels : option (gmap string string);
  ResourceVersion : string;
  UID : string;
  CreationTimestamp : Z;
  Phase : string;
  PodIP : string;
  InitContainers : list Container;
  Containers : list Container;
}.

(** [m[k]] for a resource list: the zero quantity when absent. *)
Definition quantityAt (m : option (gmap string resource.Quantity)) (k : string)
  : resource.Quantity :=
  match m with
  | Some l => default resource.zeroQuantity (l !! k)
  | None => resource.zeroQuantity
  end.

(** [m[k] = q] *)
Definition assign (m : option (gmap string resource.Quantity)) (k : string)
  (q : resource.Quantity) : Go.Result (option (gmap string resource.Quantity)) :=
  match m with
  | Some l => Go.Ok (Some (<[k := q]> l))
  | None => Go.Panic "assignment to entry in nil map"
  end.

(** [pod.Labels[k]]: the empty string when absent. *)
Definition labelAt (pod : Pod) (k : string) : string :=
  match Labels pod with
  | Some m => default "" (m !! k)
  | None => ""
  end.

Definition setEnv (c : Container) (env : list EnvVar) : Container :=
  mkContainer (ContainerName c) (Image c) (Args c) env (Resources c).
Definition setArgs (c : Container) (args : list string) : Container :=
  mkContainer (ContainerName c) (Image c) args (Env c) (Resources c).
Definition setImage (c : Container) (image : string) : Container :=
  mkContainer (ContainerName c) image (Args c) (Env c) (Resources c).
Definition setResources (c : Container) (r : ResourceRequirements) : Container :=
  mkContainer (ContainerName c) (Image c) (Args c) (Env c) r.
Definition setRequests (c : Container) (m : option (gmap string resource.Quantity))
  : Container :=
  setResources c (mkResources (Limits (Resources c)) m).
Definition setLimits (c : Container) (m : option (gmap string resource.Quantity))
  : Container :=
  setResources c (mkResources m (Requests (Resources c))).

Definition setContainers (p : Pod) (ini cs : list Container) : Pod :=
  mkPod (PodName p) (Namespace p) (Labels p) (ResourceVersion p) (UID p)
    (CreationTimestamp p) (Phase p) (PodIP p) ini cs.
Definition setLabels (p : Pod) (l : option (gmap string string)) : Pod :=
  mkPod (PodName p) (Namespace p) l (ResourceVersion p) (UID p)
    (CreationTimestamp p) (Phase p) (PodIP p) (InitContainers p) (Containers p).
Definition setName (p : Pod) (n : string) : Pod :=
  mkPod n (Namespace p) (Labels p) (ResourceVersion p) (UID p)
    (CreationTimestamp p) (Phase p) (PodIP p) (InitContainers p) (Containers p).
Definition clearServerFields (p : Pod) : Pod :=
  mkPod (PodName p) (Namespace p) (Labels p) "" ""
    (CreationTimestamp p) (Phase p) (PodIP p) (InitContainers p) (Containers p).

End corev1.

(** ** What the sources import but do not define

    The label key [constants.AENV_TTL] and the two parsers of the
    libraries are parameters of the embedding: every property below that
    does not evaluate a concrete string holds for all of them. *)

Class Imports := {
  AENV_TTL : string;
  ParseDuration : string → option Z;
  ParseQuantity : string → option resource.Quantity;
}.

(** The parsers are evaluated as a whole, never unfolded step by step. *)
Arguments time.ParseDuration : simpl never.
Arguments resource.ParseQuantity : simpl never.

(** The instance used to run the code on concrete inputs, with the key
    named in the log line of [createPod]. *)
Definition imports : Imports := {|
  AENV_TTL := "aenv-ttl";
  ParseDuration := time.ParseDuration;
  ParseQuantity := resource.ParseQuantity;
|}.

(** ** [aenv_pod_cache.go] *)

Module PodCache.
Import corev1.

(** The cache is an indexer fed by an informer; a read of the namespace
    index returns the pods or an error. *)
Record AEnvPodCache := mkCache {
  ByIndex : string → string + list Pod;
  GetByKey : string → string + option Pod;
}.

(** Lines written to the log by the scan. *)
Inductive LogEntry :=
| WarnParseTTL (ttlValue podName : string)
| InfoExpired (podName : string) (createdAt limited : Z).

Section ListExpired.
Context `{Imports}.

(** The body of the loop of [ListExpiredPods] for one item: the
    comparison with the clock guards the log line only, the [append]
    follows it unconditionally. *)
Definition scanPod (now : Z) (acc : list Pod * list LogEntry) (pod : Pod)
  : list Pod * list LogEntry :=
  let '(expired, log) := acc in
  let ttlValue := labelAt pod AENV_TTL in
  if decide (ttlValue = "") then (expired, log)
  else
    match ParseDuration ttlValue with
    | None => (expired, log ++ [WarnParseTTL ttlValue (PodName pod)])
    | Some limited =>
        let createdAt := CreationTimestamp pod in
        let currentTime := now in
        let log' :=
          if limited <? time.Sub currentTime createdAt
          then log ++ [InfoExpired (PodName pod) createdAt limited]
          else log in
        (expired ++ [pod], log')
    end.

(** [ListExpiredPods]: the pods returned and the log, or the error of
    the index.  [now] is the reading of the clock during the scan. *)
Definition ListExpiredPods (c : AEnvPodCache) (now : Z) (namespace : string)
  : string + (list Pod * list LogEntry) :=
  match ByIndex c namespace with
  | inl err => inl err
  | inr items => inr (foldl (scanPod now) ([], []) items)
  end.

(** [ListPodsByNamespace] *)
Definition ListPodsByNamespace (c : AEnvPodCache) (namespace : string)
  : string + list Pod :=
  match ByIndex c namespace with
  | inl err => inl err
  | inr items => inr items
  end.

(** [GetPod] *)
Definition GetPod (c : AEnvPodCache) (namespace name : string)
  : string + Pod :=
  let key := namespace +:+ "/" +:+ name in
  match GetByKey c key with
  | inl err => inl err
  | inr None => inl ("pod " +:+ key +:+ " not found in cache")
  | inr (Some pod) => inr pod
  end.

End ListExpired.

End PodCache.

(** ** The host of the controller: files, randomness and the cluster API *)

Module k8s.

(** An error of the cluster client: a [*errors.StatusError] carrying the
    status of the API server, or any other error. *)
Inductive error :=
| StatusError (code : Z) (message : string)
| OtherError (text : string).

End k8s.

Class Host := {
  (** [os.ReadFile]: [None] on error. *)
  ReadFile : string → option string;
  (** [yaml.Unmarshal] into a [*corev1.Pod]: [None] on error, [Some None]
      when the document leaves the pointer [nil]. *)
  Unmarshal : string → option (option corev1.Pod);
  (** [RandString(n)] *)
  RandString : Z → string;
  (** [Pods(ns).Create], [Pods(ns).Get] and [Pods(ns).Delete] *)
  podsCreate : corev1.Pod → k8s.error + corev1.Pod;
  podsGet : string → k8s.error + corev1.Pod;
  podsDelete : string → option k8s.error;
}.

(** ** The template utilities of package [aenvhub_http_server] *)

Module PodTemplate.
Import Go corev1.

Definition AMD64 : string := "amd64".
Definition WIN64 : string := "win64".
Definition SingleContainerTemplate : string := "singleContainer".

(** The three loops of [mergeEnvVars] in [MergePod]: for one variable of
    the definition, overwrite the first entry of that name ... *)
Fixpoint overrideEnv (env : list EnvVar) (k v : string) : option (list EnvVar) :=
  match env with
  | [] => None
  | e :: rest =>
      if decide (Name e = k) then Some (mkEnvVar (Name e) v :: rest)
      else cons e <$> overrideEnv rest k v
  end.

(** ... or append it when no entry has that name. *)
Definition mergeEnvVar (env : list EnvVar) (kv : string * string) : list EnvVar :=
  match overrideEnv env kv.1 kv.2 with
  | Some env' => env'
  | None => env ++ [mkEnvVar kv.1 kv.2]
  end.

Definition mergeEnvVars (environs : list (string * string))
  (containers : list Container) : list Container :=
  (λ c, setEnv c (foldl mergeEnvVar (Env c) environs)) <$> containers.

Definition minEphemeralStorageBytes : Z := 1 * 1024 * 1024 * 1024.
Definition maxEphemeralStorageBytes : Z := 50 * 1024 * 1024 * 1024.

Definition orEmpty (m : option (gmap string resource.Quantity))
  : gmap string resource.Quantity := default ∅ m.

(** [updateResources] of [MergePod] *)
Definition updateResources (memory ephemeralStorage : Z) (container : Container)
  : Container :=
  let memoryBytes := memory * 1024 * 1024 in
  let container :=
    if (256 <=? memory) && (memory <=? 8192) then
      let memQty := resource.NewQuantity memoryBytes resource.BinarySI in
      let r := Resources container in
      setResources container
        (mkResources (Some (<[ResourceMemory := memQty]> (orEmpty (Limits r))))
                     (Some (<[ResourceMemory := memQty]> (orEmpty (Requests r)))))
    else container in
  if (minEphemeralStorageBytes <=? ephemeralStorage)
     && (ephemeralStorage <=? maxEphemeralStorageBytes) then
    let storageQty := resource.NewQuantity ephemeralStorage resource.BinarySI in
    let r := Resources container in
    setResources container
      (mkResources
         (Some (<[ResourceEphemeralStorage := storageQty]> (orEmpty (Limits r))))
         (Some (<[ResourceEphemeralStorage := storageQty]> (orEmpty (Requests r)))))
  else container.

(** [MergePod]; a [nil] map is [None], a map is its entries in the order
    of the [range] loop. *)
Definition MergePod (pod : Pod) (labels environs : option (list (string * string)))
  (memory ephemeralStorage : Z) (image : string) : Pod :=
  let pod :=
    match labels with
    | Some kvs =>
        setLabels pod
          (Some (foldl (λ m kv, <[kv.1 := kv.2]> m) (default ∅ (Labels pod)) kvs))
    | None => pod
    end in
  let pod :=
    match environs with
    | Some kvs =>
        setContainers pod (mergeEnvVars kvs (InitContainers pod))
                          (mergeEnvVars kvs (Containers pod))
    | None => pod
    end in
  let update := λ c, setImage (updateResources memory ephemeralStorage c) image in
  setContainers pod (update <$> InitContainers pod) (update <$> Containers pod).

Section Load.
Context `{Host}.

Definition podTemplateBaseDir : string := "/etc/aenv/pod-templates".

(** [loadPodTemplateFromLegacyPath]: the fixed path of the machine
    type, the Linux template for every type that has none of its
    own.  A read or parse error panics; the pointer returned may be
    [nil]. *)
Definition legacyFileName (machineType : string) : string :=
  if decide (machineType = AMD64) then "/home/admin/pod_template_linux/config.yaml"
  else if decide (machineType = SingleContainerTemplate)
  then "/home/admin/pod_template_linux/config.yaml"
  else if decide (machineType = WIN64)
  then "/home/admin/pod_template_windows/config.yaml"
  else if decide (machineType = "Terminal")
  then "/home/admin/pod_template_terminal/config.yaml"
  else "/home/admin/pod_template_linux/config.yaml".

Definition loadPodTemplateFromLegacyPath (machineType : string)
  : Result (option Pod) :=
  let templateFileName := legacyFileName machineType in
  match ReadFile templateFileName with
  | None => Panic ("failed to read YAML file " +:+ templateFileName)
  | Some yamlFile =>
      match Unmarshal yamlFile with
      | None => Panic "failed to unmarshal YAML"
      | Some pod => Ok pod
      end
  end.

(** [LoadPodTemplateFromYaml]: the blueprint of the configured
    directory, the legacy path when it cannot be read. *)
Definition LoadPodTemplateFromYaml (machineType : string) : Result (option Pod) :=
  let templateFilePath := podTemplateBaseDir +:+ "/" +:+ machineType +:+ ".yaml" in
  match ReadFile templateFilePath with
  | None => loadPodTemplateFromLegacyPath machineType
  | Some yamlFile =>
      match Unmarshal yamlFile with
      | None => Panic ("failed to unmarshal YAML from " +:+ templateFilePath)
      | Some None => Panic "invalid memory address or nil pointer dereference"
      | Some (Some pod) => Ok (Some (clearServerFields pod))
      end
  end.

(** [LoadNsFromPodTemplate] *)
Definition LoadNsFromPodTemplate (machineType : string) : Result string :=
  pod ← LoadPodTemplateFromYaml machineType;
  match pod with
  | None => Panic "invalid memory address or nil pointer dereference"
  | Some pod => Ok (Namespace pod)
  end.

End Load.

End PodTemplate.

(** ** [aenv_pod_handler.go] *)

Module PodHandler.
Import Go corev1 PodTemplate.

(** [model.Artifact] and the fields of [model.AEnvHubEnv] the handler
    reads.  The deploy configuration is only read here, and a [nil] map
    reads as the empty map. *)
Record Artifact := mkArtifact {
  ArtifactId : string; ArtifactType : string; Content : string;
}.

Record AEnvHubEnv := mkEnv {
  EnvName : string;
  Artifacts : list Artifact;
  DeployConfig : gmap string Any;
}.

Record HttpResponseData := mkData {
  ID : string; Status : string; IP : string; TTL : string;
}.

Record HttpListResponseData := mkListData {
  lID : string; lStatus : string; lTTL : string; lCreatedAt : Z;
}.

(** What a handler writes: the status code and the body, the text of
    [http.Error] or one of the three JSON envelopes (all written with
    [success] true and [code] 0). *)
Inductive Body :=
| Text (message : string)
| HttpResponse (data : HttpResponseData)
| HttpDeleteResponse (data : bool)
| HttpListResponse (data : list HttpListResponseData)
| Empty.

Record Reply := mkReply { StatusCode : Z; body : Body }.

(** [httpStatusFromK8s] *)
Definition httpStatusFromK8s (code : Z) : Z :=
  if decide (code = 200 ∨ code = 201 ∨ code = 202) then 200
  else if decide (code = 400) then 400
  else if decide (code = 401) then 401
  else if decide (code = 403) then 403
  else if decide (code = 404) then 404
  else if decide (code = 409) then 409
  else 500.

(** [handleK8sAPiError] *)
Definition handleK8sAPiError (err : k8s.error) (action : string) : Reply :=
  match err with
  | k8s.StatusError code message =>
      mkReply (httpStatusFromK8s code) (Text (action +:+ " failed: err is " +:+ message))
  | k8s.OtherError text =>
      mkReply 500 (Text (action +:+ " failed: err is " +:+ text))
  end.

Section Handler.
Context `{Imports} `{Host}.

(** The loop over [environmentVariables] of [applyConfig]: every
    entry is appended, whatever the list already holds. *)
Fixpoint appendEnvironmentVariables (env : list EnvVar)
  (environmentVariables : list (string * Any)) : Result (list EnvVar) :=
  match environmentVariables with
  | [] => Ok env
  | (k, v) :: rest =>
      s ← assertString "interface {}" (Some v);
      appendEnvironmentVariables (env ++ [mkEnvVar k s]) rest
  end.

(** [configs["resource"] != "autoscale"], negated *)
Definition isAutoscale (v : option Any) : bool :=
  match v with
  | Some (AString s) => bool_decide (s = "autoscale")
  | _ => false
  end.

(** [if q.Cmp(expect) != 0 { m[k] = expect }] *)
Definition reset (m : option (gmap string resource.Quantity)) (k : string)
  (expect : resource.Quantity) : Result (option (gmap string resource.Quantity)) :=
  if decide (resource.Cmp (quantityAt m k) expect = 0) then Ok m
  else assign m k expect.

(** [applyConfig] *)
Definition applyConfig (configs : gmap string Any) (container : Container)
  : Result Container :=
  env ← match configs !! "environmentVariables" with
        | Some (AMap environmentVariables) =>
            appendEnvironmentVariables (Env container) environmentVariables
        | _ => Ok (Env container)
        end;
  let container := setEnv container env in
  let container :=
    match configs !! "arguments" with
    | Some (AStrSlice arguments) => setArgs container (Args container ++ arguments)
    | _ => container
    end in
  if negb (isAutoscale (configs !! "resource")) then Ok container
  else
    strCpu ← assertString "interface {}" (configs !! "cpu");
    strMemory ← assertString "interface {}" (configs !! "memory");
    match ParseQuantity strCpu with
    | None => Ok container
    | Some expectCpu =>
        match ParseQuantity strMemory with
        | None => Ok container
        | Some expectMemory =>
            requests ← reset (Requests (Resources container)) ResourceCPU expectCpu;
            requests ← reset requests ResourceMemory expectMemory;
            limits ← reset (Limits (Resources container)) ResourceCPU expectCpu;
            limits ← reset limits ResourceMemory expectMemory;
            Ok (setResources container (mkResources limits requests))
        end
    end.

(** The image of the first artifact of type ["image"], else [""]. *)
Definition primaryImage (aenv : AEnvHubEnv) : string :=
  match find (λ a, bool_decide (ArtifactType a = "image")) (Artifacts aenv) with
  | Some artifact => Content artifact
  | None => ""
  end.

(** The loop over [pod.Spec.Containers] of [MergePodImage], from
    index [i] on. *)
Fixpoint mergeContainers (aenv : AEnvHubEnv) (image : string) (i : nat)
  (containers : list Container) : Result (list Container) :=
  match containers with
  | [] => Ok []
  | c :: rest =>
      let c := setImage c image in
      c ← (if decide (i = 1%nat) then
             match DeployConfig aenv !! "secondImageName" with
             | Some secondImageName =>
                 s ← assertString "interface {}" (Some secondImageName);
                 Ok (setImage c s)
             | None => Ok c
             end
           else Ok c);
      c ← applyConfig (DeployConfig aenv) c;
      rest ← mergeContainers aenv image (S i) rest;
      Ok (c :: rest)
  end.

(** [MergePodImage]; the pod is a pointer. *)
Definition MergePodImage (pod : option Pod) (aenv : AEnvHubEnv) : Result Pod :=
  match pod with
  | None => Panic "invalid memory address or nil pointer dereference"
  | Some pod =>
      let image := primaryImage aenv in
      let initContainers := (λ c, setImage c image) <$> InitContainers pod in
      containers ← mergeContainers aenv image 0 (Containers pod);
      Ok (setContainers pod initContainers containers)
  end.

(** The template type of a request, ["singleContainer"] by default. *)
Definition templateTypeOf (aenvHubEnv : AEnvHubEnv) : string :=
  match DeployConfig aenvHubEnv !! "podTemplate" with
  | Some (AString podTemplateStr) =>
      if decide (podTemplateStr = "") then SingleContainerTemplate
      else podTemplateStr
  | _ => SingleContainerTemplate
  end.

(** [createPod] from the template to the TTL label: the pod that is
    handed to the cluster API. *)
Definition renderPod (aenvHubEnv : AEnvHubEnv) : Result Pod :=
  pod ← LoadPodTemplateFromYaml (templateTypeOf aenvHubEnv);
  pod ← MergePodImage pod aenvHubEnv;
  match Containers pod with
  | [] => Panic "index out of range [0] with length 0"
  | _ :: _ =>
      let pod := setName pod (EnvName aenvHubEnv +:+ "-" +:+ RandString 6) in
      match DeployConfig aenvHubEnv !! "ttl" with
      | None | Some ANil => Ok pod
      | Some ttl =>
          ttlValue ← assertString "interface {}" (Some ttl);
          Ok (setLabels pod (Some (<[AENV_TTL := ttlValue]> (default ∅ (Labels pod)))))
      end
  end.

(** [createPod]; the body is the decoded request, [None] when it does
    not decode. *)
Definition createPod (decoded : option AEnvHubEnv) : Result Reply :=
  match decoded with
  | None => Ok (mkReply 400 (Text "Invalid request body"))
  | Some aenvHubEnv =>
      pod ← renderPod aenvHubEnv;
      match podsCreate pod with
      | inl err => Ok (handleK8sAPiError err "failed to create pod")
      | inr createdPod =>
          Ok (mkReply 201
                (HttpResponse (mkData (PodName createdPod) (Phase createdPod)
                                      (PodIP createdPod) "")))
      end
  end.

(** [getPod]: the cache first, then the cluster API. *)
Definition getPod (podCache : PodCache.AEnvPodCache) (namespace podName : string)
  : Reply :=
  if decide (podName = "") then mkReply 400 (Text "missing pod name")
  else
    let found :=
      match PodCache.GetPod podCache namespace podName with
      | inr pod => inr pod
      | inl _ => podsGet podName
      end in
    match found with
    | inl err => handleK8sAPiError err "failed to get pod"
    | inr pod =>
        mkReply 200
          (HttpResponse (mkData (PodName pod) (Phase pod) (PodIP pod)
                                (labelAt pod AENV_TTL)))
    end.

(** [listPod]; [filterMark] is the query parameter [filter].  When the
    cache fails nothing is written, which the server sends as an
    empty 200. *)
Definition listPod (podCache : PodCache.AEnvPodCache) (namespace : string)
  (now : Z) (filterMark : string) : Reply :=
  let podList :=
    if decide (filterMark = "expired") then
      match PodCache.ListExpiredPods podCache now namespace with
      | inl err => inl err
      | inr (expired, _) => inr expired
      end
    else PodCache.ListPodsByNamespace podCache namespace in
  match podList with
  | inl _ => mkReply 200 Empty
  | inr podList =>
      mkReply 200
        (HttpListResponse
           ((λ pod, mkListData (PodName pod) (Phase pod) (labelAt pod AENV_TTL)
                               (CreationTimestamp pod)) <$> podList))
  end.

(** [deletePod] *)
Definition deletePod (podName : string) : Reply :=
  if decide (podName = "") then mkReply 400 (Text "missing pod name")
  else
    match podsDelete podName with
    | Some err => handleK8sAPiError err "failed to delete Pod"
    | None => mkReply 200 (HttpDeleteResponse true)
    end.

End Handler.

End PodHandler.

(** ** The gateway: [api-service/controller/env_instance.go] *)

Module Gateway.
Import Go.

Record CreateEnvInstanceRequest := mkRequest {
  EnvName : string;
  Datasource : string;
  EnvironmentVariables : option (list (string * string));
  Arguments : option (list string);
  TTL : string;
}.

(** The fields of the registry's [Env] the gateway uses.  Its deploy
    configuration is written here, so [nil] is told apart. *)
Record Env := mkEnv {
  Name : string;
  Artifacts : list PodHandler.Artifact;
  DeployConfig : option (gmap string Any);
}.

(** [m[k] = v] on a deploy configuration *)
Definition put (m : option (gmap string Any)) (k : string) (v : Any)
  : Result (option (gmap string Any)) :=
  match m with
  | Some m => Ok (Some (<[k := v]> m))
  | None => Panic "assignment to entry in nil map"
  end.

(** [CreateEnvInstance], from the environment found in the registry to
    the call of the backend: the deploy configuration it sends. *)
Definition prepareDeployConfig (req : CreateEnvInstanceRequest)
  (deployConfig : option (gmap string Any)) : Result (option (gmap string Any)) :=
  let deployConfig :=
    if decide (Datasource req ≠ "") then
      let made := default ∅ deployConfig in
      let imagePrefix :=
        match made !! "imagePrefix" with
        | Some (AString str) => str
        | _ => "docker.io/library/aenv"
        end in
      let secondImageName := imagePrefix +:+ ":" +:+ Datasource req in
      Some (<["secondImageName" := AString secondImageName]> made)
    else deployConfig in
  deployConfig ←
    match EnvironmentVariables req with
    | Some vars => put deployConfig "environmentVariables" (AStrMap vars)
    | None => Ok deployConfig
    end;
  deployConfig ←
    match Arguments req with
    | Some args => put deployConfig "arguments" (AStrSlice args)
    | None => Ok deployConfig
    end;
  put deployConfig "ttl" (AString (TTL req)).

(** A value after [json.Marshal] in the gateway and [Decode] in the
    controller: typed maps and slices arrive as maps and slices of
    [interface{}].  The entries of a map keep the order of the list,
    one of the orders a [range] over the decoded map can take. *)
Fixpoint wire (v : Any) : Any :=
  match v with
  | AStrSlice l => ASlice (List.map AString l)
  | AStrMap m => AMap (List.map (λ kv, (kv.1, AString kv.2)) m)
  | ASlice l => ASlice (List.map wire l)
  | AMap m => AMap (List.map (λ kv, (kv.1, wire kv.2)) m)
  | ANil | ABool _ | ANumber _ | AString _ => v
  end.

(** The request body of [POST /pods] as the controller decodes it. *)
Definition posted (backendEnv : Env) : PodHandler.AEnvHubEnv :=
  PodHandler.mkEnv (Name backendEnv) (Artifacts backendEnv)
    (wire <$> default ∅ (DeployConfig backendEnv)).

(** The environment [CreateEnvInstance] posts for a request. *)
Definition CreateEnvInstance_posted (req : CreateEnvInstanceRequest)
  (backendEnv : Env) : Result PodHandler.AEnvHubEnv :=
  deployConfig ← prepareDeployConfig req (DeployConfig backendEnv);
  Ok (posted (mkEnv (Name backendEnv) (Artifacts backendEnv) deployConfig)).

End Gateway.

(** ** The controller adapter of the gateway: [ScheduleClient] *)

Module Schedule.

(** The fields of [models.EnvInstance] read by the client. *)
Record EnvInstance := mkInstance {
  ID : string; Status : string; IP : string; TTL : string;
}.

(** A response body as [json.Unmarshal] sees it: not an envelope, or
    the envelope [ClientResponse] with its payload. *)
Inductive Data :=
| DNull
| DBool (b : bool)
| DInstance (i : EnvInstance)
| DList (l : list EnvInstance).

Inductive Payload :=
| NotAnEnvelope
| ClientResponse (Success : bool) (Code : Z) (data : Data).

Record Response := mkResponse { StatusCode : Z; payload : Payload }.

(** A request: the method, the path and the query parameter [filter]. *)
Record Request := mkRequest { method : string; path : string; query : string }.

Section Client.
(** The state of whatever answers the requests, and [httpClient.Do]:
    [None] when the request cannot be built or sent. *)
Context {W : Type} (Do : Request → W → option Response * W).

(** [FilterPods] *)
Definition FilterPods (w : W) : (string + list EnvInstance) * W :=
  match Do (mkRequest "GET" "/pods" "expired") w with
  | (None, w) => (inl "failed to send request", w)
  | (Some resp, w) =>
      if decide (StatusCode resp ≠ 200) then (inl "request failed with status", w)
      else
        match payload resp with
        | ClientResponse success _ (DList l) =>
            if success then (inr l, w) else (inl "server returned error", w)
        | ClientResponse success _ DNull =>
            if success then (inr [], w) else (inl "server returned error", w)
        | _ => (inl "failed to unmarshal response", w)
        end
  end.

(** [DeletePod] *)
Definition DeletePod (podName : string) (w : W) : (string + bool) * W :=
  match Do (mkRequest "DELETE" ("/pods/" +:+ podName) "") w with
  | (None, w) => (inl "failed to send request", w)
  | (Some resp, w) =>
      if decide (StatusCode resp ≠ 200) then (inl "request failed with status", w)
      else
        match payload resp with
        | ClientResponse success _ (DBool b) =>
            if success then (inr b, w) else (inl "server returned error", w)
        | ClientResponse success _ DNull =>
            if success then (inr false, w) else (inl "server returned error", w)
        | _ => (inl "failed to unmarshal response", w)
        end
  end.

(** What a pass of [Cleanup] did: the error returned, the count it
    logs at the end and the instances it tried to delete, in order. *)
Record Pass := mkPass {
  returned : option string;
  deletedCount : Z;
  attempted : list string;
}.

(** The loop of [Cleanup] over the instances listed. *)
Fixpoint cleanupLoop (instances : list EnvInstance) (deletedCount : Z)
  (attempted : list string) (w : W) : Z * list string * W :=
  match instances with
  | [] => (deletedCount, attempted, w)
  | instance :: rest =>
      if decide (Status instance = "Terminated")
      then cleanupLoop rest deletedCount attempted w
      else
        match DeletePod (ID instance) w with
        | (inl _, w) => cleanupLoop rest deletedCount (attempted ++ [ID instance]) w
        | (inr deleted, w) =>
            cleanupLoop rest (if deleted then deletedCount + 1 else deletedCount)
              (attempted ++ [ID instance]) w
        end
  end.

(** [Cleanup] *)
Definition Cleanup (w : W) : Pass * W :=
  match FilterPods w with
  | (inl err, w) =>
      (mkPass (Some ("failed to get env instances: " +:+ err)) 0 [], w)
  | (inr envInstances, w) =>
      match envInstances with
      | [] => (mkPass None 0 [], w)
      | _ :: _ =>
          let '(deletedCount, attempted, w) := cleanupLoop envInstances 0 [] w in
          (mkPass None deletedCount attempted, w)
      end
  end.

End Client.

End Schedule.

(** ** The controller as the server behind the adapter *)

Module Controller.
Import Go corev1 PodHandler.

(** [strings.Split(s, "/")] *)
Fixpoint splitFrom (cur s : string) : list string :=
  match s with
  | EmptyString => [cur]
  | String c s' =>
      if Ascii.eqb c "/"%char then cur :: splitFrom "" s'
      else splitFrom (cur +:+ String c "") s'
  end.
Definition Split (s : string) : list string := splitFrom "" s.

Section Serve.
Context `{Imports} `{Host}.

(** [ServeHTTP]: the routing on the method and the number of parts of
    the path. *)
Definition ServeHTTP (podCache : PodCache.AEnvPodCache) (namespace : string)
  (now : Z) (r : Schedule.Request) (decoded : option AEnvHubEnv) : Result Reply :=
  let parts := Split (Schedule.path r) in
  if (length parts <? 2)%nat || negb (bool_decide (parts !! 1%nat = Some "pods"))
  then Ok (mkReply 400 (Text "Invalid URL path"))
  else if bool_decide (Schedule.method r = "POST") && (length parts =? 2)%nat
  then createPod decoded
  else if bool_decide (Schedule.method r = "GET") && (length parts =? 2)%nat
  then Ok (listPod podCache namespace now (Schedule.query r))
  else if bool_decide (Schedule.method r = "GET") && (length parts =? 3)%nat
  then Ok (getPod podCache namespace (default "" (parts !! 2%nat)))
  else if bool_decide (Schedule.method r = "DELETE") && (length parts =? 3)%nat
  then Ok (deletePod (default "" (parts !! 2%nat)))
  else Ok (mkReply 405 (Text "http method not allowed")).

End Serve.

(** The JSON of a reply as the client of the gateway decodes it; an
    empty list is a [nil] slice and is written as [null]. *)
Definition decodeReply (r : Reply) : Schedule.Response :=
  Schedule.mkResponse (StatusCode r)
    match body r with
    | Text _ | Empty => Schedule.NotAnEnvelope
    | HttpResponse d =>
        Schedule.ClientResponse true 0
          (Schedule.DInstance (Schedule.mkInstance (ID d) (Status d) (IP d) (TTL d)))
    | HttpDeleteResponse b => Schedule.ClientResponse true 0 (Schedule.DBool b)
    | HttpListResponse [] => Schedule.ClientResponse true 0 Schedule.DNull
    | HttpListResponse l =>
        Schedule.ClientResponse true 0
          (Schedule.DList
             ((λ d, Schedule.mkInstance (lID d) (lStatus d) "" (lTTL d)) <$> l))
    end.

(** A controller in service: the pods of its namespace, which the
    cache mirrors, the clock, and the host.  A deletion the cluster
    accepts removes the pod. *)
Record State := mkState {
  namespace : string;
  pods : list Pod;
  clock : Z;
  host : Host;
}.

Definition cacheOf (st : State) : PodCache.AEnvPodCache :=
  PodCache.mkCache
    (λ ns, inr (filter (λ p, Namespace p = ns) (pods st)))
    (λ key, inr (find (λ p, bool_decide (Namespace p +:+ "/" +:+ PodName p = key))
                      (pods st))).

Definition removePod (st : State) (r : Schedule.Request) (reply : Reply) : State :=
  if bool_decide (Schedule.method r = "DELETE") && bool_decide (StatusCode reply = 200)
  then mkState (namespace st)
         (filter (λ p, Some (PodName p) ≠ Split (Schedule.path r) !! 2%nat) (pods st))
         (clock st) (host st)
  else st.

(** One exchange between the adapter and the controller.  A handler
    that panics sends no response. *)
Definition Do `{Imports} (r : Schedule.Request) (st : State)
  : option Schedule.Response * State :=
  match @ServeHTTP _ (host st) (cacheOf st) (namespace st) (clock st) r None with
  | Panic _ => (None, st)
  | Ok reply => (Some (decodeReply reply), removePod st r reply)
  end.

End Controller.

(** ** Concrete inputs *)

Module Scenario.
Import Go corev1.

Definition resources (cpuMilli memBytes : Z) : ResourceRequirements :=
  let l : gmap string resource.Quantity :=
    {[ ResourceCPU := resource.NewMilliQuantity cpuMilli resource.DecimalSI;
       ResourceMemory := resource.NewQuantity memBytes resource.BinarySI ]} in
  mkResources (Some l) (Some l).

(** The container of the test of [applyConfig]: one core, one gibibyte. *)
Definition mainContainer : Container :=
  mkContainer "main" "template:latest" [] [mkEnvVar "MODE" "template"]
    (resources 1000 1073741824).

Definition sideContainer : Container :=
  mkContainer "second" "template:latest" [] [] (resources 1000 1073741824).

Definition bareContainer : Container :=
  mkContainer "bare" "template:latest" [] [] (mkResources None None).

Definition singleTemplate : Pod :=
  mkPod "" "aenv" None "41" "uid-1" 0 "" "" [] [mainContainer].

Definition dualTemplate : Pod :=
  mkPod "" "aenv" None "" "" 0 "" "" [] [mainContainer; sideContainer].

(** A host whose configured directory holds the single-container and
    the dual-container blueprint and which has no legacy files. *)
Definition host : Host := {|
  ReadFile := λ name,
    if decide (name = "/etc/aenv/pod-templates/singleContainer.yaml")
    then Some "single"
    else if decide (name = "/etc/aenv/pod-templates/DualContainer.yaml")
    then Some "dual"
    else None;
  Unmarshal := λ yamlFile,
    if decide (yamlFile = "single") then Some (Some singleTemplate)
    else if decide (yamlFile = "dual") then Some (Some dualTemplate)
    else None;
  RandString := λ _, "abc123";
  podsCreate := λ pod, inr pod;
  podsGet := λ _, inl (k8s.StatusError 404 "not found");
  podsDelete := λ name,
    if decide (name = "c") then Some (k8s.StatusError 500 "internal error")
    else None;
|}.

(** A host with no template file at all. *)
Definition emptyHost : Host := {|
  ReadFile := λ _, None;
  Unmarshal := λ _, None;
  RandString := λ _, "abc123";
  podsCreate := λ pod, inr pod;
  podsGet := λ _, inl (k8s.StatusError 404 "not found");
  podsDelete := λ _, None;
|}.

Definition labelled (name phase ttl : string) (created : Z) : Pod :=
  mkPod name "aenv" (Some {[ "aenv-ttl" := ttl ]}) "" "" created phase "" []
    [mainContainer].

Definition hour : Z := 3600 * 10 ^ 9.

(** At the instant [2 * hour]: [a] is terminated, [b] runs with a TTL of
    one hour and was created a minute ago, [c] runs with a TTL of one
    minute and was created two hours ago. *)
Definition podA : Pod := labelled "a" "Terminated" "1m" 0.
Definition podB : Pod := labelled "b" "Running" "1h" (2 * hour - 60 * 10 ^ 9).
Definition podC : Pod := labelled "c" "Running" "1m" 0.
Definition podBad : Pod := labelled "bad" "Running" "soon" 0.
Definition podNone : Pod := mkPod "none" "aenv" None "" "" 0 "Running" "" [] [].
Definition podEmpty : Pod := labelled "empty" "Running" "" 0.

Definition controller : Controller.State :=
  Controller.mkState "aenv" [podA; podB; podC] (2 * hour) host.

Definition cache (items : list Pod) : PodCache.AEnvPodCache :=
  PodCache.mkCache (λ _, inr items) (λ _, inr None).

(** A request of the gateway with an empty TTL, and the environment of
    the registry it names. *)
Definition request (datasource : string) : Gateway.CreateEnvInstanceRequest :=
  Gateway.mkRequest "swe@1.0.0" datasource None None "".

Definition artifacts : list PodHandler.Artifact :=
  [PodHandler.mkArtifact "1" "whl" "swe.whl";
   PodHandler.mkArtifact "2" "image" "registry/swe:1.0.0"].

Definition backendEnv (deployConfig : gmap string Any) : Gateway.Env :=
  Gateway.mkEnv "swe" artifacts (Some deployConfig).

(** Three request bodies: [autoscale] without [cpu], [autoscale] without
    [memory], and a numeric [ttl]. *)
Definition noCpu : PodHandler.AEnvHubEnv :=
  PodHandler.mkEnv "swe" artifacts
    {[ "resource" := AString "autoscale"; "memory" := AString "4G" ]}.
Definition noMemory : PodHandler.AEnvHubEnv :=
  PodHandler.mkEnv "swe" artifacts
    {[ "resource" := AString "autoscale"; "cpu" := AString "2" ]}.
Definition numericTTL : PodHandler.AEnvHubEnv :=
  PodHandler.mkEnv "swe" artifacts {[ "ttl" := ANumber 1800 ]}.

(** A request body for a template the host does not have. *)
Definition dualRequest : PodHandler.AEnvHubEnv :=
  PodHandler.mkEnv "swe" artifacts {[ "podTemplate" := AString "DualContainer" ]}.

Definition autoscale : gmap string Any :=
  {[ "cpu" := AString "2"; "memory" := AString "4G";
     "resource" := AString "autoscale" ]}.

End Scenario.

(** ** Predicates of the statements *)

Section Predicates.
Context `{Imports}.
Import corev1.

(** The pods the scan returns: those whose TTL label is not empty and
    parses.  The clock does not occur. *)
Definition Listed (pod : Pod) : Prop :=
  labelAt pod AENV_TTL ≠ "" ∧ is_Some (ParseDuration (labelAt pod AENV_TTL)).

#[global] Instance Listed_dec pod : Decision (Listed pod).
Proof. unfold Listed. apply _. Defined.

(** The TTL label of a pod is absent or the empty string. *)
Definition TTLAbsentOrEmpty (pod : Pod) : Prop :=
  match Labels pod with
  | None => True
  | Some labels => labels !! AENV_TTL = None ∨ labels !! AENV_TTL = Some ""
  end.

(** Every variable of an [environmentVariables] entry is a string. *)
Definition StringValued (v : option Go.Any) : Prop :=
  match v with
  | Some (Go.AMap vars) => Forall (λ kv, ∃ s, kv.2 = Go.AString s) vars
  | _ => True
  end.

(** The values [encoding/json] decodes into an [interface{}]. *)
Fixpoint decodable (v : Go.Any) : bool :=
  match v with
  | Go.ANil | Go.ABool _ | Go.ANumber _ | Go.AString _ => true
  | Go.ASlice l => forallb decodable l
  | Go.AMap m => forallb (λ kv, decodable kv.2) m
  | Go.AStrSlice _ | Go.AStrMap _ => false
  end.

(** A request body that decodes: every entry of its deploy configuration
    is such a value. *)
Definition WellFormed (aenvHubEnv : PodHandler.AEnvHubEnv) : Prop :=
  map_Forall (λ _ v, decodable v = true) (PodHandler.DeployConfig aenvHubEnv).

End Predicates.


(** ** Further predicates *)

(** The name holds a slash. *)
Fixpoint hasSlash (s : string) : bool :=
  match s with
  | EmptyString => false
  | String c s' => Ascii.eqb c "/"%char || hasSlash s'
  end.

(** A byte a URL leaves as it is in a path: a letter, a digit, [-], [.],
    [_] or [~]. *)
Definition unreserved (c : ascii) : bool :=
  let n := N_of_ascii c in
  (((97 <=? n) && (n <=? 122)) || ((65 <=? n) && (n <=? 90))
   || ((48 <=? n) && (n <=? 57))
   || (n =? 45) || (n =? 46) || (n =? 95) || (n =? 126))%N.

(** A name of such bytes only: formatted into the URL of a request, it
    is the last part of the path the server reads, byte for byte. *)
Fixpoint pathSafe (s : string) : bool :=
  match s with
  | EmptyString => true
  | String c s' => unreserved c && pathSafe s'
  end.

(** The status codes the controller answers with. *)
Definition controllerStatuses : list Z :=
  [200; 201; 400; 401; 403; 404; 405; 409; 500].

(** ** The rest of the controller adapter *)

Module ScheduleClient.

Section Adapter.
Context {W : Type} (Do : Schedule.Request → W → option Schedule.Response * W).

(** [DeleteEnvInstance]: the error of [DeletePod], or an error of its own
    when the controller answers [false]. *)
Definition DeleteEnvInstance (id : string) (w : W) : option string * W :=
  match Schedule.DeletePod Do id w with
  | (inl err, w) => (Some err, w)
  | (inr success, w) =>
      if success then (None, w)
      else (Some ("failed to delete env instance with id: " +:+ id), w)
  end.

(** [ListEnvInstances] and [Warmup] send nothing. *)
Definition ListEnvInstances (envName : string) (w : W)
  : (string + list Schedule.EnvInstance) * W :=
  (inl "ListEnvInstances is not implemented", w).

Definition Warmup (w : W) : option string * W :=
  (Some "warmup is not implemented", w).

End Adapter.

End ScheduleClient.

(** Further concrete inputs. *)
Module Cases.
Import Go corev1.

(** A cache whose index cannot be read. *)
Definition brokenCache : PodCache.AEnvPodCache :=
  PodCache.mkCache (λ _, inl "index does not exist") (λ _, inl "index does not exist").

(** A server that answers every request with the listing of that cache. *)
Definition brokenListing (r : Schedule.Request) (w : unit)
  : option Schedule.Response * unit :=
  (Some (Controller.decodeReply
           (@PodHandler.listPod imports brokenCache "aenv" 0 (Schedule.query r))), w).

(** A host with legacy files only: the Linux and the terminal template. *)
Definition legacyHost : Host := {|
  ReadFile := λ name,
    if decide (name = "/home/admin/pod_template_linux/config.yaml") then Some "single"
    else if decide (name = "/home/admin/pod_template_terminal/config.yaml")
    then Some "dual"
    else None;
  Unmarshal := @Unmarshal Scenario.host;
  RandString := λ _, "abc123";
  podsCreate := λ pod, inr pod;
  podsGet := λ _, inl (k8s.StatusError 404 "not found");
  podsDelete := λ _, None;
|}.

(** A host whose configured blueprint for the terminal template is
    damaged, beside a legacy file that is not. *)
Definition corruptHost : Host := {|
  ReadFile := λ name,
    if decide (name = "/etc/aenv/pod-templates/Terminal.yaml") then Some "damaged"
    else @ReadFile legacyHost name;
  Unmarshal := @Unmarshal Scenario.host;
  RandString := λ _, "abc123";
  podsCreate := λ pod, inr pod;
  podsGet := λ _, inl (k8s.StatusError 404 "not found");
  podsDelete := λ _, None;
|}.

(** A host whose configured directory holds the default blueprint and no
    other, and that has no legacy file. *)
Definition primaryOnlyHost : Host := {|
  ReadFile := λ name,
    if decide (name = "/etc/aenv/pod-templates/singleContainer.yaml")
    then Some "single" else None;
  Unmarshal := @Unmarshal Scenario.host;
  RandString := λ _, "abc123";
  podsCreate := λ pod, inr pod;
  podsGet := λ _, inl (k8s.StatusError 404 "not found");
  podsDelete := λ _, None;
|}.

(** A connection to the handler of [Scenario.host]: every request is
    answered by [ServeHTTP], a panic of the handler sends nothing. *)
Definition connection (r : Schedule.Request) (w : unit)
  : option Schedule.Response * unit :=
  (match @Controller.ServeHTTP imports Scenario.host
           (Scenario.cache [Scenario.podA; Scenario.podB; Scenario.podC])
           "aenv" (2 * Scenario.hour) r None with
   | Ok reply => Some (Controller.decodeReply reply)
   | Panic _ => None
   end, w).

(** Requests for the terminal template and for a type no file is named
    after. *)
Definition terminalRequest : PodHandler.AEnvHubEnv :=
  PodHandler.mkEnv "swe" Scenario.artifacts {[ "podTemplate" := AString "Terminal" ]}.
Definition unknownRequest : PodHandler.AEnvHubEnv :=
  PodHandler.mkEnv "swe" Scenario.artifacts {[ "podTemplate" := AString "gpu" ]}.
Definition defaultRequest : PodHandler.AEnvHubEnv :=
  PodHandler.mkEnv "swe" Scenario.artifacts ∅.

End Cases.

Module Inputs.
Import Go corev1.

(** The deploy configuration of the comment of [createPod], with the
    marker added. *)
Definition documented : gmap string Any :=
  {[ "cpu" := AString "1C"; "memory" := AString "2G"; "os" := AString "linux";
     "resource" := AString "autoscale" ]}.

(** A request of the gateway with arguments and variables. *)
Definition withArguments : Gateway.CreateEnvInstanceRequest :=
  Gateway.mkRequest "swe@1.0.0" "" (Some [("MODE", "custom")])
    (Some ["--port"; "8080"]) "30m".

End Inputs.

(** The value of the first variable of a name, the one [MergePod]
    overrides. *)
Fixpoint firstValue (env : list corev1.EnvVar) (k : string) : option string :=
  match env with
  | [] => None
  | e :: rest =>
      if decide (corev1.Name e = k) then Some (corev1.Value e) else firstValue rest k
  end.

(** The memory of [MergePod], in MiB, is within its bounds; so is the
    ephemeral storage, in bytes. *)
Definition memoryInBounds (memory : Z) : Prop := 256 ≤ memory ≤ 8192.
Definition storageInBounds (ephemeralStorage : Z) : Prop :=
  1073741824 ≤ ephemeralStorage ≤ 53687091200.

(** How [MergePod] leaves the resources of a container [c'] that was
    [c]: a memory and a storage within the bounds are the request and
    the limit, those outside change nothing, and no other resource is
    touched. *)
Definition ResourcesMerged (memory ephemeralStorage : Z) (c c' : corev1.Container)
  : Prop :=
  let request r k := corev1.quantityAt (corev1.Requests (corev1.Resources r)) k in
  let limit r k := corev1.quantityAt (corev1.Limits (corev1.Resources r)) k in
  let memQty := resource.NewQuantity (memory * 1024 * 1024) resource.BinarySI in
  let storageQty := resource.NewQuantity ephemeralStorage resource.BinarySI in
  (memoryInBounds memory →
     request c' corev1.ResourceMemory = memQty ∧ limit c' corev1.ResourceMemory = memQty)
  ∧ (¬ memoryInBounds memory →
       request c' corev1.ResourceMemory = request c corev1.ResourceMemory
       ∧ limit c' corev1.ResourceMemory = limit c corev1.ResourceMemory)
  ∧ (storageInBounds ephemeralStorage →
       request c' corev1.ResourceEphemeralStorage = storageQty
       ∧ limit c' corev1.ResourceEphemeralStorage = storageQty)
  ∧ (¬ storageInBounds ephemeralStorage →
       request c' corev1.ResourceEphemeralStorage
       = request c corev1.ResourceEphemeralStorage
       ∧ limit c' corev1.ResourceEphemeralStorage
         = limit c corev1.ResourceEphemeralStorage)
  ∧ (∀ k, k ≠ corev1.ResourceMemory → k ≠ corev1.ResourceEphemeralStorage →
       request c' k = request c k ∧ limit c' k = limit c k).

(** ** [RandString] *)

Module Rand.
Import Go.

Definition letters : string := "abcdefghijklmnopqrstuvwxyz0123456789".

(** The loop of [RandString] from index [i] on, [count] bytes to go;
    [draw i] is what the [i]-th call of [r.Intn(len(letters))] returns. *)
Fixpoint fill (draw : nat → Z) (i count : nat) : Result string :=
  match count with
  | O => Ok ""
  | S count' =>
      if draw i <? 0 then Panic "index out of range"
      else
        match String.get (Z.to_nat (draw i)) letters with
        | None => Panic "index out of range"
        | Some c => rest ← fill draw (S i) count'; Ok (String c rest)
        end
  end.

(** [RandString(n)].  [make([]byte, n)] panics when [n] is negative or
    above [maxAlloc], the bound of the runtime on the bytes of one
    allocation (2^48 on linux/amd64). *)
Definition RandString (maxAlloc : Z) (draw : nat → Z) (n : Z) : Result string :=
  if (n <? 0) || (maxAlloc <? n) then Panic "makeslice: len out of range"
  else fill draw 0 (Z.to_nat n).

End Rand.

(** A lower-case letter or a digit. *)
Definition isLowerOrDigit (c : ascii) : bool :=
  let n := N_of_ascii c in
  (((97 <=? n) && (n <=? 122)) || ((48 <=? n) && (n <=? 57)))%N.

(** ** [model/aenvhub_env.go]: the status of an environment *)

Module EnvStatus.

Definition EnvStatusInit : Z := 0.
Definition EnvStatusPending : Z := 1.
Definition EnvStatusCreating : Z := 2.
Definition EnvStatusCreated : Z := 3.
Definition EnvStatusTesting : Z := 4.
Definition EnvStatusVerified : Z := 5.
Definition EnvStatusReady : Z := 6.
Definition EnvStatusReleased : Z := 7.
Definition EnvStatusFailed : Z := 8.

(** [EnvStatusByName]; [ToLower] is [strings.ToLower]. *)
Definition EnvStatusByName (ToLower : string → string) (name : string) : Z :=
  let lower := ToLower name in
  if decide (lower = "init") then EnvStatusInit
  else if decide (lower = "pending") then EnvStatusPending
  else if decide (lower = "creating") then EnvStatusCreating
  else if decide (lower = "created") then EnvStatusCreated
  else if decide (lower = "testing") then EnvStatusTesting
  else if decide (lower = "verified") then EnvStatusVerified
  else if decide (lower = "ready") then EnvStatusReady
  else if decide (lower = "released") then EnvStatusReleased
  else if decide (lower = "failed") then EnvStatusFailed
  else EnvStatusInit.

Definition statusNames : gmap Z string :=
  {[ EnvStatusInit := "Init"; EnvStatusPending := "Pending";
     EnvStatusCreating := "Creating"; EnvStatusCreated := "Created";
     EnvStatusTesting := "Testing"; EnvStatusVerified := "Verified";
     EnvStatusReady := "Ready"; EnvStatusReleased := "Released";
     EnvStatusFailed := "Failed" ]}.

(** [EnvStatusNameByStatus] *)
Definition EnvStatusNameByStatus (status : Z) : string :=
  match statusNames !! status with
  | Some name => name
  | None => "Init"
  end.

(** [strings.ToLower] on the bytes of ASCII: a capital letter becomes
    the small one, every other byte stays. *)
Definition lowerByte (c : ascii) : ascii :=
  let n := N_of_ascii c in
  if ((65 <=? n) && (n <=? 90))%N then ascii_of_N (n + 32) else c.

Fixpoint asciiLower (s : string) : string :=
  match s with
  | EmptyString => EmptyString
  | String c s' => String (lowerByte c) (asciiLower s')
  end.

End EnvStatus.

(** ** [truncateBody] of the instance client *)

Module EnvInstanceClient.

Definition maxLen : nat := 500.

(** [truncateBody]; [body[:maxLen]] is the first [maxLen] bytes. *)
Definition truncateBody (body : string) : string :=
  if (maxLen <? String.length body)%nat
  then String.substring 0 maxLen body +:+ "...(truncated)"
  else body.

End EnvInstanceClient.

(** ** The process of the controller: [StartHttpServer] and [http.Server] *)

Module Server.
Import Go corev1 PodTemplate PodHandler.

(** What [StartHttpServer] meets beside the files: the error of the
    cluster configuration, if any, that of the client set, whether the
    cache of [NewAEnvPodCache] synchronises, and the error of
    [ListenAndServe]. *)
Record Cluster := mkCluster {
  configError : option string;
  clientsetError : option string;
  cacheSynced : bool;
  listenError : option string;
}.

(** What [NewAEnvPodHandler] comes to when it does not panic: the
    process is ended by [klog.Fatalf], an error is returned, or the
    handler of a namespace. *)
Inductive Made :=
| Fatal (message : string)
| Failed (err : string)
| Handler (namespace : string).

(** The process: it has exited, or it serves requests for a namespace. *)
Inductive Process :=
| Exited (message : string)
| Serving (namespace : string).

Section Start.
Context `{Imports} `{Host}.

(** [NewAEnvPodHandler]: the namespace is read from the default
    template. *)
Definition NewAEnvPodHandler (cluster : Cluster) : Result Made :=
  match configError cluster with
  | Some err => Ok (Failed ("failed to create Kubernetes config: " +:+ err))
  | None =>
      match clientsetError cluster with
      | Some err => Ok (Failed ("failed to create k8s clientset, err is " +:+ err))
      | None =>
          namespace ← LoadNsFromPodTemplate SingleContainerTemplate;
          if cacheSynced cluster then Ok (Handler namespace)
          else Ok (Fatal "failed to wait for cache sync!")
      end
  end.

(** [StartHttpServer] runs in a goroutine of its own and nothing recovers
    a panic of [NewAEnvPodHandler]: the process exits, as it does on the
    error returned and on that of [ListenAndServe]. *)
Definition StartHttpServer (cluster : Cluster) : Process :=
  match NewAEnvPodHandler cluster with
  | Panic message => Exited message
  | Ok (Fatal message) => Exited message
  | Ok (Failed err) => Exited ("failed to create AENV Pod manager, err is " +:+ err)
  | Ok (Handler namespace) =>
      match listenError cluster with
      | Some err => Exited ("AEnv server failed to start, err is " +:+ err)
      | None => Serving namespace
      end
  end.

(** One request the mux hands to the handler.  [http.Server] calls
    [ServeHTTP] under a deferred [recover]: when the handler panics, the
    panic is logged, the connection is closed without a response, and the
    server goes on serving. *)
Definition serve (podCache : PodCache.AEnvPodCache) (now : Z) (process : Process)
  (r : Schedule.Request) (decoded : option AEnvHubEnv) : option Reply * Process :=
  match process with
  | Exited _ => (None, process)
  | Serving namespace =>
      match Controller.ServeHTTP podCache namespace now r decoded with
      | Ok reply => (Some reply, process)
      | Panic _ => (None, process)
      end
  end.

End Start.

End Server.

(** ** The scan of the cache, the clock read pod by pod *)

Module Timed.
Import corev1 PodCache.

Section ListExpired.
Context `{Imports}.

(** The body of the loop of [ListExpiredPods] for one item.  [clock k]
    is what the call number [k] of [time.Now()] returns, [reads] the
    number of calls so far: the clock is read once for every pod whose
    TTL parses, after the parse. *)
Definition scanPod (clock : nat → Z) (acc : list Pod * list LogEntry * nat)
  (pod : Pod) : list Pod * list LogEntry * nat :=
  let '(expired, log, reads) := acc in
  let ttlValue := labelAt pod AENV_TTL in
  if decide (ttlValue = "") then (expired, log, reads)
  else
    match ParseDuration ttlValue with
    | None => (expired, log ++ [WarnParseTTL ttlValue (PodName pod)], reads)
    | Some limited =>
        let createdAt := CreationTimestamp pod in
        let currentTime := clock reads in
        let log' :=
          if limited <? time.Sub currentTime createdAt
          then log ++ [InfoExpired (PodName pod) createdAt limited]
          else log in
        (expired ++ [pod], log', S reads)
    end.

(** [ListExpiredPods]: the pods returned and the log, or the error of
    the index. *)
Definition ListExpiredPods (c : AEnvPodCache) (clock : nat → Z) (namespace : string)
  : string + (list Pod * list LogEntry) :=
  match ByIndex c namespace with
  | inl err => inl err
  | inr items => inr (foldl (scanPod clock) ([], [], 0%nat) items).1
  end.

End ListExpired.

End Timed.

(** ** Reading the log of a scan *)

Section LogReading.
Context `{Imports}.
Import corev1 PodCache.

(** The comparison of [ListExpiredPods]: the age of the pod at [now]
    exceeds its TTL. *)
Definition Elapsed (now : Z) (pod : Pod) : Prop :=
  ∃ limited, ParseDuration (labelAt pod AENV_TTL) = Some limited
             ∧ limited < time.Sub now (CreationTimestamp pod).

#[global] Instance Elapsed_dec now pod : Decision (Elapsed now pod).
Proof.
  unfold Elapsed. destruct (ParseDuration (labelAt pod AENV_TTL)) as [limited|].
  - destruct (decide (limited < time.Sub now (CreationTimestamp pod))) as [Hlt|Hge].
    + left. by exists limited.
    + right. intros (l & Heq & Hlt). by injection Heq as <-.
  - right. by intros (l & Heq & _).
Defined.

(** The names of the pods of a list whose age exceeds their TTL, each
    pod at a reading of its own: the first at the reading number
    [first], the next at the following one. *)
Fixpoint elapsedAt (clock : nat → Z) (first : nat) (pods : list Pod) : list string :=
  match pods with
  | [] => []
  | pod :: pods' =>
      (if decide (Elapsed (clock first) pod) then [PodName pod] else [])
      ++ elapsedAt clock (S first) pods'
  end.

(** The pod names of the lines "Instance ... has expired" of a log. *)
Definition announced (log : list LogEntry) : list string :=
  omap (λ entry, match entry with
                 | InfoExpired podName _ _ => Some podName
                 | WarnParseTTL _ _ => None
                 end) log.

(** The pod names of the lines "Failed to parse ttl value" of a log. *)
Definition warned (log : list LogEntry) : list string :=
  omap (λ entry, match entry with
                 | WarnParseTTL _ podName => Some podName
                 | InfoExpired _ _ _ => None
                 end) log.

(** A TTL label that is not empty and does not parse. *)
Definition Unparsable (pod : Pod) : Prop :=
  labelAt pod AENV_TTL ≠ "" ∧ ParseDuration (labelAt pod AENV_TTL) = None.

#[global] Instance Unparsable_dec pod : Decision (Unparsable pod).
Proof. unfold Unparsable. apply _. Defined.

End LogReading.
(** * Properties *)

(** ** The library models on the strings used below *)

Example ParseDuration_1h : time.ParseDuration "1h" = Some 3600000000000.
Proof. vm_compute. reflexivity. Qed.

Example ParseDuration_1h30m : time.ParseDuration "1h30m" = Some 5400000000000.
Proof. vm_compute. reflexivity. Qed.

Example ParseDuration_frac : time.ParseDuration "1.5s" = Some 1500000000.
Proof. vm_compute. reflexivity. Qed.

Example ParseDuration_bare : time.ParseDuration "30" = None.
Proof. vm_compute. reflexivity. Qed.

Example ParseDuration_empty : time.ParseDuration "" = None.
Proof. vm_compute. reflexivity. Qed.

Example ParseDuration_word : time.ParseDuration "forever" = None.
Proof. vm_compute. reflexivity. Qed.

Example ParseQuantity_2 :
  resource.ParseQuantity "2" = Some (resource.NewQuantity 2 resource.DecimalSI).
Proof. vm_compute. reflexivity. Qed.

Example ParseQuantity_500m :
  resource.MilliValue <$> resource.ParseQuantity "500m" = Some 500.
Proof. vm_compute. reflexivity. Qed.

Example ParseQuantity_4G :
  resource.ParseQuantity "4G"
  = Some (resource.NewQuantity 4000000000 resource.DecimalSI).
Proof. vm_compute. reflexivity. Qed.

Example ParseQuantity_4Gi :
  resource.ParseQuantity "4Gi"
  = Some (resource.NewQuantity 4294967296 resource.BinarySI).
Proof. vm_compute. reflexivity. Qed.

Example ParseQuantity_1C : resource.ParseQuantity "1C" = None.
Proof. vm_compute. reflexivity. Qed.

(** ** The scan of the cache *)

Section ListExpiredFacts.
Context `{Imports}.
Import corev1 PodCache.

Lemma scanPod_expired now acc pod :
  (scanPod now acc pod).1 = acc.1 ++ (if decide (Listed pod) then [pod] else []).
Proof.
  destruct acc as [expired log]. unfold scanPod. simpl.
  destruct (decide (Listed pod)) as [[Hfull [limited Hparse]]|Hnot].
  - rewrite decide_False by done. by rewrite Hparse.
  - destruct (decide (labelAt pod AENV_TTL = "")) as [Hempty|Hfull];
      [simpl; by rewrite app_nil_r|].
    destruct (ParseDuration (labelAt pod AENV_TTL)) as [limited|] eqn:Hparse;
      [|simpl; by rewrite app_nil_r].
    exfalso. apply Hnot. split; [done|]. rewrite Hparse. by eexists.
Qed.

Lemma scan_expired now items acc :
  (foldl (scanPod now) acc items).1 = acc.1 ++ filter Listed items.
Proof.
  revert acc. induction items as [|pod items IH]; intros acc; simpl.
  - by rewrite app_nil_r.
  - rewrite IH, scanPod_expired, filter_cons.
    destruct (decide (Listed pod)); simpl; by rewrite <- ?app_assoc, ?app_nil_r.
Qed.

(** The log only grows along the scan. *)
Lemma scan_log_mono now items acc entry :
  entry ∈ acc.2 → entry ∈ (foldl (scanPod now) acc items).2.
Proof.
  revert acc. induction items as [|pod items IH]; intros acc Hin; simpl; [done|].
  apply IH. destruct acc as [expired log]. unfold scanPod. simpl in *.
  destruct (decide _); [done|].
  destruct (ParseDuration _); simpl.
  - destruct (_ <? _); [apply elem_of_app; by left | done].
  - apply elem_of_app; by left.
Qed.

Lemma ListExpiredPods_listed c now ns items :
  ByIndex c ns = inr items →
  ∃ log, ListExpiredPods c now ns = inr (filter Listed items, log).
Proof.
  intros Hidx. unfold ListExpiredPods. rewrite Hidx.
  pose proof (scan_expired now items ([], [])) as Hscan.
  destruct (foldl (scanPod now) ([], []) items) as [expired log].
  simpl in Hscan. subst expired. by eexists.
Qed.

Lemma ListExpiredPods_inv c now ns expired log :
  ListExpiredPods c now ns = inr (expired, log) →
  ∃ items, ByIndex c ns = inr items ∧ expired = filter Listed items.
Proof.
  unfold ListExpiredPods. destruct (ByIndex c ns) as [err|items] eqn:Hidx; [done|].
  intros Heq. exists items. split; [done|].
  destruct (ListExpiredPods_listed c now ns items Hidx) as [log' Hl].
  unfold ListExpiredPods in Hl. rewrite Hidx in Hl. congruence.
Qed.

(** The scan fails only when the index does. *)
Lemma ListExpiredPods_error c now ns err :
  ListExpiredPods c now ns = inl err ↔ ByIndex c ns = inl err.
Proof.
  unfold ListExpiredPods. destruct (ByIndex c ns); split; congruence.
Qed.

End ListExpiredFacts.

Section ListExpiredClaims.
Import corev1 PodCache.

(** The result of the scan is the same at every reading of the clock. *)
Lemma ListExpiredPods_clock_free `{Imports} c ns now now' expired log :
  ListExpiredPods c now ns = inr (expired, log) →
  ∃ log', ListExpiredPods c now' ns = inr (expired, log').
Proof.
  intros Hscan. apply ListExpiredPods_inv in Hscan as (items & Hidx & ->).
  by apply ListExpiredPods_listed.
Qed.

(** C1, on the code: a pod whose TTL label parses is returned by
    [ListExpiredPods] whether or not its TTL has elapsed.  The pod [b],
    created one minute before the scan with a TTL of one hour, is in
    the result although [now - createdAt > ttl] is false. *)
Theorem ListExpiredPods_returns_unexpired_pod :
  let now := 2 * Scenario.hour in
  time.ParseDuration (labelAt Scenario.podB "aenv-ttl") = Some Scenario.hour
  ∧ ¬ (now - CreationTimestamp Scenario.podB > Scenario.hour)
  ∧ @ListExpiredPods imports (Scenario.cache [Scenario.podB]) now "aenv"
    = inr ([Scenario.podB], []).
Proof.
  split; [by vm_compute|]. split; [by vm_compute|]. by vm_compute.
Qed.

(** C7: a pod whose TTL label does not parse is never in the result of
    [ListExpiredPods]; the scan returns no error for it and returns for
    the other pods what it returns without it; a label that is not
    empty leaves a warning in the log. *)
Theorem unparsable_ttl_is_skipped `{Imports} c now ns before pod after :
  ByIndex c ns = inr (before ++ pod :: after) →
  ParseDuration (labelAt pod AENV_TTL) = None →
  ∃ expired log,
    ListExpiredPods c now ns = inr (expired, log)
    ∧ (pod ∉ expired)
    ∧ (∀ c', ByIndex c' ns = inr (before ++ after) →
         ∃ log', ListExpiredPods c' now ns = inr (expired, log'))
    ∧ (labelAt pod AENV_TTL ≠ "" →
         WarnParseTTL (labelAt pod AENV_TTL) (PodName pod) ∈ log).
Proof.
  intros Hidx Hparse.
  assert (Hnot : ¬ Listed pod).
  { intros [_ [d Hd]]. congruence. }
  assert (Hsame : filter Listed (before ++ pod :: after)
                  = filter Listed (before ++ after)).
  { rewrite !filter_app, filter_cons. by rewrite decide_False. }
  unfold ListExpiredPods. rewrite Hidx.
  pose proof (scan_expired now (before ++ pod :: after) ([], [])) as Hscan.
  destruct (foldl (scanPod now) ([], []) (before ++ pod :: after))
    as [expired log] eqn:Hfold.
  simpl in Hscan. subst expired. exists (filter Listed (before ++ pod :: after)), log.
  split; [done|]. split; [|split].
  - intros Hin. apply list_elem_of_filter in Hin as [Hl _]. done.
  - intros c' Hidx'. rewrite Hsame. by apply ListExpiredPods_listed.
  - intros Hfull. rewrite foldl_app in Hfold. simpl in Hfold.
    replace log with (foldl (scanPod now)
      (scanPod now (foldl (scanPod now) ([], []) before) pod) after).2
      by (by rewrite Hfold).
    apply scan_log_mono.
    destruct (foldl (scanPod now) ([], []) before) as [e l].
    unfold scanPod. rewrite decide_False by done. rewrite Hparse. simpl.
    apply elem_of_app. right. by apply list_elem_of_singleton.
Qed.

Lemma unparsable_ttl_is_skipped_witness :
  ∃ expired log,
    @ListExpiredPods imports
      (Scenario.cache [Scenario.podC; Scenario.podBad; Scenario.podB])
      (2 * Scenario.hour) "aenv" = inr (expired, log)
    ∧ (Scenario.podBad ∉ expired)
    ∧ (∀ c', ByIndex c' "aenv" = inr ([Scenario.podC] ++ [Scenario.podB]) →
         ∃ log', @ListExpiredPods imports c' (2 * Scenario.hour) "aenv"
                 = inr (expired, log'))
    ∧ (labelAt Scenario.podBad "aenv-ttl" ≠ "" →
         WarnParseTTL (labelAt Scenario.podBad "aenv-ttl")
           (PodName Scenario.podBad) ∈ log).
Proof.
  apply (@unparsable_ttl_is_skipped imports
           (Scenario.cache [Scenario.podC; Scenario.podBad; Scenario.podB])
           (2 * Scenario.hour) "aenv" [Scenario.podC] Scenario.podBad
           [Scenario.podB]).
  - reflexivity.
  - vm_compute. reflexivity.
Defined.

End ListExpiredClaims.

(** ** Calls that may panic *)

Lemma bind_Ok {A B} (r : Go.Result A) (k : A → Go.Result B) b :
  r ≫= k = Go.Ok b ↔ ∃ a, r = Go.Ok a ∧ k a = Go.Ok b.
Proof.
  destruct r as [a|msg]; simpl; split.
  - intros Hk. by exists a.
  - by intros (a' & [= <-] & Hk).
  - done.
  - by intros (a' & [=] & _).
Qed.

Lemma bind_Panic {A B} (r : Go.Result A) (k : A → Go.Result B) msg :
  r = Go.Panic msg → r ≫= k = Go.Panic msg.
Proof. by intros ->. Qed.

Lemma assertString_Ok what v s :
  Go.assertString what v = Go.Ok s ↔ v = Some (Go.AString s).
Proof.
  unfold Go.assertString. split.
  - destruct v as [[]|]; congruence.
  - by intros ->.
Qed.

(** Take apart a hypothesis saying that a sequence of calls returned. *)
Ltac bind_inv H :=
  let a := fresh "a" in
  let Ha := fresh "Ha" in
  apply bind_Ok in H as (a & Ha & H).

(** ** The TTL entry from the gateway to the label *)

Section TTLPath.
Context `{Imports} `{Host}.
Import Go corev1.

Lemma TTLAbsentOrEmpty_labelAt pod :
  TTLAbsentOrEmpty pod ↔ labelAt pod AENV_TTL = "".
Proof.
  unfold TTLAbsentOrEmpty, labelAt. destruct (Labels pod) as [labels|]; [|done].
  destruct (labels !! AENV_TTL) as [v|]; simpl; split; try done.
  - intros [?|[=]]; done.
  - intros ->. by right.
  - by left.
Qed.

Lemma put_Ok m k v m' :
  Gateway.put m k v = Ok m' → ∃ d, m = Some d ∧ m' = Some (<[k := v]> d).
Proof. destruct m as [d|]; simpl; [|done]. intros [= <-]. by exists d. Qed.

(** The gateway stores a [ttl] entry in every deploy configuration it
    sends, the string of the request, empty or not. *)
Lemma prepareDeployConfig_ttl req deployConfig sent :
  Gateway.prepareDeployConfig req deployConfig = Ok sent →
  ∃ d, sent = Some d ∧ d !! "ttl" = Some (AString (Gateway.TTL req)).
Proof.
  unfold Gateway.prepareDeployConfig. intros Hp.
  bind_inv Hp. bind_inv Hp. apply put_Ok in Hp as (d & -> & ->).
  eexists. split; [done|]. by rewrite lookup_insert_eq.
Qed.

Lemma posted_ttl req backendEnv posted :
  Gateway.CreateEnvInstance_posted req backendEnv = Ok posted →
  PodHandler.DeployConfig posted !! "ttl" = Some (AString (Gateway.TTL req)).
Proof.
  unfold Gateway.CreateEnvInstance_posted. intros Hp. bind_inv Hp.
  apply prepareDeployConfig_ttl in Ha as (d & -> & Hd).
  injection Hp as <-. unfold Gateway.posted. simpl.
  by rewrite lookup_fmap, Hd.
Qed.

(** [createPod] turns a string [ttl] entry into the label. *)
Lemma renderPod_ttl aenvHubEnv ttl pod :
  PodHandler.DeployConfig aenvHubEnv !! "ttl" = Some (AString ttl) →
  PodHandler.renderPod aenvHubEnv = Ok pod →
  ∃ labels, Labels pod = Some labels ∧ labels !! AENV_TTL = Some ttl.
Proof.
  unfold PodHandler.renderPod. intros Httl Hr.
  bind_inv Hr. bind_inv Hr. destruct (Containers a0); [done|].
  rewrite Httl in Hr. simpl in Hr. injection Hr as <-. simpl.
  eexists. split; [done|]. by rewrite lookup_insert_eq.
Qed.

End TTLPath.

Section EmptyTTL.
Import Go corev1 PodCache.

(** C10: a pod whose TTL label is absent or empty is in no result of
    [ListExpiredPods]; the gateway stores a [ttl] entry for every
    request, the string it was given; and for a request with an empty
    [ttl] the pod the controller submits carries the empty label, so that
    no cached pod with these labels is ever returned for reclamation. *)
Theorem empty_ttl_is_never_listed `{Imports} `{Host} c now ns expired log :
  ListExpiredPods c now ns = inr (expired, log) →
  (∀ pod, TTLAbsentOrEmpty pod → pod ∉ expired)
  ∧ (∀ req backendEnv posted,
       Gateway.CreateEnvInstance_posted req backendEnv = Ok posted →
       PodHandler.DeployConfig posted !! "ttl" = Some (AString (Gateway.TTL req)))
  ∧ (∀ req backendEnv posted pod cached,
       Gateway.TTL req = "" →
       Gateway.CreateEnvInstance_posted req backendEnv = Ok posted →
       PodHandler.renderPod posted = Ok pod →
       Labels cached = Labels pod →
       (∃ labels, Labels pod = Some labels ∧ labels !! AENV_TTL = Some "")
       ∧ cached ∉ expired).
Proof.
  intros Hscan. apply ListExpiredPods_inv in Hscan as (items & Hidx & ->).
  assert (Hskip : ∀ pod, TTLAbsentOrEmpty pod → pod ∉ filter Listed items).
  { intros pod Hempty Hin. apply list_elem_of_filter in Hin as [[Hfull _] _].
    by apply TTLAbsentOrEmpty_labelAt in Hempty. }
  split; [done|]. split.
  - intros req backendEnv posted. apply posted_ttl.
  - intros req backendEnv posted pod cached Hreq Hposted Hrender Hlabels.
    apply posted_ttl in Hposted. rewrite Hreq in Hposted.
    destruct (renderPod_ttl _ _ _ Hposted Hrender) as (labels & Hl & Httl).
    split; [by exists labels|].
    apply Hskip. unfold TTLAbsentOrEmpty. rewrite Hlabels, Hl. by right.
Qed.

Lemma empty_ttl_is_never_listed_witness :
  (Scenario.podNone ∉ [Scenario.podC])
  ∧ (Scenario.podEmpty ∉ [Scenario.podC])
  ∧ (∃ posted pod,
       Gateway.CreateEnvInstance_posted (Scenario.request "") (Scenario.backendEnv ∅)
       = Ok posted
       ∧ @PodHandler.renderPod imports Scenario.host posted = Ok pod
       ∧ PodHandler.DeployConfig posted !! "ttl" = Some (AString "")
       ∧ labelAt pod "aenv-ttl" = ""
       ∧ pod ∉ [Scenario.podC]).
Proof.
  destruct (@empty_ttl_is_never_listed imports Scenario.host
              (Scenario.cache [Scenario.podNone; Scenario.podEmpty; Scenario.podC])
              (2 * Scenario.hour) "aenv" [Scenario.podC]
              [InfoExpired "c" 0 (60 * 10 ^ 9)])
    as (Hskip & Hstore & Hpath).
  - vm_compute. reflexivity.
  - split; [apply Hskip; exact I|].
    split; [apply Hskip; right; vm_compute; reflexivity|].
    destruct (Gateway.CreateEnvInstance_posted (Scenario.request "")
                (Scenario.backendEnv ∅)) as [posted|msg] eqn:Hposted;
      [|vm_compute in Hposted; discriminate].
    destruct (@PodHandler.renderPod imports Scenario.host posted) as [pod|msg]
      eqn:Hrender.
    + exists posted, pod.
      destruct (Hpath (Scenario.request "") (Scenario.backendEnv ∅) posted pod pod
                  eq_refl Hposted Hrender eq_refl) as ((labels & Hl & Httl) & Hout).
      split; [done|]. split; [done|].
      split; [exact (Hstore _ _ _ Hposted)|].
      split; [|done].
      unfold labelAt. rewrite Hl. simpl. change (@AENV_TTL imports) with "aenv-ttl" in Httl.
      by rewrite Httl.
    + exfalso. vm_compute in Hposted. injection Hposted as <-.
      vm_compute in Hrender. discriminate.
Defined.

End EmptyTTL.

(** ** The cleanup pass *)

Section CleanupFacts.
Context {W : Type} (Do : Schedule.Request → W → option Schedule.Response * W).
Import Schedule.

(** The pass tries to delete the listed instances that are not
    terminated, each once and in the order of the list, whatever the
    deletions answer. *)
Lemma cleanupLoop_attempted instances deletedCount attempted w :
  (cleanupLoop Do instances deletedCount attempted w).1.2
  = attempted ++ (ID <$> filter (λ i, Status i ≠ "Terminated") instances).
Proof.
  revert deletedCount attempted w.
  induction instances as [|instance rest IH]; intros n att w; simpl.
  - by rewrite app_nil_r.
  - rewrite filter_cons.
    destruct (decide (Status instance = "Terminated")) as [Ht|Ht].
    + rewrite decide_False by (intros Hn; done). apply IH.
    + rewrite decide_True by done.
      destruct (DeletePod Do (ID instance) w) as [[err|deleted] w'];
        rewrite IH; simpl; by rewrite <- app_assoc.
Qed.

(** The count never exceeds the number of deletions tried. *)
Lemma cleanupLoop_count instances deletedCount attempted w :
  let '(n, att, _) := cleanupLoop Do instances deletedCount attempted w in
  deletedCount ≤ n ≤ deletedCount + Z.of_nat (length att) - Z.of_nat (length attempted).
Proof.
  revert deletedCount attempted w.
  induction instances as [|instance rest IH]; intros n att w; simpl; [lia|].
  destruct (decide (Status instance = "Terminated")); [apply IH|].
  destruct (DeletePod Do (ID instance) w) as [[err|deleted] w'].
  - specialize (IH n (att ++ [ID instance]) w').
    destruct (cleanupLoop Do rest n (att ++ [ID instance]) w') as [[n' att'] w''].
    rewrite length_app in IH. simpl in IH. lia.
  - specialize (IH (if deleted then n + 1 else n) (att ++ [ID instance]) w').
    destruct (cleanupLoop Do rest _ (att ++ [ID instance]) w') as [[n' att'] w''].
    rewrite length_app in IH. simpl in IH. destruct deleted; lia.
Qed.

(** When no deletion succeeds the count stays where it was. *)
Lemma cleanupLoop_all_fail instances deletedCount attempted w :
  (∀ id w', (DeletePod Do id w').1 ≠ inr true) →
  (cleanupLoop Do instances deletedCount attempted w).1.1 = deletedCount.
Proof.
  intros Hfail. revert deletedCount attempted w.
  induction instances as [|instance rest IH]; intros n att w; simpl; [done|].
  destruct (decide (Status instance = "Terminated")); [apply IH|].
  pose proof (Hfail (ID instance) w) as Hf.
  destruct (DeletePod Do (ID instance) w) as [[err|[]] w']; simpl in Hf;
    [apply IH | done | apply IH].
Qed.

(** Once the instances are listed, the pass returns no error: a
    deletion that fails is passed over. *)
Lemma Cleanup_returns_nil w instances w' :
  FilterPods Do w = (inr instances, w') →
  returned (Cleanup Do w).1 = None
  ∧ attempted (Cleanup Do w).1
    = ID <$> filter (λ i, Status i ≠ "Terminated") instances.
Proof.
  intros Hf. unfold Cleanup. rewrite Hf. destruct instances as [|i rest]; [done|].
  pose proof (cleanupLoop_attempted (i :: rest) 0 [] w') as Hatt.
  destruct (cleanupLoop Do (i :: rest) 0 [] w') as [[n att] w''].
  simpl in *. by subst att.
Qed.

End CleanupFacts.

(** ** The controller behind the adapter *)

Section EndToEnd.
Context `{Imports}.
Import Go corev1.

Lemma ServeHTTP_list `{Host} podCache ns now q :
  Controller.ServeHTTP podCache ns now (Schedule.mkRequest "GET" "/pods" q) None
  = Ok (PodHandler.listPod podCache ns now q).
Proof. reflexivity. Qed.

Lemma filter_fmap_comm {A B} (f : A → B) (P : B → Prop) `{∀ b, Decision (P b)}
  (l : list A) :
  filter P (f <$> l) = f <$> filter (λ a, P (f a)) l.
Proof.
  induction l as [|a l IH]; [done|]. rewrite fmap_cons, !filter_cons.
  destruct (decide (P (f a))); by rewrite IH.
Qed.

(** What the adapter is told when it asks for the expired pods: every pod
    of the namespace whose TTL label parses, at any reading of the clock. *)
Lemma Controller_FilterPods st :
  Schedule.FilterPods Controller.Do st
  = (inr ((λ pod, Schedule.mkInstance (PodName pod) (Phase pod) ""
                    (labelAt pod AENV_TTL))
          <$> filter Listed
                (filter (λ p, Namespace p = Controller.namespace st)
                        (Controller.pods st))), st).
Proof.
  unfold Schedule.FilterPods, Controller.Do. rewrite ServeHTTP_list.
  unfold PodHandler.listPod.
  destruct (decide ("expired" = "expired")) as [_|Hne]; [|done].
  destruct (ListExpiredPods_listed (Controller.cacheOf st) (Controller.clock st)
              (Controller.namespace st) _ eq_refl) as [log ->].
  unfold Controller.removePod, Controller.decodeReply. simpl.
  destruct (filter Listed _) as [|pod listed]; [done|].
  simpl. by rewrite <- list_fmap_compose.
Qed.

(** So a pass of [Cleanup] against the controller tries to delete every
    pod of the namespace that has a TTL label that parses and is not
    terminated, expired or not, and returns no error. *)
Lemma Controller_Cleanup st :
  let pass := (Schedule.Cleanup Controller.Do st).1 in
  Schedule.returned pass = None
  ∧ Schedule.attempted pass
    = PodName <$> filter (λ p, Phase p ≠ "Terminated")
                    (filter Listed
                       (filter (λ p, Namespace p = Controller.namespace st)
                               (Controller.pods st))).
Proof.
  destruct (Cleanup_returns_nil Controller.Do st _ st (Controller_FilterPods st))
    as [Hnil Hatt].
  split; [done|]. simpl. rewrite Hatt, filter_fmap_comm.
  by rewrite <- list_fmap_compose.
Qed.

End EndToEnd.

(** C2, on the code: in a pass over [a] (terminated), [b] (running, TTL
    not elapsed) and [c] (running, TTL elapsed, deletion failing) the
    controller lists all three as expired, and [Cleanup] tries to delete
    [b] as well as [c]; the deletion of [b] succeeds, so the count it
    reports is 1.  The pass returns no error. *)
Theorem Cleanup_deletes_unexpired_instance :
  let now := Controller.clock Scenario.controller in
  let pass := (Schedule.Cleanup (@Controller.Do imports) Scenario.controller).1 in
  ¬ (now - corev1.CreationTimestamp Scenario.podB > Scenario.hour)
  ∧ Schedule.attempted pass = ["b"; "c"]
  ∧ Schedule.deletedCount pass = 1
  ∧ Schedule.returned pass = None.
Proof. by vm_compute. Qed.

(** ** The merge of a deploy configuration into a container *)

Section ApplyConfigFacts.
Context `{Imports}.
Import Go corev1 PodHandler.

(** The loop of [applyConfig] appends: the names already in the list
    stay, the names of the definition follow, in the order of the loop. *)
Lemma appendEnvironmentVariables_names env vars env' :
  appendEnvironmentVariables env vars = Ok env' →
  Name <$> env' = (Name <$> env) ++ vars.*1.
Proof.
  revert env. induction vars as [|[k v] vars IH]; intros env; simpl.
  - intros [= <-]. by rewrite app_nil_r.
  - intros Hk. bind_inv Hk. apply IH in Hk. rewrite Hk, fmap_app. simpl.
    by rewrite <- app_assoc.
Qed.

Lemma appendEnvironmentVariables_total env vars :
  Forall (λ kv, ∃ s, kv.2 = AString s) vars →
  ∃ env', appendEnvironmentVariables env vars = Ok env'.
Proof.
  intros Hall. revert env. induction Hall as [|[k v] vars [s Hs] _ IH]; intros env.
  - by eexists.
  - simpl in *. subst v. simpl. apply IH.
Qed.

(** A name that the template already has and the definition sets again
    is twice in the list afterwards. *)
Lemma appendEnvironmentVariables_duplicate env vars env' k :
  k ∈ Name <$> env → k ∈ vars.*1 →
  appendEnvironmentVariables env vars = Ok env' →
  ¬ NoDup (Name <$> env').
Proof.
  intros Hold Hnew Happ Hnodup.
  rewrite (appendEnvironmentVariables_names _ _ _ Happ) in Hnodup.
  apply NoDup_app in Hnodup as (_ & Hdisjoint & _). by apply (Hdisjoint k).
Qed.

Lemma Cmp_zero q y : resource.Cmp q y = 0 ↔ resource.nano q = resource.nano y.
Proof.
  unfold resource.Cmp.
  destruct (resource.nano q ?= resource.nano y) eqn:Hc; split; try done.
  - intros _. by apply Z.compare_eq.
  - intros Heq. apply Z.compare_eq_iff in Heq. congruence.
  - intros Heq. apply Z.compare_eq_iff in Heq. congruence.
Qed.

(** On a map that exists, [reset] returns; the entry then has the value
    expected and the other entries are as before. *)
Lemma reset_Some l k expect :
  ∃ l', reset (Some l) k expect = Ok (Some l')
        ∧ resource.nano (quantityAt (Some l') k) = resource.nano expect
        ∧ ∀ k', k' ≠ k → quantityAt (Some l') k' = quantityAt (Some l) k'.
Proof.
  unfold reset. destruct (decide _) as [Heq|Hne].
  - exists l. split; [done|]. split; [by apply Cmp_zero|done].
  - exists (<[k := expect]> l). split; [done|]. unfold quantityAt. split.
    + by rewrite lookup_insert_eq.
    + intros k' Hk'. by rewrite lookup_insert_ne.
Qed.

(** Without the marker the resources of the container are not touched. *)
Lemma applyConfig_not_autoscale configs container container' :
  configs !! "resource" ≠ Some (AString "autoscale") →
  applyConfig configs container = Ok container' →
  Resources container' = Resources container.
Proof.
  intros Hres. unfold applyConfig. intros Happ. bind_inv Happ.
  assert (Hauto : isAutoscale (configs !! "resource") = false).
  { unfold isAutoscale. destruct (configs !! "resource") as [[]|]; try done.
    apply bool_decide_eq_false. congruence. }
  rewrite Hauto in Happ. simpl in Happ. injection Happ as <-.
  by destruct (configs !! "arguments") as [[]|].
Qed.

(** Without the marker, and with variables that are strings, the
    merge returns. *)
Lemma applyConfig_returns configs container :
  configs !! "resource" ≠ Some (AString "autoscale") →
  StringValued (configs !! "environmentVariables") →
  ∃ container', applyConfig configs container = Ok container'.
Proof.
  intros Hres Hvars. unfold applyConfig.
  assert (∃ env', match configs !! "environmentVariables" with
                  | Some (AMap vars) => appendEnvironmentVariables (Env container) vars
                  | _ => Ok (Env container)
                  end = Ok env') as [env' ->].
  { unfold StringValued in Hvars.
    destruct (configs !! "environmentVariables") as [[]|]; try by eexists.
    by apply appendEnvironmentVariables_total. }
  assert (Hauto : isAutoscale (configs !! "resource") = false).
  { unfold isAutoscale. destruct (configs !! "resource") as [[]|]; try done.
    apply bool_decide_eq_false. congruence. }
  cbn. rewrite Hauto. by eexists.
Qed.

(** [applyConfig] leaves the image of the container alone. *)
Lemma applyConfig_Image configs container container' :
  applyConfig configs container = Ok container' →
  Image container' = Image container.
Proof.
  unfold applyConfig. intros Happ. bind_inv Happ.
  set (c1 := match configs !! "arguments" with
             | Some (AStrSlice arguments) => _ | _ => _ end) in Happ.
  assert (Hc1 : Image c1 = Image container).
  { subst c1. by destruct (configs !! "arguments") as [[]|]. }
  destruct (negb _); [by injection Happ as <-|].
  bind_inv Happ. bind_inv Happ.
  destruct (ParseQuantity a0); [|by injection Happ as <-].
  destruct (ParseQuantity a1); [|by injection Happ as <-].
  do 4 bind_inv Happ. by injection Happ as <-.
Qed.

End ApplyConfigFacts.

Section AutoscaleClaims.
Import Go corev1 PodHandler.

(** C3, as stated, fails on the memory: merged into the container of the
    repository's own test (one core, one gibibyte), ["4G"] gives four
    thousand million bytes, a decimal quantity, not four gibibytes. *)
Lemma autoscale_memory_is_not_gibibytes :
  ¬ (∀ configs container container',
       configs !! "cpu" = Some (AString "2") →
       configs !! "memory" = Some (AString "4G") →
       configs !! "resource" = Some (AString "autoscale") →
       @applyConfig imports configs container = Ok container' →
       quantityAt (Requests (Resources container')) ResourceMemory
       = resource.NewQuantity (4 * 2 ^ 30) resource.BinarySI
       ∧ quantityAt (Limits (Resources container')) ResourceMemory
         = resource.NewQuantity (4 * 2 ^ 30) resource.BinarySI).
Proof.
  intros Hclaim.
  destruct (@applyConfig imports Scenario.autoscale Scenario.mainContainer)
    as [container'|msg] eqn:Happ; [|vm_compute in Happ; discriminate].
  destruct (Hclaim Scenario.autoscale Scenario.mainContainer container'
              eq_refl eq_refl eq_refl Happ) as [Hreq _].
  vm_compute in Happ. injection Happ as <-. vm_compute in Hreq. discriminate.
Qed.

(** C3, amended: with [cpu="2"], [memory="4G"] and [resource="autoscale"],
    on a container that has a map of requests and a map of limits (and
    string-valued variables, so that the merge returns), the CPU request
    and limit are 2000 millicores and the memory request and limit are
    4,000,000,000 bytes; and when [resource] is not ["autoscale"] the
    merge leaves the requests and limits as they were, whatever [cpu]
    and [memory] say, and it returns when the variables are strings. *)
Theorem autoscale_sets_cpu_and_decimal_memory :
  (∀ configs container requests limits,
     configs !! "cpu" = Some (AString "2") →
     configs !! "memory" = Some (AString "4G") →
     configs !! "resource" = Some (AString "autoscale") →
     StringValued (configs !! "environmentVariables") →
     Requests (Resources container) = Some requests →
     Limits (Resources container) = Some limits →
     ∃ container',
       @applyConfig imports configs container = Ok container'
       ∧ resource.MilliValue (quantityAt (Requests (Resources container')) ResourceCPU)
         = 2000
       ∧ resource.MilliValue (quantityAt (Limits (Resources container')) ResourceCPU)
         = 2000
       ∧ resource.Value (quantityAt (Requests (Resources container')) ResourceMemory)
         = 4000000000
       ∧ resource.Value (quantityAt (Limits (Resources container')) ResourceMemory)
         = 4000000000)
  ∧ (∀ (I : Imports) configs container,
       configs !! "resource" ≠ Some (AString "autoscale") →
       (∀ container', @applyConfig I configs container = Ok container' →
                      Resources container' = Resources container)
       ∧ (StringValued (configs !! "environmentVariables") →
            ∃ container', @applyConfig I configs container = Ok container')).
Proof.
  split;
    [|intros I configs container Hres; split;
      [intros container'; by apply applyConfig_not_autoscale
      |by apply applyConfig_returns]].
  intros configs container requests limits Hcpu Hmem Hres Hvars Hreq Hlim.
  unfold applyConfig.
  assert (∃ env', match configs !! "environmentVariables" with
                  | Some (AMap vars) =>
                      @appendEnvironmentVariables (Env container) vars
                  | _ => Ok (Env container)
                  end = Ok env') as [env' ->].
  { unfold StringValued in Hvars.
    destruct (configs !! "environmentVariables") as [[]|]; try by eexists.
    by apply appendEnvironmentVariables_total. }
  cbn. rewrite Hres, Hcpu, Hmem. cbn.
  rewrite ParseQuantity_2, ParseQuantity_4G.
  set (c1 := match configs !! "arguments" with
             | Some (AStrSlice arguments) => _ | _ => _ end).
  assert (Hc1 : Resources c1 = Resources container).
  { subst c1. by destruct (configs !! "arguments") as [[]|]. }
  rewrite Hc1, Hreq, Hlim.
  set (cpu := resource.NewQuantity 2 resource.DecimalSI).
  set (mem := resource.NewQuantity 4000000000 resource.DecimalSI).
  destruct (@reset_Some requests ResourceCPU cpu) as (r1 & -> & Hr1 & _). simpl.
  destruct (@reset_Some r1 ResourceMemory mem) as (r2 & -> & Hr2 & Hr2'). simpl.
  destruct (@reset_Some limits ResourceCPU cpu) as (l1 & -> & Hl1 & _). simpl.
  destruct (@reset_Some l1 ResourceMemory mem) as (l2 & -> & Hl2 & Hl2'). simpl.
  eexists. split; [done|]. cbn [Requests Limits Resources setResources].
  unfold resource.MilliValue, resource.Value.
  rewrite Hr2' by done. rewrite Hl2' by done. by rewrite Hr1, Hr2, Hl1, Hl2.
Qed.

Lemma autoscale_sets_cpu_and_decimal_memory_witness :
  (∃ container',
     @applyConfig imports Scenario.autoscale Scenario.mainContainer = Ok container'
     ∧ resource.MilliValue (quantityAt (Requests (Resources container')) ResourceCPU)
       = 2000
     ∧ resource.MilliValue (quantityAt (Limits (Resources container')) ResourceCPU)
       = 2000
     ∧ resource.Value (quantityAt (Requests (Resources container')) ResourceMemory)
       = 4000000000
     ∧ resource.Value (quantityAt (Limits (Resources container')) ResourceMemory)
       = 4000000000)
  ∧ ∃ container',
      @applyConfig imports {[ "cpu" := AString "2"; "memory" := AString "4G" ]}
        Scenario.mainContainer = Ok container'
      ∧ Resources container' = Resources Scenario.mainContainer.
Proof.
  destruct autoscale_sets_cpu_and_decimal_memory as [Hset Hkeep]. split.
  - apply (Hset Scenario.autoscale Scenario.mainContainer
             {[ ResourceCPU := resource.NewMilliQuantity 1000 resource.DecimalSI;
                ResourceMemory := resource.NewQuantity 1073741824 resource.BinarySI ]}
             {[ ResourceCPU := resource.NewMilliQuantity 1000 resource.DecimalSI;
                ResourceMemory := resource.NewQuantity 1073741824 resource.BinarySI ]});
      reflexivity.
  - destruct (Hkeep imports {[ "cpu" := AString "2"; "memory" := AString "4G" ]}
                Scenario.mainContainer) as [Hsame Hreturns].
    + vm_compute. discriminate.
    + destruct Hreturns as [container' Hc]; [exact I|].
      exists container'. split; [done|]. by apply Hsame.
Defined.

End AutoscaleClaims.

(** ** The merge of environment variables *)

Section MergeEnvFacts.
Import Go corev1 PodTemplate.

Lemma overrideEnv_Some env k v env' :
  overrideEnv env k v = Some env' →
  Name <$> env' = Name <$> env ∧ mkEnvVar k v ∈ env'.
Proof.
  revert env'. induction env as [|e env IH]; intros env'; simpl; [done|].
  destruct (decide (Name e = k)) as [<-|Hne].
  - intros [= <-]. split; [done|]. apply list_elem_of_here.
  - destruct (overrideEnv env k v) as [env1|]; [|done]. simpl.
    intros [= <-]. destruct (IH env1 eq_refl) as [Hnames Hin].
    split; [by rewrite !fmap_cons, Hnames|]. by apply list_elem_of_further.
Qed.

Lemma overrideEnv_None env k v :
  overrideEnv env k v = None → k ∉ Name <$> env.
Proof.
  induction env as [|e env IH]; simpl; [intros _; apply not_elem_of_nil|].
  destruct (decide (Name e = k)) as [<-|Hne]; [done|].
  destruct (overrideEnv env k v); [done|]. intros _.
  apply not_elem_of_cons. split; [done|]. by apply IH.
Qed.

(** [MergePod], the sibling of [applyConfig], does merge: a variable of
    the definition overrides the entry of its name or is appended, and a
    list without duplicate names stays so. *)
Lemma mergeEnvVar_merges env k v :
  mkEnvVar k v ∈ mergeEnvVar env (k, v)
  ∧ (NoDup (Name <$> env) → NoDup (Name <$> mergeEnvVar env (k, v)))
  ∧ (k ∈ Name <$> env → Name <$> mergeEnvVar env (k, v) = Name <$> env)
  ∧ (k ∉ Name <$> env → mergeEnvVar env (k, v) = env ++ [mkEnvVar k v]).
Proof.
  unfold mergeEnvVar. simpl.
  destruct (overrideEnv env k v) as [env'|] eqn:Hover.
  - apply overrideEnv_Some in Hover as [Hnames Hin].
    rewrite Hnames. split; [done|]. split; [done|]. split; [done|].
    intros Hnot. exfalso. apply Hnot. rewrite <- Hnames.
    apply list_elem_of_fmap. by exists (mkEnvVar k v).
  - apply overrideEnv_None in Hover.
    split; [apply elem_of_app; right; apply list_elem_of_here|].
    split; [|split; [done|done]].
    intros Hnodup. rewrite fmap_app. simpl. apply NoDup_app.
    split; [done|]. split; [|apply NoDup_singleton].
    intros x Hx Hx'. apply list_elem_of_singleton in Hx'. by subst x.
Qed.

Lemma mergeEnvVars_NoDup environs containers :
  Forall (λ c, NoDup (Name <$> Env c)) containers →
  Forall (λ c, NoDup (Name <$> Env c)) (mergeEnvVars environs containers).
Proof.
  unfold mergeEnvVars. intros Hall. apply Forall_fmap.
  eapply Forall_impl; [exact Hall|]. intros c. simpl.
  generalize (Env c). induction environs as [|[k v] environs IH]; intros env Hn;
    simpl; [done|].
  apply IH. by apply mergeEnvVar_merges.
Qed.

(** C4, on the code: [applyConfig], the merge [createPod] runs, appends
    the variables of the definition without looking for their names, so
    a variable the template already has is in the list twice.  Here the
    template sets [MODE] and the definition sets it again. *)
Theorem applyConfig_duplicates_variable :
  let configs : gmap string Any :=
    {[ "environmentVariables" := AMap [("MODE", AString "custom")] ]} in
  NoDup (Name <$> Env Scenario.mainContainer)
  ∧ ∃ container',
      @PodHandler.applyConfig imports configs Scenario.mainContainer = Ok container'
      ∧ Env container' = [mkEnvVar "MODE" "template"; mkEnvVar "MODE" "custom"]
      ∧ ¬ NoDup (Name <$> Env container').
Proof.
  split.
  - apply NoDup_singleton.
  - eexists. split; [by vm_compute|]. split; [done|].
    simpl. intros Hnodup. apply NoDup_cons in Hnodup as [Hnot _].
    apply Hnot, list_elem_of_here.
Qed.

End MergeEnvFacts.

(** ** The image of the second container *)

Section SecondImageFacts.
Context `{Imports}.
Import Go corev1 PodHandler.

(** After [MergePodImage] every container has the primary image, except
    the one at index 1 when the deploy configuration names a second
    image. *)
Lemma mergeContainers_images aenv image i containers merged :
  mergeContainers aenv image i containers = Ok merged →
  ∀ j c, merged !! j = Some c →
    ((i + j)%nat ≠ 1%nat → Image c = image)
    ∧ ((i + j)%nat = 1%nat →
         (DeployConfig aenv !! "secondImageName" = None → Image c = image)
         ∧ (∀ s, DeployConfig aenv !! "secondImageName" = Some (AString s) →
                 Image c = s)).
Proof.
  revert i merged. induction containers as [|c0 rest IH]; intros i merged; simpl.
  - intros [= <-] j c Hj. by rewrite lookup_nil in Hj.
  - intros Hm. bind_inv Hm. bind_inv Hm. bind_inv Hm. injection Hm as <-.
    intros [|j] c Hj; simpl in Hj.
    + injection Hj as <-. rewrite Nat.add_0_r.
      rewrite (applyConfig_Image _ _ _ Ha0).
      destruct (decide (i = 1%nat)) as [->|Hi].
      * split; [done|]. intros _.
        destruct (DeployConfig aenv !! "secondImageName") as [v|] eqn:Hsecond.
        -- bind_inv Ha. destruct v; try discriminate Ha2.
           injection Ha2 as <-. injection Ha as <-.
           split; [done|]. by intros s' [= <-].
        -- injection Ha as <-. split; [done|]. by intros s.
      * split; [|done]. intros _. by injection Ha as <-.
    + replace (i + S j)%nat with (S i + j)%nat by lia. by eapply IH.
Qed.

Lemma MergePodImage_second pod aenv merged second :
  MergePodImage (Some pod) aenv = Ok merged →
  Containers merged !! 1%nat = Some second →
  (DeployConfig aenv !! "secondImageName" = None → Image second = primaryImage aenv)
  ∧ (∀ s, DeployConfig aenv !! "secondImageName" = Some (AString s) →
          Image second = s).
Proof.
  unfold MergePodImage. intros Hm Hsecond. bind_inv Hm. injection Hm as <-.
  simpl in Hsecond.
  by destruct (mergeContainers_images _ _ _ _ _ Ha 1%nat second Hsecond) as [_ Hone];
    apply Hone.
Qed.

(** The merge returns, with as many containers as the template has,
    when the marker is not set, the variables are strings and the second
    image, if any, is a string. *)
Lemma mergeContainers_returns aenv image i containers :
  DeployConfig aenv !! "resource" ≠ Some (AString "autoscale") →
  StringValued (DeployConfig aenv !! "environmentVariables") →
  (∀ v, DeployConfig aenv !! "secondImageName" = Some v → ∃ s, v = AString s) →
  ∃ merged, mergeContainers aenv image i containers = Ok merged
            ∧ length merged = length containers.
Proof.
  intros Hres Hvars Hsecond. revert i.
  induction containers as [|c rest IH]; intros i; [by exists []|].
  cbn [mergeContainers].
  assert (∃ c1, (if decide (i = 1%nat) then
                   match DeployConfig aenv !! "secondImageName" with
                   | Some secondImageName =>
                       s ← assertString "interface {}" (Some secondImageName);
                       Ok (setImage (setImage c image) s)
                   | None => Ok (setImage c image)
                   end
                 else Ok (setImage c image)) = Ok c1) as [c1 ->].
  { destruct (decide (i = 1%nat)); [|by eexists].
    destruct (DeployConfig aenv !! "secondImageName") as [v|] eqn:Hv; [|by eexists].
    destruct (Hsecond v eq_refl) as [s ->]. by eexists. }
  cbn. destruct (applyConfig_returns (DeployConfig aenv) c1 Hres Hvars) as [c2 ->].
  cbn. destruct (IH (S i)) as (merged & -> & Hlen).
  cbn. eexists. split; [done|]. simpl. by rewrite Hlen.
Qed.

Lemma MergePodImage_returns pod aenv :
  DeployConfig aenv !! "resource" ≠ Some (AString "autoscale") →
  StringValued (DeployConfig aenv !! "environmentVariables") →
  (∀ v, DeployConfig aenv !! "secondImageName" = Some v → ∃ s, v = AString s) →
  ∃ merged, MergePodImage (Some pod) aenv = Ok merged
            ∧ length (Containers merged) = length (Containers pod).
Proof.
  intros Hres Hvars Hsecond. unfold MergePodImage.
  destruct (mergeContainers_returns aenv (primaryImage aenv) 0 (Containers pod)
              Hres Hvars Hsecond) as (merged & -> & Hlen).
  cbn. by eexists.
Qed.

(** What the gateway leaves under [secondImageName]. *)
Lemma prepareDeployConfig_second req dc sent :
  Gateway.prepareDeployConfig req (Some dc) = Ok sent →
  ∃ d, sent = Some d
       ∧ d !! "secondImageName"
         = if decide (Gateway.Datasource req ≠ "") then
             Some (AString
                     (match dc !! "imagePrefix" with
                      | Some (AString str) => str
                      | _ => "docker.io/library/aenv"
                      end +:+ ":" +:+ Gateway.Datasource req))
           else dc !! "secondImageName".
Proof.
  unfold Gateway.prepareDeployConfig. intros Hp.
  bind_inv Hp. bind_inv Hp. apply put_Ok in Hp as (d & -> & ->).
  eexists. split; [done|]. rewrite lookup_insert_ne by done.
  assert (Hd : ∃ d1, a = Some d1 ∧ d !! "secondImageName" = d1 !! "secondImageName").
  { destruct (Gateway.Arguments req).
    - apply put_Ok in Ha0 as (d1 & -> & [= ->]). exists d1.
      by rewrite lookup_insert_ne.
    - injection Ha0 as ->. by exists d. }
  destruct Hd as (d1 & -> & ->).
  assert (Hd : ∃ d0, (if decide (Gateway.Datasource req ≠ "")
                      then Some (<["secondImageName" :=
                             AString (match dc !! "imagePrefix" with
                                      | Some (AString str) => str
                                      | _ => "docker.io/library/aenv"
                                      end +:+ ":" +:+ Gateway.Datasource req)]> dc)
                      else Some dc) = Some d0
                     ∧ d1 !! "secondImageName" = d0 !! "secondImageName").
  { simpl in Ha. destruct (Gateway.EnvironmentVariables req).
    - apply put_Ok in Ha as (d0 & Hd0 & [= ->]). exists d0.
      split; [done|]. by rewrite lookup_insert_ne.
    - injection Ha as Ha. by exists d1. }
  destruct Hd as (d0 & Hd0 & ->).
  destruct (decide (Gateway.Datasource req ≠ "")); injection Hd0 as <-; [|done].
  by rewrite lookup_insert_eq.
Qed.

End SecondImageFacts.

Section SecondImageClaims.
Import Go corev1 PodHandler.

(** C5, as stated, fails for an empty datasource: a definition whose own
    deploy configuration carries a [secondImageName] entry keeps it, and
    the second container gets that image, not the primary one. *)
Lemma empty_datasource_can_keep_second_image :
  ¬ (∀ req backendEnv dc p posted template merged second,
       Gateway.DeployConfig backendEnv = Some dc →
       dc !! "imagePrefix" = Some (AString p) →
       Gateway.CreateEnvInstance_posted req backendEnv = Ok posted →
       @MergePodImage imports (Some template) posted = Ok merged →
       Containers merged !! 1%nat = Some second →
       (Gateway.Datasource req ≠ "" →
          Image second = p +:+ ":" +:+ Gateway.Datasource req)
       ∧ (Gateway.Datasource req = "" →
            posted.(DeployConfig) !! "secondImageName" = None
            ∧ Image second = primaryImage posted)).
Proof.
  intros Hclaim.
  pose (dc := ({[ "imagePrefix" := AString "registry/envs";
                  "secondImageName" := AString "registry/other:latest" ]}
               : gmap string Any)).
  destruct (Gateway.CreateEnvInstance_posted (Scenario.request "")
              (Scenario.backendEnv dc)) as [posted|msg] eqn:Hposted;
    [|vm_compute in Hposted; discriminate].
  destruct (@MergePodImage imports (Some Scenario.dualTemplate) posted)
    as [merged|msg] eqn:Hmerged;
    [|vm_compute in Hposted; injection Hposted as <-;
      vm_compute in Hmerged; discriminate].
  destruct (Containers merged !! 1%nat) as [second|] eqn:Hsecond;
    [|vm_compute in Hposted; injection Hposted as <-;
      vm_compute in Hmerged; injection Hmerged as <-; discriminate].
  destruct (Hclaim (Scenario.request "") (Scenario.backendEnv dc) dc "registry/envs"
              posted Scenario.dualTemplate merged second eq_refl eq_refl
              Hposted Hmerged Hsecond) as [_ Hempty].
  destruct (Hempty eq_refl) as [_ Himage].
  vm_compute in Hposted. injection Hposted as <-.
  vm_compute in Hmerged. injection Hmerged as <-.
  vm_compute in Hsecond. injection Hsecond as <-.
  vm_compute in Himage. discriminate.
Qed.

(** C5, amended: for a definition with [imagePrefix = p] and a request
    with datasource [s], the second container of the merged pod has the
    image [p + ":" + s] when [s] is not empty; when [s] is empty the
    gateway sets no second image, and the second container keeps the
    primary image unless the deploy configuration of the definition
    itself carries a [secondImageName] entry, which is then its image. *)
Theorem second_image_of_merged_pod `{Imports}
  req backendEnv dc p posted template merged second :
  Gateway.DeployConfig backendEnv = Some dc →
  dc !! "imagePrefix" = Some (AString p) →
  Gateway.CreateEnvInstance_posted req backendEnv = Ok posted →
  MergePodImage (Some template) posted = Ok merged →
  Containers merged !! 1%nat = Some second →
  (Gateway.Datasource req ≠ "" →
     Image second = p +:+ ":" +:+ Gateway.Datasource req)
  ∧ (Gateway.Datasource req = "" → dc !! "secondImageName" = None →
       posted.(DeployConfig) !! "secondImageName" = None
       ∧ Image second = primaryImage posted)
  ∧ (Gateway.Datasource req = "" →
       ∀ s, dc !! "secondImageName" = Some (AString s) → Image second = s).
Proof.
  intros Hdc Hprefix Hposted Hmerged Hsecond.
  unfold Gateway.CreateEnvInstance_posted in Hposted. bind_inv Hposted.
  rewrite Hdc in Ha. apply prepareDeployConfig_second in Ha as (d & -> & Hd).
  injection Hposted as <-.
  destruct (MergePodImage_second _ _ _ _ Hmerged Hsecond) as [Hnone Hsome].
  unfold Gateway.posted in Hnone, Hsome |- *. simpl in *.
  rewrite lookup_fmap, Hd in Hnone, Hsome |- *. rewrite Hprefix in *.
  split; [|split].
  - intros Hs. rewrite decide_True in Hsome by done. by apply Hsome.
  - intros Hs Hfree. rewrite decide_False in Hnone |- * by (intros Hn; done).
    rewrite Hfree in *. split; [done|]. by apply Hnone.
  - intros Hs s Hkept. rewrite decide_False in Hsome by (intros Hn; done).
    rewrite Hkept in Hsome. by apply Hsome.
Qed.

Lemma second_image_of_merged_pod_witness :
  ∃ posted merged second,
    Gateway.CreateEnvInstance_posted (Scenario.request "django-1")
      (Scenario.backendEnv {[ "imagePrefix" := AString "registry/envs" ]}) = Ok posted
    ∧ @MergePodImage imports (Some Scenario.dualTemplate) posted = Ok merged
    ∧ Containers merged !! 1%nat = Some second
    ∧ Image second = "registry/envs:django-1".
Proof.
  pose (dc := ({[ "imagePrefix" := AString "registry/envs" ]} : gmap string Any)).
  destruct (Gateway.CreateEnvInstance_posted (Scenario.request "django-1")
              (Scenario.backendEnv dc)) as [posted|msg] eqn:Hposted;
    [|vm_compute in Hposted; discriminate].
  destruct (@MergePodImage imports (Some Scenario.dualTemplate) posted)
    as [merged|msg] eqn:Hmerged;
    [|vm_compute in Hposted; injection Hposted as <-;
      vm_compute in Hmerged; discriminate].
  destruct (Containers merged !! 1%nat) as [second|] eqn:Hsecond;
    [|vm_compute in Hposted; injection Hposted as <-;
      vm_compute in Hmerged; injection Hmerged as <-; discriminate].
  exists posted, merged, second.
  destruct (@second_image_of_merged_pod imports (Scenario.request "django-1")
              (Scenario.backendEnv dc) dc "registry/envs" posted
              Scenario.dualTemplate merged second eq_refl eq_refl
              Hposted Hmerged Hsecond) as [Hset _].
  split; [done|]. split; [done|]. split; [done|].
  apply Hset. vm_compute. discriminate.
Defined.

End SecondImageClaims.

(** ** Templates that are missing *)

Section TemplateClaims.
Import Go corev1 PodTemplate PodHandler.

(** C6, as stated, fails: a request for a second kind of template whose
    blueprint is in neither place gets no reply at all from [createPod],
    the handler panics. *)
Lemma missing_secondary_template_gets_no_reply :
  ¬ (∀ (I : Imports) (H : Host) aenvHubEnv,
       templateTypeOf aenvHubEnv ≠ SingleContainerTemplate →
       ReadFile (podTemplateBaseDir +:+ "/" +:+ templateTypeOf aenvHubEnv +:+ ".yaml")
       = None →
       ReadFile (legacyFileName (templateTypeOf aenvHubEnv)) = None →
       ∃ reply, createPod (Some aenvHubEnv) = Ok reply ∧ StatusCode reply ≠ 201).
Proof.
  intros Hclaim.
  destruct (Hclaim imports Scenario.emptyHost Scenario.dualRequest)
    as (reply & Hreply & _).
  - vm_compute. discriminate.
  - reflexivity.
  - reflexivity.
  - vm_compute in Hreply. discriminate.
Qed.

(** C6, amended: when the blueprint of a second kind of template is in
    neither the configured directory nor the legacy path, loading it
    panics, the loader having no error to return, and [createPod] writes
    no reply for a request that names the kind.  The panic ends the
    request only: [http.Server] recovers it and the process goes on
    serving, and the absence does not stop the process from starting.
    What ends the process is the absence of the default template at
    startup. *)
Theorem missing_template_panics `{Imports} `{Host} machineType :
  ReadFile (podTemplateBaseDir +:+ "/" +:+ machineType +:+ ".yaml") = None →
  ReadFile (legacyFileName machineType) = None →
  let message := "failed to read YAML file " +:+ legacyFileName machineType in
  LoadPodTemplateFromYaml machineType = Panic message
  ∧ LoadNsFromPodTemplate machineType = Panic message
  ∧ (∀ aenvHubEnv, templateTypeOf aenvHubEnv = machineType →
       createPod (Some aenvHubEnv) = Panic message
       ∧ ∀ podCache now namespace query,
           Server.serve podCache now (Server.Serving namespace)
             (Schedule.mkRequest "POST" "/pods" query) (Some aenvHubEnv)
           = (None, Server.Serving namespace))
  ∧ (∀ cluster namespace,
       LoadNsFromPodTemplate SingleContainerTemplate = Ok namespace →
       Server.configError cluster = None → Server.clientsetError cluster = None →
       Server.cacheSynced cluster = true → Server.listenError cluster = None →
       Server.StartHttpServer cluster = Server.Serving namespace)
  ∧ (machineType = SingleContainerTemplate →
     ∀ cluster,
       Server.configError cluster = None → Server.clientsetError cluster = None →
       Server.StartHttpServer cluster = Server.Exited message).
Proof.
  intros Hconfigured Hlegacy message.
  assert (Hload : LoadPodTemplateFromYaml machineType = Panic message).
  { unfold LoadPodTemplateFromYaml, loadPodTemplateFromLegacyPath.
    by rewrite Hconfigured, Hlegacy. }
  assert (Hns : LoadNsFromPodTemplate machineType = Panic message).
  { unfold LoadNsFromPodTemplate. by rewrite Hload. }
  split; [done|]. split; [done|]. split; [|split].
  - intros aenvHubEnv Htype.
    assert (Hcreate : createPod (Some aenvHubEnv) = Panic message).
    { unfold createPod, renderPod. by rewrite Htype, Hload. }
    split; [done|]. intros podCache now namespace query.
    unfold Server.serve.
    change (Controller.ServeHTTP podCache namespace now
              (Schedule.mkRequest "POST" "/pods" query) (Some aenvHubEnv))
      with (createPod (Some aenvHubEnv)).
    by rewrite Hcreate.
  - intros cluster namespace Hprimary Hconfig Hclient Hsynced Hlisten.
    unfold Server.StartHttpServer, Server.NewAEnvPodHandler.
    rewrite Hconfig, Hclient, Hprimary. simpl. by rewrite Hsynced, Hlisten.
  - intros -> cluster Hconfig Hclient.
    unfold Server.StartHttpServer, Server.NewAEnvPodHandler.
    by rewrite Hconfig, Hclient, Hns.
Qed.

Lemma missing_template_panics_witness :
  @createPod imports Cases.primaryOnlyHost (Some Scenario.dualRequest)
  = Panic "failed to read YAML file /home/admin/pod_template_linux/config.yaml"
  ∧ @Server.serve imports Cases.primaryOnlyHost (Scenario.cache []) 0
      (Server.Serving "aenv") (Schedule.mkRequest "POST" "/pods" "")
      (Some Scenario.dualRequest)
    = (None, Server.Serving "aenv")
  ∧ @Server.StartHttpServer Cases.primaryOnlyHost
      (Server.mkCluster None None true None)
    = Server.Serving "aenv".
Proof.
  destruct (@missing_template_panics imports Cases.primaryOnlyHost "DualContainer")
    as (_ & _ & Hrequest & Hstart & _).
  - reflexivity.
  - reflexivity.
  - destruct (Hrequest Scenario.dualRequest) as [Hcreate Hserve];
      [vm_compute; reflexivity|].
    split; [exact Hcreate|]. split; [apply Hserve|].
    apply Hstart; reflexivity.
Defined.

End TemplateClaims.

(** ** The translation of cluster errors *)

Section StatusClaims.
Import PodHandler.




End StatusClaims.

(** ** Requests on which [createPod] panics *)

Section PanicFacts.
Context `{Imports} `{Host}.
Import Go corev1 PodHandler.

(** With the marker set, a [cpu] or [memory] entry that is missing or
    not a string makes [applyConfig] panic. *)
Lemma applyConfig_autoscale_needs_strings configs container :
  isAutoscale (configs !! "resource") = true →
  asString (configs !! "cpu") = None ∨ asString (configs !! "memory") = None →
  panics (applyConfig configs container) = true.
Proof.
  intros Hauto Hmissing. unfold applyConfig.
  destruct (match configs !! "environmentVariables" with
            | Some (AMap vars) => appendEnvironmentVariables (Env container) vars
            | _ => Ok (Env container)
            end) as [env|msg]; [|done].
  cbn. rewrite Hauto. cbn.
  destruct (configs !! "cpu") as [[]|]; try done.
  destruct Hmissing as [Hcpu|Hmemory]; [done|].
  cbn. by destruct (configs !! "memory") as [[]|].
Qed.

(** Every request of that kind makes [createPod] panic, whatever the
    template. *)
Lemma createPod_autoscale_needs_strings aenvHubEnv :
  isAutoscale (DeployConfig aenvHubEnv !! "resource") = true →
  asString (DeployConfig aenvHubEnv !! "cpu") = None
  ∨ asString (DeployConfig aenvHubEnv !! "memory") = None →
  panics (createPod (Some aenvHubEnv)) = true.
Proof.
  intros Hauto Hmissing. unfold createPod, renderPod.
  destruct (PodTemplate.LoadPodTemplateFromYaml (templateTypeOf aenvHubEnv))
    as [[pod|]|msg]; [|done|done].
  cbn. destruct (Containers pod) as [|c rest] eqn:Hcs.
  - done.
  - cbn.
    pose proof (applyConfig_autoscale_needs_strings (DeployConfig aenvHubEnv)
                  (setImage c (primaryImage aenvHubEnv)) Hauto Hmissing) as Hp.
    rewrite decide_False by done. cbn.
    by destruct (applyConfig (DeployConfig aenvHubEnv) _).
Qed.

(** A [ttl] entry that is present, not [null] and not a string makes
    [createPod] panic, whatever the template. *)
Lemma createPod_ttl_needs_string aenvHubEnv ttl :
  DeployConfig aenvHubEnv !! "ttl" = Some ttl →
  ttl ≠ ANil → asString (Some ttl) = None →
  panics (createPod (Some aenvHubEnv)) = true.
Proof.
  intros Httl Hnil Hstr. unfold createPod, renderPod.
  destruct (PodTemplate.LoadPodTemplateFromYaml (templateTypeOf aenvHubEnv))
    as [pod|msg]; [|done].
  cbn. destruct (MergePodImage pod aenvHubEnv) as [merged|msg]; [|done].
  cbn. destruct (Containers merged); [done|].
  rewrite Httl. by destruct ttl.
Qed.

End PanicFacts.

(** C9: [createPod] does not return on every request body that decodes:
    with [resource="autoscale"] and no [cpu] entry, or no [memory] entry,
    or with a [ttl] entry that is a number, the type assertion to
    [string] fails and the handler panics, where the templates are in
    place and no reply has been written. *)
Theorem createPod_panics_on_decoded_requests :
  let assertion := "interface conversion: interface {} is not string" in
  (WellFormed Scenario.noCpu
   ∧ PodHandler.DeployConfig Scenario.noCpu !! "resource" = Some (Go.AString "autoscale")
   ∧ PodHandler.DeployConfig Scenario.noCpu !! "cpu" = None
   ∧ @PodHandler.createPod imports Scenario.host (Some Scenario.noCpu)
     = Go.Panic assertion)
  ∧ (WellFormed Scenario.noMemory
     ∧ PodHandler.DeployConfig Scenario.noMemory !! "resource"
       = Some (Go.AString "autoscale")
     ∧ PodHandler.DeployConfig Scenario.noMemory !! "memory" = None
     ∧ @PodHandler.createPod imports Scenario.host (Some Scenario.noMemory)
       = Go.Panic assertion)
  ∧ (WellFormed Scenario.numericTTL
     ∧ PodHandler.DeployConfig Scenario.numericTTL !! "ttl" = Some (Go.ANumber 1800)
     ∧ @PodHandler.createPod imports Scenario.host (Some Scenario.numericTTL)
       = Go.Panic assertion).
Proof.
  repeat split; try (by vm_compute); unfold WellFormed; compute_done.
Qed.

(** * Further properties of the code *)

(** ** Routing *)

Section RoutingFacts.
Context `{Imports} `{Host}.
Import Go corev1 PodHandler.

Lemma string_app_cons c (s t : string) : String c s +:+ t = String c (s +:+ t).
Proof. reflexivity. Qed.

Lemma string_app_empty (s : string) : s +:+ "" = s.
Proof. induction s as [|c s IH]; [done|]. by rewrite string_app_cons, IH. Qed.

Lemma string_app_snoc (s t : string) c : (s +:+ String c "") +:+ t = s +:+ String c t.
Proof. induction s as [|d s IH]; [done|]. by rewrite !string_app_cons, IH. Qed.

Lemma splitFrom_no_slash cur s :
  hasSlash s = false → Controller.splitFrom cur s = [cur +:+ s].
Proof.
  revert cur. induction s as [|c s IH]; intros cur; simpl.
  - intros _. by rewrite string_app_empty.
  - intros Hs. apply orb_false_iff in Hs as [Hc Hs]. rewrite Hc, IH by done.
    by rewrite string_app_snoc.
Qed.

Lemma splitFrom_length cur s : (1 ≤ length (Controller.splitFrom cur s))%nat.
Proof.
  revert cur. induction s as [|c s IH]; intros cur; simpl; [lia|].
  destruct (Ascii.eqb c "/"); simpl; [lia|apply IH].
Qed.

Lemma splitFrom_slash cur s :
  hasSlash s = true → (2 ≤ length (Controller.splitFrom cur s))%nat.
Proof.
  revert cur. induction s as [|c s IH]; intros cur; simpl; [done|].
  destruct (Ascii.eqb c "/"); simpl.
  - intros _. pose proof (splitFrom_length "" s). lia.
  - apply IH.
Qed.

Lemma Split_pods name :
  Controller.Split ("/pods/" +:+ name) = "" :: "pods" :: Controller.splitFrom "" name.
Proof. reflexivity. Qed.

Lemma ServeHTTP_delete podCache ns now name q decoded :
  hasSlash name = false →
  Controller.ServeHTTP podCache ns now
    (Schedule.mkRequest "DELETE" ("/pods/" +:+ name) q) decoded
  = Ok (deletePod name).
Proof.
  intros Hname. unfold Controller.ServeHTTP.
  cbn [Schedule.path Schedule.method]. rewrite !Split_pods.
  by rewrite (splitFrom_no_slash "" name Hname).
Qed.

(** X1: a [GET] or [DELETE] for [/pods/<name>] reaches [getPod] or
    [deletePod] with exactly that name when the name holds no slash; when
    it holds one the path has too many parts and the answer is 405,
    whatever the method. *)
Theorem ServeHTTP_routes_by_name podCache ns now name q decoded :
  (hasSlash name = false →
     Controller.ServeHTTP podCache ns now
       (Schedule.mkRequest "GET" ("/pods/" +:+ name) q) decoded
     = Ok (getPod podCache ns name)
     ∧ Controller.ServeHTTP podCache ns now
         (Schedule.mkRequest "DELETE" ("/pods/" +:+ name) q) decoded
       = Ok (deletePod name))
  ∧ (hasSlash name = true →
       ∀ method, ∃ message,
         Controller.ServeHTTP podCache ns now
           (Schedule.mkRequest method ("/pods/" +:+ name) q) decoded
         = Ok (mkReply 405 (Text message))).
Proof.
  split.
  - intros Hname. unfold Controller.ServeHTTP.
    cbn [Schedule.path Schedule.method]. rewrite !Split_pods.
    rewrite (splitFrom_no_slash "" name Hname). by split.
  - intros Hname method. unfold Controller.ServeHTTP.
    cbn [Schedule.path Schedule.method]. rewrite Split_pods.
    pose proof (splitFrom_slash "" name Hname) as Hlen.
    destruct (Controller.splitFrom "" name) as [|a [|b rest]];
      simpl in Hlen; try lia.
    cbn. rewrite !andb_false_r. by eexists.
Qed.

End RoutingFacts.

Lemma ServeHTTP_routes_by_name_witness :
  @Controller.ServeHTTP imports Scenario.host (Scenario.cache []) "aenv" 0
    (Schedule.mkRequest "DELETE" ("/pods/" +:+ "c") "") None
  = Go.Ok (@PodHandler.deletePod Scenario.host "c")
  ∧ ∃ message,
      @Controller.ServeHTTP imports Scenario.host (Scenario.cache []) "aenv" 0
        (Schedule.mkRequest "DELETE" ("/pods/" +:+ "a/b") "") None
      = Go.Ok (PodHandler.mkReply 405 (PodHandler.Text message)).
Proof.
  destruct (@ServeHTTP_routes_by_name imports Scenario.host (Scenario.cache [])
              "aenv" 0 "c" "" None) as [Hplain _].
  destruct (@ServeHTTP_routes_by_name imports Scenario.host (Scenario.cache [])
              "aenv" 0 "a/b" "" None) as [_ Hslash].
  split.
  - apply Hplain. reflexivity.
  - apply Hslash. reflexivity.
Defined.

(** ** The handlers *)

(** Membership in a list that is written out. *)
Ltac in_list := repeat first [apply list_elem_of_here | apply list_elem_of_further].

Section HandlerFacts.
Context `{Imports} `{Host}.
Import Go corev1 PodHandler.

Lemma handleK8sAPiError_status err action :
  StatusCode (handleK8sAPiError err action) ∈ controllerStatuses.
Proof.
  unfold controllerStatuses.
  destruct err as [code message|text]; simpl; [|in_list].
  unfold httpStatusFromK8s. repeat case_decide; in_list.
Qed.

(** X2: whatever the request, a reply of the controller carries one of
    nine status codes: 200, 201, 400, 401, 403, 404, 405, 409 or 500. *)
Theorem ServeHTTP_status_range podCache ns now r decoded reply :
  Controller.ServeHTTP podCache ns now r decoded = Ok reply →
  StatusCode reply ∈ controllerStatuses.
Proof.
  pose proof handleK8sAPiError_status as Herr.
  unfold Controller.ServeHTTP.
  destruct (_ || _); [intros [= <-]; unfold controllerStatuses; in_list|].
  destruct (_ && _).
  { unfold createPod.
    destruct decoded as [env|]; [|intros [= <-]; unfold controllerStatuses; in_list].
    intros Hc. bind_inv Hc. destruct (podsCreate a) as [err|created].
    - injection Hc as <-. apply Herr.
    - injection Hc as <-. unfold controllerStatuses. in_list. }
  destruct (_ && _).
  { intros [= <-]. unfold listPod.
    by destruct (if decide _ then _ else _); unfold controllerStatuses; in_list. }
  destruct (_ && _).
  { intros [= <-]. unfold getPod.
    destruct (decide _); [unfold controllerStatuses; in_list|].
    destruct (match PodCache.GetPod _ _ _ with inl _ => _ | inr pod => _ end)
      as [err|pod]; [apply Herr|unfold controllerStatuses; in_list]. }
  destruct (_ && _).
  { intros [= <-]. unfold deletePod.
    destruct (decide _); [unfold controllerStatuses; in_list|].
    destruct (podsDelete _) as [err|]; [apply Herr|unfold controllerStatuses; in_list]. }
  intros [= <-]. unfold controllerStatuses. in_list.
Qed.

(** X3: [getPod] asks the cache first.  A pod the cache holds is
    answered from the cache, with its name, phase, address and TTL label,
    and the cluster is not asked; on a miss the answer is the one of the
    cluster, its error translated. *)
Theorem getPod_reads_cache_first podCache ns name :
  name ≠ "" →
  (∀ pod, PodCache.GetByKey podCache (ns +:+ "/" +:+ name) = inr (Some pod) →
     getPod podCache ns name
     = mkReply 200 (HttpResponse (mkData (PodName pod) (Phase pod) (PodIP pod)
                                         (labelAt pod AENV_TTL))))
  ∧ (PodCache.GetByKey podCache (ns +:+ "/" +:+ name) = inr None →
       match podsGet name with
       | inr pod =>
           getPod podCache ns name
           = mkReply 200 (HttpResponse (mkData (PodName pod) (Phase pod) (PodIP pod)
                                               (labelAt pod AENV_TTL)))
       | inl err => getPod podCache ns name = handleK8sAPiError err "failed to get pod"
       end).
Proof.
  intros Hname. unfold getPod, PodCache.GetPod. rewrite decide_False by done.
  split.
  - by intros pod ->.
  - intros ->. by destruct (podsGet name).
Qed.


End HandlerFacts.

Lemma ServeHTTP_status_range_witness :
  (409 : Z) ∈ controllerStatuses.
Proof.
  pose (conflict := {|
    ReadFile := @ReadFile Scenario.host;
    Unmarshal := @Unmarshal Scenario.host;
    RandString := @RandString Scenario.host;
    podsCreate := λ _, inl (k8s.StatusError 409 "already exists");
    podsGet := @podsGet Scenario.host;
    podsDelete := @podsDelete Scenario.host;
  |}).
  apply (@ServeHTTP_status_range imports conflict (Scenario.cache []) "aenv" 0
           (Schedule.mkRequest "POST" "/pods" "") (Some Scenario.dualRequest)
           (PodHandler.mkReply 409
              (PodHandler.Text "failed to create pod failed: err is already exists"))).
  vm_compute. reflexivity.
Defined.

Lemma getPod_reads_cache_first_witness :
  @PodHandler.getPod imports Scenario.host
    (PodCache.mkCache (λ _, inr [Scenario.podB])
       (λ key, inr (if decide (key = "aenv/b") then Some Scenario.podB else None)))
    "aenv" "b"
  = PodHandler.mkReply 200 (PodHandler.HttpResponse (PodHandler.mkData "b" "Running" "" "1h")).
Proof.
  destruct (@getPod_reads_cache_first imports Scenario.host
              (PodCache.mkCache (λ _, inr [Scenario.podB])
                 (λ key, inr (if decide (key = "aenv/b") then Some Scenario.podB
                              else None)))
              "aenv" "b") as [Hhit _].
  - vm_compute. discriminate.
  - apply (Hhit Scenario.podB). reflexivity.
Defined.


(** ** The adapter and the reclamation pass *)

Section PassFacts.
Context {W : Type} (Do : Schedule.Request → W → option Schedule.Response * W).
Import Schedule.

(** X4: a pass of [Cleanup] returns an error exactly when the listing
    failed, and then it has tried nothing; otherwise it has tried the
    listed instances that are not terminated, each once and in the order
    of the listing; and the count it reports lies between zero and the
    number of deletions it tried. *)
Theorem Cleanup_pass_shape w :
  let pass := (Cleanup Do w).1 in
  0 ≤ deletedCount pass ≤ Z.of_nat (length (attempted pass))
  ∧ match (FilterPods Do w).1 with
    | inl _ => is_Some (returned pass) ∧ attempted pass = []
    | inr instances =>
        returned pass = None
        ∧ attempted pass = ID <$> filter (λ i, Status i ≠ "Terminated") instances
    end.
Proof.
  unfold Cleanup. destruct (FilterPods Do w) as [[err|instances] w'] eqn:Hf; simpl.
  - split; [lia|]. split; [by eexists|done].
  - destruct instances as [|i rest]; [simpl; split; [lia|done]|].
    pose proof (cleanupLoop_attempted Do (i :: rest) 0 [] w') as Hatt.
    pose proof (cleanupLoop_count Do (i :: rest) 0 [] w') as Hcount.
    destruct (cleanupLoop Do (i :: rest) 0 [] w') as [[n att] w''].
    simpl in *. split; [lia|]. by subst att.
Qed.

End PassFacts.

Section ListingFailure.
Context `{Imports}.
Import Go PodHandler.

(** X6: when the index of the cache cannot be read, [listPod] writes
    nothing, which is sent as a 200 without a body; the adapter cannot
    decode that, so a pass of [Cleanup] that receives it returns an error
    and deletes nothing. *)
Theorem cache_failure_fails_the_pass podCache ns now q err :
  PodCache.ByIndex podCache ns = inl err →
  listPod podCache ns now q = mkReply 200 Empty
  ∧ ∀ {W} (Do : Schedule.Request → W → option Schedule.Response * W) w w',
      Do (Schedule.mkRequest "GET" "/pods" "expired") w
      = (Some (Controller.decodeReply (listPod podCache ns now q)), w') →
      ∃ message, Schedule.Cleanup Do w = (Schedule.mkPass (Some message) 0 [], w').
Proof.
  intros Hidx.
  assert (Hlist : listPod podCache ns now q = mkReply 200 Empty).
  { unfold listPod, PodCache.ListExpiredPods, PodCache.ListPodsByNamespace.
    rewrite Hidx. by destruct (decide _). }
  split; [done|]. intros W Do w w' HDo.
  unfold Schedule.Cleanup, Schedule.FilterPods. rewrite HDo, Hlist. simpl.
  by eexists.
Qed.

End ListingFailure.

Lemma cache_failure_fails_the_pass_witness :
  ∃ message,
    Schedule.Cleanup Cases.brokenListing tt = (Schedule.mkPass (Some message) 0 [], tt).
Proof.
  destruct (@cache_failure_fails_the_pass imports Cases.brokenCache "aenv" 0
              "expired" "index does not exist" eq_refl) as [_ Hpass].
  apply (Hpass unit Cases.brokenListing tt tt). reflexivity.
Defined.

Section DeleteFacts.
Context `{Imports} `{Host}.
Import Go corev1.

Lemma unreserved_not_slash c : unreserved c = true → Ascii.eqb c "/"%char = false.
Proof.
  intros Hc. destruct (Ascii.eqb_spec c "/"%char) as [->|_]; [|done].
  vm_compute in Hc. discriminate.
Qed.

Lemma pathSafe_no_slash name : pathSafe name = true → hasSlash name = false.
Proof.
  induction name as [|c name IH]; simpl; [done|].
  intros [Hc Hrest]%andb_true_iff. by rewrite unreserved_not_slash, IH.
Qed.

(** X7: [DeleteEnvInstance] is not idempotent.  For a name of letters,
    digits, [-], [.], [_] and [~], when the reply of the handler to the
    request of [DeletePod] reaches the adapter, every error of the
    cluster on the deletion, "not found" for a pod that is gone
    included, comes back as an error, and a deletion the cluster accepts
    comes back as no error. *)
Theorem DeleteEnvInstance_through_controller {W}
  (Do : Schedule.Request → W → option Schedule.Response * W)
  podCache ns now decoded name reply w w' :
  pathSafe name = true → name ≠ "" →
  Controller.ServeHTTP podCache ns now
    (Schedule.mkRequest "DELETE" ("/pods/" +:+ name) "") decoded = Ok reply →
  Do (Schedule.mkRequest "DELETE" ("/pods/" +:+ name) "") w
  = (Some (Controller.decodeReply reply), w') →
  match podsDelete name with
  | Some err => ∃ message, ScheduleClient.DeleteEnvInstance Do name w = (Some message, w')
  | None => ScheduleClient.DeleteEnvInstance Do name w = (None, w')
  end.
Proof.
  intros Hsafe Hname Hserve HDo.
  rewrite ServeHTTP_delete in Hserve by (by apply pathSafe_no_slash).
  injection Hserve as <-.
  unfold ScheduleClient.DeleteEnvInstance, Schedule.DeletePod. rewrite HDo.
  unfold PodHandler.deletePod. destruct (decide (name = "")) as [Hempty|_]; [done|].
  destruct (podsDelete name) as [err|] eqn:Hdel.
  - unfold Controller.decodeReply.
    destruct err as [code message|text]; simpl.
    + destruct (decide (PodHandler.httpStatusFromK8s code ≠ 200)); by eexists.
    + by eexists.
  - reflexivity.
Qed.

End DeleteFacts.

Lemma DeleteEnvInstance_through_controller_witness :
  (∃ message, ScheduleClient.DeleteEnvInstance Cases.connection "c" tt
              = (Some message, tt))
  ∧ ScheduleClient.DeleteEnvInstance Cases.connection "b" tt = (None, tt).
Proof.
  split.
  - apply (@DeleteEnvInstance_through_controller imports Scenario.host unit
             Cases.connection
             (Scenario.cache [Scenario.podA; Scenario.podB; Scenario.podC])
             "aenv" (2 * Scenario.hour) None "c"
             (@PodHandler.deletePod Scenario.host "c") tt tt);
      [reflexivity | discriminate | reflexivity | reflexivity].
  - apply (@DeleteEnvInstance_through_controller imports Scenario.host unit
             Cases.connection
             (Scenario.cache [Scenario.podA; Scenario.podB; Scenario.podC])
             "aenv" (2 * Scenario.hour) None "b"
             (@PodHandler.deletePod Scenario.host "b") tt tt);
      [reflexivity | discriminate | reflexivity | reflexivity].
Defined.

(** ** More on the merge of a deploy configuration *)

Section ApplyConfigMore.
Context `{Imports}.
Import Go corev1 PodHandler.

(** What a merge that returns did to the resources. *)
Lemma applyConfig_resources configs container container' :
  applyConfig configs container = Ok container' →
  (isAutoscale (configs !! "resource") = false
   ∧ Resources container' = Resources container)
  ∨ ∃ sc sm,
      isAutoscale (configs !! "resource") = true
      ∧ configs !! "cpu" = Some (AString sc)
      ∧ configs !! "memory" = Some (AString sm)
      ∧ (((ParseQuantity sc = None ∨ ParseQuantity sm = None)
          ∧ Resources container' = Resources container)
         ∨ ∃ qc qm r1 r2 l1 l2,
             ParseQuantity sc = Some qc ∧ ParseQuantity sm = Some qm
             ∧ reset (Requests (Resources container)) ResourceCPU qc = Ok r1
             ∧ reset r1 ResourceMemory qm = Ok r2
             ∧ reset (Limits (Resources container)) ResourceCPU qc = Ok l1
             ∧ reset l1 ResourceMemory qm = Ok l2
             ∧ Resources container' = mkResources l2 r2).
Proof.
  unfold applyConfig. intros Happ. bind_inv Happ.
  set (c1 := match configs !! "arguments" with
             | Some (AStrSlice arguments) => _ | _ => _ end) in Happ.
  assert (Hc1 : Resources c1 = Resources container).
  { subst c1. by destruct (configs !! "arguments") as [[]|]. }
  destruct (isAutoscale (configs !! "resource")) eqn:Hauto; simpl in Happ.
  2: { left. split; [done|]. injection Happ as <-. done. }
  right. bind_inv Happ. bind_inv Happ.
  apply assertString_Ok in Ha0, Ha1. exists a0, a1.
  split; [done|]. split; [done|]. split; [done|].
  destruct (ParseQuantity a0) as [qc|] eqn:Hqc.
  2: { left. injection Happ as <-. split; [by left|done]. }
  destruct (ParseQuantity a1) as [qm|] eqn:Hqm.
  2: { left. injection Happ as <-. split; [by right|done]. }
  right. do 4 bind_inv Happ. injection Happ as <-.
  rewrite Hc1 in *. exists qc, qm, a2, a3, a4, a5. by repeat split.
Qed.

Lemma reset_Ok m k expect m' :
  reset m k expect = Ok m' →
  resource.nano (quantityAt m' k) = resource.nano expect
  ∧ (∀ k', k' ≠ k → quantityAt m' k' = quantityAt m k')
  ∧ reset m' k expect = Ok m'.
Proof.
  unfold reset. destruct (decide _) as [Heq|Hne].
  - intros [= <-]. rewrite decide_True by done. split; [by apply Cmp_zero|done].
  - destruct m as [l|]; simpl; [|done]. intros [= <-].
    assert (Hset : resource.nano (quantityAt (Some (<[k := expect]> l)) k)
                   = resource.nano expect).
    { unfold quantityAt. by rewrite lookup_insert_eq. }
    split; [done|]. split.
    + intros k' Hk'. unfold quantityAt. by rewrite lookup_insert_ne.
    + rewrite decide_True; [done|]. by apply Cmp_zero.
Qed.

(** A [reset] of another entry does not undo this one. *)
Lemma reset_stable m k expect m' k' expect' :
  k' ≠ k →
  resource.nano (quantityAt m k') = resource.nano expect' →
  reset m k expect = Ok m' →
  reset m' k' expect' = Ok m'.
Proof.
  intros Hk Hheld Hreset. apply reset_Ok in Hreset as (_ & Hother & _).
  unfold reset. rewrite decide_True; [done|].
  apply Cmp_zero. by rewrite Hother.
Qed.

Lemma applyConfig_ContainerName configs container container' :
  applyConfig configs container = Ok container' →
  ContainerName container' = ContainerName container.
Proof.
  unfold applyConfig. intros Happ. bind_inv Happ.
  set (c1 := match configs !! "arguments" with
             | Some (AStrSlice arguments) => _ | _ => _ end) in Happ.
  assert (Hc1 : ContainerName c1 = ContainerName container).
  { subst c1. by destruct (configs !! "arguments") as [[]|]. }
  destruct (negb _); [by injection Happ as <-|].
  bind_inv Happ. bind_inv Happ.
  destruct (ParseQuantity a0); [|by injection Happ as <-].
  destruct (ParseQuantity a1); [|by injection Happ as <-].
  do 4 bind_inv Happ. by injection Happ as <-.
Qed.

(** X8: with the marker [autoscale], a [cpu] or [memory] string that is
    not a quantity leaves the requests and limits of the container as
    they were: the merge logs the error and returns. *)
Theorem autoscale_with_bad_quantity_keeps_resources
  configs container container' sc sm :
  configs !! "resource" = Some (AString "autoscale") →
  configs !! "cpu" = Some (AString sc) →
  configs !! "memory" = Some (AString sm) →
  ParseQuantity sc = None ∨ ParseQuantity sm = None →
  applyConfig configs container = Ok container' →
  Resources container' = Resources container.
Proof.
  intros Hres Hcpu Hmem Hbad Happ.
  destruct (applyConfig_resources _ _ _ Happ)
    as [[_ Hsame]|(sc' & sm' & _ & Hcpu' & Hmem' & Hcase)]; [done|].
  rewrite Hcpu in Hcpu'. rewrite Hmem in Hmem'.
  injection Hcpu' as <-. injection Hmem' as <-.
  destruct Hcase as [[_ Hsame]|(qc & qm & ? & ? & ? & ? & Hqc & Hqm & _)]; [done|].
  destruct Hbad; congruence.
Qed.

(** X9: with the marker and two quantities that parse, a merge that
    returns leaves the request and the limit of the CPU equal in value to
    the parsed [cpu], those of the memory equal in value to the parsed
    [memory], and every other resource of the container, the ephemeral
    storage for one, as the template had it. *)
Theorem autoscale_sets_request_and_limit
  configs container container' sc sm qc qm :
  configs !! "resource" = Some (AString "autoscale") →
  configs !! "cpu" = Some (AString sc) →
  configs !! "memory" = Some (AString sm) →
  ParseQuantity sc = Some qc → ParseQuantity sm = Some qm →
  applyConfig configs container = Ok container' →
  resource.Cmp (quantityAt (Requests (Resources container')) ResourceCPU) qc = 0
  ∧ resource.Cmp (quantityAt (Limits (Resources container')) ResourceCPU) qc = 0
  ∧ resource.Cmp (quantityAt (Requests (Resources container')) ResourceMemory) qm = 0
  ∧ resource.Cmp (quantityAt (Limits (Resources container')) ResourceMemory) qm = 0
  ∧ ∀ k, k ≠ ResourceCPU → k ≠ ResourceMemory →
         quantityAt (Requests (Resources container')) k
         = quantityAt (Requests (Resources container)) k
         ∧ quantityAt (Limits (Resources container')) k
           = quantityAt (Limits (Resources container)) k.
Proof.
  intros Hres Hcpu Hmem Hqc Hqm Happ.
  destruct (applyConfig_resources _ _ _ Happ)
    as [[Hauto _]|(sc' & sm' & _ & Hcpu' & Hmem' & Hcase)].
  { unfold isAutoscale in Hauto. rewrite Hres in Hauto.
    by rewrite bool_decide_eq_true_2 in Hauto. }
  rewrite Hcpu in Hcpu'. rewrite Hmem in Hmem'.
  injection Hcpu' as <-. injection Hmem' as <-.
  destruct Hcase as [[[Hbad|Hbad] _]|
    (qc' & qm' & r1 & r2 & l1 & l2 & Hqc' & Hqm' & Hr1 & Hr2 & Hl1 & Hl2 & ->)];
    [congruence|congruence|].
  rewrite Hqc in Hqc'. rewrite Hqm in Hqm'.
  injection Hqc' as <-. injection Hqm' as <-.
  apply reset_Ok in Hr1 as (Hr1 & Hr1' & _). apply reset_Ok in Hr2 as (Hr2 & Hr2' & _).
  apply reset_Ok in Hl1 as (Hl1 & Hl1' & _). apply reset_Ok in Hl2 as (Hl2 & Hl2' & _).
  simpl. rewrite !Cmp_zero.
  split; [by rewrite Hr2'|]. split; [by rewrite Hl2'|].
  split; [done|]. split; [done|].
  intros k Hk1 Hk2. by rewrite Hr2', Hr1', Hl2', Hl1'.
Qed.

(** X10: the merge is idempotent on the resources: merged a second time
    with the same configuration, a container keeps the requests and
    limits the first merge gave it. *)
Theorem applyConfig_twice_same_resources configs container once twice :
  applyConfig configs container = Ok once →
  applyConfig configs once = Ok twice →
  Resources twice = Resources once.
Proof.
  intros Hfirst Hsecond.
  destruct (applyConfig_resources _ _ _ Hsecond)
    as [[_ Hsame]|(sc & sm & Hauto2 & Hcpu & Hmem & Hcase)]; [done|].
  destruct Hcase as [[_ Hsame]|
    (qc & qm & r1 & r2 & l1 & l2 & Hqc & Hqm & Hr1 & Hr2 & Hl1 & Hl2 & ->)]; [done|].
  destruct (applyConfig_resources _ _ _ Hfirst)
    as [[Hauto _]|(sc' & sm' & Hauto & Hcpu' & Hmem' & Hcase)]; [congruence|].
  rewrite Hcpu in Hcpu'. rewrite Hmem in Hmem'.
  injection Hcpu' as <-. injection Hmem' as <-.
  destruct Hcase as [[[Hbad|Hbad] _]|
    (qc' & qm' & p1 & p2 & k1 & k2 & Hqc' & Hqm' & Hp1 & Hp2 & Hk1 & Hk2 & Hres1)];
    [congruence|congruence|].
  rewrite Hqc in Hqc'. rewrite Hqm in Hqm'.
  injection Hqc' as <-. injection Hqm' as <-.
  rewrite Hres1 in *. simpl in *.
  assert (Hr1' : reset p2 ResourceCPU qc = Ok p2).
  { apply (reset_stable p1 ResourceMemory qm p2 ResourceCPU qc); [done| |done].
    by apply reset_Ok in Hp1 as [? _]. }
  assert (Hl1' : reset k2 ResourceCPU qc = Ok k2).
  { apply (reset_stable k1 ResourceMemory qm k2 ResourceCPU qc); [done| |done].
    by apply reset_Ok in Hk1 as [? _]. }
  rewrite Hr1' in Hr1. rewrite Hl1' in Hl1.
  injection Hr1 as <-. injection Hl1 as <-.
  apply reset_Ok in Hp2 as (_ & _ & Hp2). apply reset_Ok in Hk2 as (_ & _ & Hk2).
  rewrite Hp2 in Hr2. rewrite Hk2 in Hl2. by injection Hr2 as <-; injection Hl2 as <-.
Qed.

End ApplyConfigMore.

Lemma autoscale_with_bad_quantity_keeps_resources_witness :
  ∃ container',
    @PodHandler.applyConfig imports Inputs.documented Scenario.mainContainer
    = Go.Ok container'
    ∧ corev1.Resources container' = corev1.Resources Scenario.mainContainer.
Proof.
  destruct (@PodHandler.applyConfig imports Inputs.documented Scenario.mainContainer)
    as [container'|msg] eqn:Happ; [|vm_compute in Happ; discriminate].
  exists container'. split; [done|].
  apply (@autoscale_with_bad_quantity_keeps_resources imports Inputs.documented
           Scenario.mainContainer container' "1C" "2G");
    [reflexivity | reflexivity | reflexivity | left; vm_compute; reflexivity | exact Happ].
Defined.

Lemma autoscale_sets_request_and_limit_witness :
  ∃ container',
    @PodHandler.applyConfig imports Scenario.autoscale Scenario.mainContainer
    = Go.Ok container'
    ∧ resource.Cmp
        (corev1.quantityAt (corev1.Requests (corev1.Resources container'))
           corev1.ResourceCPU)
        (resource.NewQuantity 2 resource.DecimalSI) = 0.
Proof.
  destruct (@PodHandler.applyConfig imports Scenario.autoscale Scenario.mainContainer)
    as [container'|msg] eqn:Happ; [|vm_compute in Happ; discriminate].
  exists container'. split; [done|].
  apply (@autoscale_sets_request_and_limit imports Scenario.autoscale
           Scenario.mainContainer container' "2" "4G"
           (resource.NewQuantity 2 resource.DecimalSI)
           (resource.NewQuantity 4000000000 resource.DecimalSI));
    [reflexivity | reflexivity | reflexivity | vm_compute; reflexivity
    | vm_compute; reflexivity | exact Happ].
Defined.

Lemma applyConfig_twice_same_resources_witness :
  ∃ once twice,
    @PodHandler.applyConfig imports Scenario.autoscale Scenario.mainContainer
    = Go.Ok once
    ∧ @PodHandler.applyConfig imports Scenario.autoscale once = Go.Ok twice
    ∧ corev1.Resources twice = corev1.Resources once.
Proof.
  destruct (@PodHandler.applyConfig imports Scenario.autoscale Scenario.mainContainer)
    as [once|msg] eqn:Hfirst; [|vm_compute in Hfirst; discriminate].
  destruct (@PodHandler.applyConfig imports Scenario.autoscale once)
    as [twice|msg] eqn:Hsecond.
  - exists once, twice. split; [done|]. split; [done|].
    exact (@applyConfig_twice_same_resources imports Scenario.autoscale
             Scenario.mainContainer once twice Hfirst Hsecond).
  - exfalso. vm_compute in Hfirst. injection Hfirst as <-.
    vm_compute in Hsecond. discriminate.
Defined.

(** ** The pod that is submitted *)

Section RenderFacts.
Context `{Imports} `{Host}.
Import Go corev1 PodHandler.

Lemma mergeContainers_names aenv image i containers merged :
  mergeContainers aenv image i containers = Ok merged →
  ContainerName <$> merged = ContainerName <$> containers.
Proof.
  revert i merged. induction containers as [|c rest IH]; intros i merged; simpl.
  - by intros [= <-].
  - intros Hm. bind_inv Hm. bind_inv Hm. bind_inv Hm. injection Hm as <-.
    rewrite fmap_cons, (IH _ _ Ha1). f_equal.
    rewrite (applyConfig_ContainerName _ _ _ Ha0).
    destruct (decide (i = 1%nat)); [|by injection Ha as <-].
    destruct (DeployConfig aenv !! "secondImageName"); [|by injection Ha as <-].
    bind_inv Ha. by injection Ha as <-.
Qed.

Lemma renderPod_keeps_the_template_lemma aenvHubEnv template pod :
  PodTemplate.LoadPodTemplateFromYaml (templateTypeOf aenvHubEnv) = Ok (Some template) →
  renderPod aenvHubEnv = Ok pod →
  PodName pod = EnvName aenvHubEnv +:+ "-" +:+ RandString 6
  ∧ Namespace pod = Namespace template
  ∧ ContainerName <$> Containers pod = ContainerName <$> Containers template
  ∧ Containers pod ≠ []
  ∧ ContainerName <$> InitContainers pod = ContainerName <$> InitContainers template
  ∧ Forall (λ c, Image c = primaryImage aenvHubEnv) (InitContainers pod)
  ∧ ∀ k, k ≠ AENV_TTL → labelAt pod k = labelAt template k.
Proof.
  unfold renderPod. intros Hload Hrender. rewrite Hload in Hrender.
  cbn in Hrender. bind_inv Hrender.
  unfold MergePodImage in Ha. bind_inv Ha. injection Ha as <-.
  apply mergeContainers_names in Ha0. cbn in Hrender.
  destruct a0 as [|c rest]; [done|].
  assert (Hinit : ContainerName <$>
                    ((λ c, setImage c (primaryImage aenvHubEnv)) <$> InitContainers template)
                  = ContainerName <$> InitContainers template).
  { rewrite <- list_fmap_compose. by apply list_fmap_ext. }
  assert (Himages : Forall (λ c, Image c = primaryImage aenvHubEnv)
                      ((λ c, setImage c (primaryImage aenvHubEnv))
                         <$> InitContainers template)).
  { apply Forall_fmap, Forall_true. done. }
  destruct (DeployConfig aenvHubEnv !! "ttl") as [ttl|].
  - destruct ttl; simpl in Hrender; try discriminate Hrender;
      injection Hrender as <-; simpl; repeat split; try done.
    intros k Hk. unfold labelAt. simpl. rewrite lookup_insert_ne by done.
    destruct (Labels template); simpl; [done|]. by rewrite lookup_empty.
  - injection Hrender as <-. simpl. by repeat split.
Qed.

(** X11: the pod [createPod] submits is the template of the request with
    the name of the environment, a dash and the random suffix as its
    name; it keeps the namespace and the containers of the template by
    name and number, has at least one container, gives every init
    container the primary image, and keeps every label of the template
    but the TTL label. *)
Theorem renderPod_keeps_the_template aenvHubEnv template pod :
  PodTemplate.LoadPodTemplateFromYaml (templateTypeOf aenvHubEnv) = Ok (Some template) →
  renderPod aenvHubEnv = Ok pod →
  PodName pod = EnvName aenvHubEnv +:+ "-" +:+ RandString 6
  ∧ Namespace pod = Namespace template
  ∧ ContainerName <$> Containers pod = ContainerName <$> Containers template
  ∧ Containers pod ≠ []
  ∧ ContainerName <$> InitContainers pod = ContainerName <$> InitContainers template
  ∧ Forall (λ c, Image c = primaryImage aenvHubEnv) (InitContainers pod)
  ∧ ∀ k, k ≠ AENV_TTL → labelAt pod k = labelAt template k.
Proof. apply renderPod_keeps_the_template_lemma. Qed.

(** X12: the arguments of a request of the gateway never reach a
    container.  They are sent as a JSON array, which the controller
    decodes as a slice of [interface{}]; [applyConfig] appends only a
    slice of strings, so for every environment the gateway posts the
    merge leaves the arguments of the container as the template has
    them. *)
Theorem posted_arguments_are_not_applied req backendEnv posted container container' :
  Gateway.CreateEnvInstance_posted req backendEnv = Ok posted →
  applyConfig (DeployConfig posted) container = Ok container' →
  Args container' = Args container.
Proof.
  intros Hposted Happ.
  unfold Gateway.CreateEnvInstance_posted in Hposted. bind_inv Hposted.
  injection Hposted as <-. unfold Gateway.posted in Happ. simpl in Happ.
  set (configs := Gateway.wire <$> default ∅ a) in *.
  assert (Hargs : ∀ l, configs !! "arguments" ≠ Some (AStrSlice l)).
  { intros l. subst configs. rewrite lookup_fmap.
    destruct (default ∅ a !! "arguments") as [[]|]; simpl; congruence. }
  unfold applyConfig in Happ. bind_inv Happ.
  set (c1 := match configs !! "arguments" with
             | Some (AStrSlice arguments) => _ | _ => _ end) in Happ.
  assert (Hc1 : Args c1 = Args container).
  { subst c1. destruct (configs !! "arguments") as [[]|] eqn:Hl; try done.
    by destruct (Hargs l). }
  destruct (negb _); [by injection Happ as <-|].
  bind_inv Happ. bind_inv Happ.
  destruct (ParseQuantity a1); [|by injection Happ as <-].
  destruct (ParseQuantity a2); [|by injection Happ as <-].
  do 4 bind_inv Happ. by injection Happ as <-.
Qed.

End RenderFacts.

Lemma renderPod_keeps_the_template_witness :
  ∃ pod,
    @PodHandler.renderPod imports Scenario.host Scenario.dualRequest = Go.Ok pod
    ∧ corev1.PodName pod = "swe-abc123"
    ∧ corev1.Namespace pod = "aenv"
    ∧ corev1.ContainerName <$> corev1.Containers pod = ["main"; "second"].
Proof.
  destruct (@PodHandler.renderPod imports Scenario.host Scenario.dualRequest)
    as [pod|msg] eqn:Hrender; [|vm_compute in Hrender; discriminate].
  exists pod. split; [done|].
  destruct (@renderPod_keeps_the_template imports Scenario.host Scenario.dualRequest
              Scenario.dualTemplate pod) as (Hname & Hns & Hcs & _).
  - vm_compute. reflexivity.
  - exact Hrender.
  - split; [exact Hname|]. split; [exact Hns|]. exact Hcs.
Defined.

Lemma posted_arguments_are_not_applied_witness :
  ∃ posted container',
    Gateway.CreateEnvInstance_posted Inputs.withArguments (Scenario.backendEnv ∅)
    = Go.Ok posted
    ∧ @PodHandler.applyConfig imports (PodHandler.DeployConfig posted)
        Scenario.mainContainer = Go.Ok container'
    ∧ corev1.Args container' = [].
Proof.
  destruct (Gateway.CreateEnvInstance_posted Inputs.withArguments
              (Scenario.backendEnv ∅)) as [posted|msg] eqn:Hposted;
    [|vm_compute in Hposted; discriminate].
  destruct (@PodHandler.applyConfig imports (PodHandler.DeployConfig posted)
              Scenario.mainContainer) as [container'|msg] eqn:Happ.
  - exists posted, container'. split; [done|]. split; [done|].
    exact (@posted_arguments_are_not_applied imports Inputs.withArguments
             (Scenario.backendEnv ∅) posted Scenario.mainContainer container'
             Hposted Happ).
  - exfalso. vm_compute in Hposted. injection Hposted as <-.
    vm_compute in Happ. discriminate.
Defined.

(** ** [MergePod] *)

Section MergePodFacts.
Import Go corev1 PodTemplate.

Lemma MergePod_Containers pod labels environs memory ephemeralStorage image :
  Containers (MergePod pod labels environs memory ephemeralStorage image)
  = (λ c, setImage (updateResources memory ephemeralStorage c) image)
      <$> match environs with
          | Some kvs => mergeEnvVars kvs (Containers pod)
          | None => Containers pod
          end
  ∧ InitContainers (MergePod pod labels environs memory ephemeralStorage image)
    = (λ c, setImage (updateResources memory ephemeralStorage c) image)
        <$> match environs with
            | Some kvs => mergeEnvVars kvs (InitContainers pod)
            | None => InitContainers pod
            end.
Proof. unfold MergePod. by destruct labels, environs. Qed.

Lemma updateResources_fields memory ephemeralStorage c :
  ContainerName (updateResources memory ephemeralStorage c) = ContainerName c
  ∧ Env (updateResources memory ephemeralStorage c) = Env c
  ∧ Args (updateResources memory ephemeralStorage c) = Args c
  ∧ Image (updateResources memory ephemeralStorage c) = Image c.
Proof. unfold updateResources. by repeat (destruct (_ && _)). Qed.

(** X13: after [MergePod] every container and every init container of
    the pod has the image given, and the pod has the containers it had,
    by name and in the same order, its name and its namespace. *)
Theorem MergePod_sets_every_image pod labels environs memory ephemeralStorage image :
  let merged := MergePod pod labels environs memory ephemeralStorage image in
  Forall (λ c, Image c = image) (Containers merged)
  ∧ Forall (λ c, Image c = image) (InitContainers merged)
  ∧ ContainerName <$> Containers merged = ContainerName <$> Containers pod
  ∧ ContainerName <$> InitContainers merged = ContainerName <$> InitContainers pod
  ∧ PodName merged = PodName pod
  ∧ Namespace merged = Namespace pod.
Proof.
  intros merged. subst merged.
  destruct (MergePod_Containers pod labels environs memory ephemeralStorage image)
    as [-> ->].
  assert (Hnames : ∀ l : list Container,
            ContainerName <$>
              ((λ c, setImage (updateResources memory ephemeralStorage c) image)
                 <$> match environs with
                     | Some kvs => mergeEnvVars kvs l
                     | None => l
                     end)
            = ContainerName <$> l).
  { intros l. rewrite <- list_fmap_compose.
    destruct environs as [kvs|]; unfold mergeEnvVars;
      rewrite <- ?list_fmap_compose; apply list_fmap_ext; intros ? c _; simpl;
      by destruct (updateResources_fields memory ephemeralStorage c) as [-> _] ||
         by destruct (updateResources_fields memory ephemeralStorage
                        (setEnv c (foldl mergeEnvVar (Env c) kvs))) as [-> _]. }
  split; [by apply Forall_fmap, Forall_true|].
  split; [by apply Forall_fmap, Forall_true|].
  split; [apply Hnames|]. split; [apply Hnames|].
  unfold MergePod. by destruct labels, environs.
Qed.

End MergePodFacts.

Section MergePodResources.
Import Go corev1 PodTemplate.

Lemma memory_test memory :
  (256 <=? memory) && (memory <=? 8192) = bool_decide (memoryInBounds memory).
Proof.
  unfold memoryInBounds.
  destruct (Z.leb_spec 256 memory), (Z.leb_spec memory 8192); simpl; symmetry;
    (apply bool_decide_eq_true_2 || apply bool_decide_eq_false_2); lia.
Qed.

Lemma storage_test ephemeralStorage :
  (minEphemeralStorageBytes <=? ephemeralStorage)
  && (ephemeralStorage <=? maxEphemeralStorageBytes)
  = bool_decide (storageInBounds ephemeralStorage).
Proof.
  unfold storageInBounds, minEphemeralStorageBytes, maxEphemeralStorageBytes.
  destruct (Z.leb_spec (1 * 1024 * 1024 * 1024) ephemeralStorage),
    (Z.leb_spec ephemeralStorage (50 * 1024 * 1024 * 1024)); simpl; symmetry;
    (apply bool_decide_eq_true_2 || apply bool_decide_eq_false_2); lia.
Qed.

Lemma updateResources_quantities memory ephemeralStorage c :
  let c' := updateResources memory ephemeralStorage c in
  let memQty := resource.NewQuantity (memory * 1024 * 1024) resource.BinarySI in
  let storageQty := resource.NewQuantity ephemeralStorage resource.BinarySI in
  (memoryInBounds memory →
     quantityAt (Requests (Resources c')) ResourceMemory = memQty
     ∧ quantityAt (Limits (Resources c')) ResourceMemory = memQty)
  ∧ (¬ memoryInBounds memory →
       quantityAt (Requests (Resources c')) ResourceMemory
       = quantityAt (Requests (Resources c)) ResourceMemory
       ∧ quantityAt (Limits (Resources c')) ResourceMemory
         = quantityAt (Limits (Resources c)) ResourceMemory)
  ∧ (storageInBounds ephemeralStorage →
       quantityAt (Requests (Resources c')) ResourceEphemeralStorage = storageQty
       ∧ quantityAt (Limits (Resources c')) ResourceEphemeralStorage = storageQty)
  ∧ (¬ storageInBounds ephemeralStorage →
       quantityAt (Requests (Resources c')) ResourceEphemeralStorage
       = quantityAt (Requests (Resources c)) ResourceEphemeralStorage
       ∧ quantityAt (Limits (Resources c')) ResourceEphemeralStorage
         = quantityAt (Limits (Resources c)) ResourceEphemeralStorage)
  ∧ (∀ k, k ≠ ResourceMemory → k ≠ ResourceEphemeralStorage →
       quantityAt (Requests (Resources c')) k = quantityAt (Requests (Resources c)) k
       ∧ quantityAt (Limits (Resources c')) k = quantityAt (Limits (Resources c)) k).
Proof.
  intros c' memQty storageQty. subst c'. unfold updateResources.
  rewrite memory_test, storage_test.
  destruct c as [name image args env [limits requests]].
  do 2 case_bool_decide; simpl; unfold quantityAt, orEmpty;
    (split; [intros ?|split; [intros ?|split; [intros ?|split; [intros ?|intros k ? ?]]]]);
    try done;
    destruct limits, requests; simpl;
    repeat first [rewrite lookup_insert_eq | rewrite lookup_insert_ne by done
                 | rewrite lookup_empty];
    done.
Qed.

(** X14: [MergePod] sizes every container alike.  A memory between 256
    and 8192 MiB becomes both the request and the limit, as that many
    mebibytes; an ephemeral storage between 1 and 50 GiB becomes both the
    request and the limit; a value outside its bounds changes nothing;
    and no other resource of the container, the CPU for one, is
    touched. *)
Theorem MergePod_sizes_within_bounds pod labels environs memory ephemeralStorage image :
  Forall2 (ResourcesMerged memory ephemeralStorage)
    (Containers pod)
    (Containers (MergePod pod labels environs memory ephemeralStorage image))
  ∧ Forall2 (ResourcesMerged memory ephemeralStorage)
      (InitContainers pod)
      (InitContainers (MergePod pod labels environs memory ephemeralStorage image)).
Proof.
  destruct (MergePod_Containers pod labels environs memory ephemeralStorage image)
    as [-> ->].
  assert (Hall : ∀ l : list Container,
            Forall2 (ResourcesMerged memory ephemeralStorage) l
              ((λ c, setImage (updateResources memory ephemeralStorage c) image)
                 <$> match environs with
                     | Some kvs => mergeEnvVars kvs l
                     | None => l
                     end)).
  { intros l. apply Forall2_fmap_r.
    destruct environs as [kvs|]; [unfold mergeEnvVars; apply Forall2_fmap_r|];
      apply Forall_Forall2_diag, Forall_true; intros c;
      unfold ResourcesMerged; simpl.
    - apply (updateResources_quantities memory ephemeralStorage
               (setEnv c (foldl mergeEnvVar (Env c) kvs))).
    - apply (updateResources_quantities memory ephemeralStorage c). }
  split; apply Hall.
Qed.

End MergePodResources.

Lemma MergePod_sizes_within_bounds_witness :
  ∃ c',
    corev1.Containers
      (PodTemplate.MergePod Scenario.singleTemplate None None 2048 10 "img:2")
    = [c']
    ∧ corev1.quantityAt (corev1.Requests (corev1.Resources c')) corev1.ResourceMemory
      = resource.NewQuantity 2147483648 resource.BinarySI
    ∧ corev1.quantityAt (corev1.Limits (corev1.Resources c'))
        corev1.ResourceEphemeralStorage = resource.zeroQuantity.
Proof.
  destruct (MergePod_sizes_within_bounds Scenario.singleTemplate None None 2048 10
              "img:2") as [Hcs _].
  destruct (corev1.Containers
              (PodTemplate.MergePod Scenario.singleTemplate None None 2048 10 "img:2"))
    as [|c' [|]] eqn:Hmerged; try (vm_compute in Hmerged; discriminate).
  exists c'. split; [done|].
  apply Forall2_cons_1 in Hcs as [(Hmem & _ & _ & Hstorage & _) _].
  split.
  - apply Hmem. unfold memoryInBounds. lia.
  - etrans; [apply Hstorage; unfold storageInBounds; lia|]. vm_compute. reflexivity.
Defined.

Section MergePodVariables.
Import Go corev1 PodTemplate.

Lemma overrideEnv_other env k v env' e :
  overrideEnv env k v = Some env' → e ∈ env → Name e ≠ k → e ∈ env'.
Proof.
  revert env'. induction env as [|e0 env IH]; intros env'; simpl; [done|].
  destruct (decide (Name e0 = k)) as [<-|Hne].
  - intros [= <-] Hin Hk. apply elem_of_cons in Hin as [->|Hin]; [done|].
    by apply list_elem_of_further.
  - destruct (overrideEnv env k v) as [env1|]; [|done]. simpl.
    intros [= <-] Hin Hk. apply elem_of_cons in Hin as [->|Hin].
    + apply list_elem_of_here.
    + apply list_elem_of_further. by apply IH.
Qed.

Lemma mergeEnvVar_other env k v e :
  e ∈ env → Name e ≠ k → e ∈ mergeEnvVar env (k, v).
Proof.
  intros Hin Hk. unfold mergeEnvVar. simpl.
  destruct (overrideEnv env k v) as [env'|] eqn:Hover.
  - by eapply overrideEnv_other.
  - apply elem_of_app. by left.
Qed.

Lemma mergeEnvVar_names_prefix env kv :
  Name <$> env `prefix_of` Name <$> mergeEnvVar env kv.
Proof.
  destruct kv as [k v]. unfold mergeEnvVar. simpl.
  destruct (overrideEnv env k v) as [env'|] eqn:Hover.
  - apply overrideEnv_Some in Hover as [-> _]. done.
  - rewrite fmap_app. by apply prefix_app_r.
Qed.

(** The merge of all the variables of a definition, whose names are
    distinct, into one list. *)
Lemma fold_mergeEnvVar kvs env :
  NoDup kvs.*1 →
  (∀ k v, (k, v) ∈ kvs → mkEnvVar k v ∈ foldl mergeEnvVar env kvs)
  ∧ (∀ e, e ∈ env → Name e ∉ kvs.*1 → e ∈ foldl mergeEnvVar env kvs)
  ∧ (NoDup (Name <$> env) → NoDup (Name <$> foldl mergeEnvVar env kvs))
  ∧ Name <$> env `prefix_of` Name <$> foldl mergeEnvVar env kvs.
Proof.
  revert env. induction kvs as [|[k v] kvs IH]; intros env Hkeys.
  - simpl. split; [intros k v Hin; by apply elem_of_nil in Hin|]. by repeat split.
  - rewrite fmap_cons in Hkeys. apply NoDup_cons in Hkeys as [Hfresh Hkeys].
    destruct (IH (mergeEnvVar env (k, v)) Hkeys) as (Hdef & Hkeep & Hnodup & Hprefix).
    simpl. split; [|split; [|split]].
    + intros k' v' Hin. apply elem_of_cons in Hin as [[= -> ->]|Hin]; [|by apply Hdef].
      apply Hkeep; [|done]. by apply mergeEnvVar_merges.
    + intros e He Hname. apply not_elem_of_cons in Hname as [Hk Hrest].
      apply Hkeep; [|done]. by apply mergeEnvVar_other.
    + intros Hn. apply Hnodup. by apply mergeEnvVar_merges.
    + etrans; [apply mergeEnvVar_names_prefix|done].
Qed.

(** X15: [MergePod] merges the variables of the definition into every
    container and every init container.  Each variable of the definition
    is in the list afterwards with the value given; a variable of the
    template that the definition does not name stays; the names the
    template had stay in front, in their order; and a list without
    duplicate names is still without duplicates. *)
Theorem MergePod_merges_variables pod labels kvs memory ephemeralStorage image :
  NoDup kvs.*1 →
  let merged := MergePod pod labels (Some kvs) memory ephemeralStorage image in
  let Merged c c' :=
    (∀ k v, (k, v) ∈ kvs → mkEnvVar k v ∈ Env c')
    ∧ (∀ e, e ∈ Env c → Name e ∉ kvs.*1 → e ∈ Env c')
    ∧ (NoDup (Name <$> Env c) → NoDup (Name <$> Env c'))
    ∧ Name <$> Env c `prefix_of` Name <$> Env c' in
  Forall2 Merged (Containers pod) (Containers merged)
  ∧ Forall2 Merged (InitContainers pod) (InitContainers merged).
Proof.
  intros Hkeys merged Merged. subst merged.
  destruct (MergePod_Containers pod labels (Some kvs) memory ephemeralStorage image)
    as [-> ->].
  assert (Hlist : ∀ cs,
            Forall2 Merged cs
              ((λ c, setImage (updateResources memory ephemeralStorage c) image)
                 <$> mergeEnvVars kvs cs)).
  { intros cs. unfold mergeEnvVars. apply Forall2_fmap_r, Forall2_fmap_r.
    apply Forall_Forall2_diag, Forall_true. intros c. unfold Merged. simpl.
    destruct (updateResources_fields memory ephemeralStorage
                (setEnv c (foldl mergeEnvVar (Env c) kvs))) as (_ & -> & _).
    simpl. by apply fold_mergeEnvVar. }
  split; apply Hlist.
Qed.

End MergePodVariables.

Lemma MergePod_merges_variables_witness :
  let pod :=
    corev1.mkPod "" "aenv" None "" "" 0 "" "" [Scenario.mainContainer]
      [Scenario.mainContainer] in
  ∃ c' i',
    corev1.Containers
      (PodTemplate.MergePod pod None
         (Some [("MODE", "custom"); ("PORT", "8080")]) 0 0 "img:2") = [c']
    ∧ corev1.InitContainers
        (PodTemplate.MergePod pod None
           (Some [("MODE", "custom"); ("PORT", "8080")]) 0 0 "img:2") = [i']
    ∧ corev1.mkEnvVar "MODE" "custom" ∈ corev1.Env c'
    ∧ NoDup (corev1.Name <$> corev1.Env c')
    ∧ corev1.mkEnvVar "MODE" "custom" ∈ corev1.Env i'
    ∧ NoDup (corev1.Name <$> corev1.Env i').
Proof.
  intros pod.
  destruct (corev1.Containers
              (PodTemplate.MergePod pod None
                 (Some [("MODE", "custom"); ("PORT", "8080")]) 0 0 "img:2"))
    as [|c' [|]] eqn:Hmerged; try (vm_compute in Hmerged; discriminate).
  destruct (corev1.InitContainers
              (PodTemplate.MergePod pod None
                 (Some [("MODE", "custom"); ("PORT", "8080")]) 0 0 "img:2"))
    as [|i' [|]] eqn:Hinit; try (vm_compute in Hinit; discriminate).
  exists c', i'. split; [done|]. split; [done|].
  destruct (MergePod_merges_variables pod None
              [("MODE", "custom"); ("PORT", "8080")] 0 0 "img:2") as [Hcs His];
    [compute_done|].
  rewrite Hmerged in Hcs. rewrite Hinit in His.
  apply Forall2_cons_1 in Hcs as [(Hdef & _ & Hnodup & _) _].
  apply Forall2_cons_1 in His as [(Hdef' & _ & Hnodup' & _) _].
  split; [apply Hdef; compute_done|]. split; [apply Hnodup; compute_done|].
  split; [apply Hdef'; compute_done|]. apply Hnodup'; compute_done.
Defined.

Section MergePodTwice.
Import Go corev1 PodTemplate.

Lemma firstValue_app env env' k :
  firstValue (env ++ env') k
  = match firstValue env k with Some v => Some v | None => firstValue env' k end.
Proof.
  induction env as [|e env IH]; simpl; [done|]. by destruct (decide (Name e = k)).
Qed.

Lemma firstValue_None env k : firstValue env k = None ↔ k ∉ Name <$> env.
Proof.
  induction env as [|e env IH]; simpl.
  - split; [intros _; apply not_elem_of_nil|done].
  - destruct (decide (Name e = k)) as [<-|Hne].
    + split; [done|]. intros Hnot. exfalso. apply Hnot, list_elem_of_here.
    + rewrite IH. split.
      * intros Hnot. by apply not_elem_of_cons.
      * intros Hnot. by apply not_elem_of_cons in Hnot as [_ ?].
Qed.

Lemma firstValue_override env k v env' k' :
  overrideEnv env k v = Some env' →
  firstValue env' k' = if decide (k' = k) then Some v else firstValue env k'.
Proof.
  revert env'. induction env as [|e env IH]; intros env'; simpl; [done|].
  destruct (decide (Name e = k)) as [<-|Hne].
  - intros [= <-]. simpl. destruct (decide (Name e = k')) as [<-|Hk].
    + by rewrite decide_True.
    + by rewrite decide_False.
  - destruct (overrideEnv env k v) as [env1|]; [|done]. simpl. intros [= <-]. simpl.
    destruct (decide (Name e = k')) as [<-|Hk]; [by rewrite decide_False|].
    by apply IH.
Qed.

Lemma firstValue_mergeEnvVar env k v k' :
  firstValue (mergeEnvVar env (k, v)) k'
  = if decide (k' = k) then Some v else firstValue env k'.
Proof.
  unfold mergeEnvVar. simpl.
  destruct (overrideEnv env k v) as [env'|] eqn:Hover.
  - by apply firstValue_override.
  - apply overrideEnv_None in Hover. apply firstValue_None in Hover.
    rewrite firstValue_app. simpl.
    destruct (decide (k' = k)) as [->|Hk].
    + rewrite Hover. by rewrite decide_True.
    + rewrite decide_False by done. by destruct (firstValue env k').
Qed.

(** Merging a variable that already leads with its value changes
    nothing. *)
Lemma mergeEnvVar_fixed env k v :
  firstValue env k = Some v → mergeEnvVar env (k, v) = env.
Proof.
  unfold mergeEnvVar. simpl. intros Hfirst.
  assert (Hsame : overrideEnv env k v = Some env); [|by rewrite Hsame].
  induction env as [|e env IH]; simpl in *; [done|].
  destruct (decide (Name e = k)) as [<-|Hne].
  - injection Hfirst as <-. by destruct e.
  - by rewrite IH.
Qed.

Lemma fold_mergeEnvVar_firstValue kvs env k :
  k ∉ kvs.*1 → firstValue (foldl mergeEnvVar env kvs) k = firstValue env k.
Proof.
  revert env. induction kvs as [|[k0 v0] kvs IH]; intros env Hk; simpl; [done|].
  apply not_elem_of_cons in Hk as [Hne Hk].
  rewrite IH by done. rewrite firstValue_mergeEnvVar. by rewrite decide_False.
Qed.

Lemma fold_mergeEnvVar_twice kvs env :
  NoDup kvs.*1 →
  foldl mergeEnvVar (foldl mergeEnvVar env kvs) kvs = foldl mergeEnvVar env kvs.
Proof.
  intros Hkeys.
  assert (Hheld : ∀ k v, (k, v) ∈ kvs →
            firstValue (foldl mergeEnvVar env kvs) k = Some v).
  { clear -Hkeys. revert env. induction kvs as [|[k0 v0] kvs IH]; intros env k v Hin.
    - by apply elem_of_nil in Hin.
    - rewrite fmap_cons in Hkeys. apply NoDup_cons in Hkeys as [Hfresh Hkeys].
      simpl. apply elem_of_cons in Hin as [[= -> ->]|Hin]; [|by apply IH].
      rewrite fold_mergeEnvVar_firstValue by done.
      rewrite firstValue_mergeEnvVar. by rewrite decide_True. }
  generalize dependent (foldl mergeEnvVar env kvs). clear. intros env' Hheld.
  induction kvs as [|[k v] kvs IH]; simpl; [done|].
  rewrite mergeEnvVar_fixed by (apply Hheld, list_elem_of_here).
  apply IH. intros k' v' Hin. by apply Hheld, list_elem_of_further.
Qed.

Lemma fold_insert_union (kvs : list (string * string)) (m : gmap string string) :
  foldl (λ m kv, <[kv.1 := kv.2]> m) m kvs = list_to_map (reverse kvs) ∪ m.
Proof.
  revert m. induction kvs as [|[k v] kvs IH]; intros m; simpl.
  - by rewrite map_empty_union.
  - rewrite IH, reverse_cons, list_to_map_app. simpl.
    rewrite insert_empty, <- map_union_assoc. by rewrite <- insert_union_singleton_l.
Qed.

Lemma fold_insert_twice (kvs : list (string * string)) (m : gmap string string) :
  foldl (λ m kv, <[kv.1 := kv.2]> m) (foldl (λ m kv, <[kv.1 := kv.2]> m) m kvs) kvs
  = foldl (λ m kv, <[kv.1 := kv.2]> m) m kvs.
Proof.
  rewrite !fold_insert_union, map_union_assoc. by rewrite map_union_idemp.
Qed.

Lemma updateResources_twice memory ephemeralStorage c :
  updateResources memory ephemeralStorage (updateResources memory ephemeralStorage c)
  = updateResources memory ephemeralStorage c.
Proof.
  unfold updateResources. rewrite memory_test, storage_test.
  destruct c as [name image args env [limits requests]].
  do 2 case_bool_decide; simpl; unfold setResources; simpl; try done;
    do 2 f_equal; f_equal; apply map_eq; intros k;
    destruct (decide (k = ResourceMemory)) as [Hm|Hm];
    destruct (decide (k = ResourceEphemeralStorage)) as [Hs|Hs];
    try (rewrite Hm in Hs; discriminate Hs); try rewrite Hm; try rewrite Hs;
    repeat first [rewrite lookup_insert_eq | rewrite lookup_insert_ne by done];
    done.
Qed.

Lemma updateResources_setImage memory ephemeralStorage c image :
  updateResources memory ephemeralStorage (setImage c image)
  = setImage (updateResources memory ephemeralStorage c) image.
Proof.
  unfold updateResources. destruct c as [name i args env [limits requests]].
  by do 2 destruct (_ && _).
Qed.

(** What [MergePod] does to one container, done twice. *)
Lemma mergeContainer_twice environs memory ephemeralStorage image c :
  (∀ kvs, environs = Some kvs → NoDup kvs.*1) →
  let merge c :=
    setImage (updateResources memory ephemeralStorage
                match environs with
                | Some kvs => setEnv c (foldl mergeEnvVar (Env c) kvs)
                | None => c
                end) image in
  merge (merge c) = merge c.
Proof.
  intros Hkeys merge. subst merge. cbv beta.
  set (x := match environs with
            | Some kvs => setEnv c (foldl mergeEnvVar (Env c) kvs)
            | None => c
            end).
  set (y := setImage (updateResources memory ephemeralStorage x) image).
  assert (Hsame : match environs with
                  | Some kvs => setEnv y (foldl mergeEnvVar (Env y) kvs)
                  | None => y
                  end = y).
  { destruct environs as [kvs|]; [|done].
    assert (HEnv : Env y = foldl mergeEnvVar (Env c) kvs).
    { subst y x. simpl.
      by destruct (updateResources_fields memory ephemeralStorage
                     (setEnv c (foldl mergeEnvVar (Env c) kvs))) as (_ & -> & _). }
    rewrite HEnv, fold_mergeEnvVar_twice by (by apply Hkeys).
    rewrite <- HEnv. by destruct y. }
  rewrite Hsame. subst y.
  rewrite updateResources_setImage, updateResources_twice.
  by destruct (updateResources memory ephemeralStorage x).
Qed.

(** X16: [MergePod] is idempotent: merged a second time with the same
    labels, variables (of distinct names), memory, storage and image, a
    pod stays as the first merge left it; nothing is appended twice. *)
Theorem MergePod_twice_is_once pod labels environs memory ephemeralStorage image :
  (∀ kvs, environs = Some kvs → NoDup kvs.*1) →
  MergePod (MergePod pod labels environs memory ephemeralStorage image)
    labels environs memory ephemeralStorage image
  = MergePod pod labels environs memory ephemeralStorage image.
Proof.
  intros Hkeys.
  pose proof (mergeContainer_twice environs memory ephemeralStorage image) as Hc.
  assert (Hlist : ∀ l : list Container,
            (λ c, setImage (updateResources memory ephemeralStorage c) image)
              <$> match environs with
                  | Some kvs =>
                      mergeEnvVars kvs
                        ((λ c, setImage (updateResources memory ephemeralStorage c) image)
                           <$> match environs with
                               | Some kvs => mergeEnvVars kvs l
                               | None => l
                               end)
                  | None =>
                      (λ c, setImage (updateResources memory ephemeralStorage c) image)
                        <$> match environs with
                            | Some kvs => mergeEnvVars kvs l
                            | None => l
                            end
                  end
            = (λ c, setImage (updateResources memory ephemeralStorage c) image)
                <$> match environs with
                    | Some kvs => mergeEnvVars kvs l
                    | None => l
                    end).
  { intros l. destruct environs as [kvs|]; unfold mergeEnvVars;
      rewrite <- !list_fmap_compose; apply list_fmap_ext; intros ? c _;
      by apply (Hc c). }
  destruct pod as [name ns lbls rv uid created phase ip inits cs].
  unfold MergePod. destruct labels as [lkvs|], environs as [kvs|];
    unfold setLabels, setContainers; simpl; f_equal;
    try (f_equal; apply fold_insert_twice);
    try apply (Hlist inits); try apply (Hlist cs).
Qed.

End MergePodTwice.

Lemma MergePod_twice_is_once_witness :
  let merge pod :=
    PodTemplate.MergePod pod (Some [("team", "rl")])
      (Some [("MODE", "custom"); ("PORT", "8080")]) 2048 10737418240 "img:2" in
  merge (merge Scenario.dualTemplate) = merge Scenario.dualTemplate.
Proof.
  apply (MergePod_twice_is_once Scenario.dualTemplate (Some [("team", "rl")])
           (Some [("MODE", "custom"); ("PORT", "8080")]) 2048 10737418240 "img:2").
  intros kvs [= <-]. compute_done.
Defined.

Section MergePodLabels.
Import Go corev1 PodTemplate.

(** X17: [MergePod] adds the labels given to those of the pod: a label
    given has the value given afterwards, every other label is as it
    was; and without labels to merge the labels of the pod are not
    touched, a pod without labels stays without. *)
Theorem MergePod_merges_labels pod labels environs memory ephemeralStorage image :
  let merged := MergePod pod labels environs memory ephemeralStorage image in
  (labels = None → Labels merged = Labels pod)
  ∧ (∀ kvs, labels = Some kvs → NoDup kvs.*1 →
       (∀ k v, (k, v) ∈ kvs → labelAt merged k = v)
       ∧ (∀ k, k ∉ kvs.*1 → labelAt merged k = labelAt pod k)).
Proof.
  intros merged. subst merged. split.
  - intros ->. unfold MergePod. by destruct environs.
  - intros kvs -> Hkeys.
    assert (Hlabels : Labels (MergePod pod (Some kvs) environs memory
                                ephemeralStorage image)
                      = Some (list_to_map (reverse kvs) ∪ default ∅ (Labels pod))).
    { unfold MergePod. rewrite <- fold_insert_union. by destruct environs. }
    unfold labelAt. rewrite Hlabels. simpl.
    assert (Hrev : NoDup (reverse kvs).*1).
    { by rewrite fmap_reverse, reverse_Permutation. }
    split.
    + intros k v Hin.
      assert (Hl : (list_to_map (reverse kvs) : gmap string string) !! k = Some v).
      { apply elem_of_list_to_map; [done|]. by apply elem_of_reverse. }
      by rewrite (lookup_union_Some_l _ _ _ _ Hl).
    + intros k Hk.
      assert (Hl : (list_to_map (reverse kvs) : gmap string string) !! k = None).
      { apply not_elem_of_list_to_map. by rewrite fmap_reverse, elem_of_reverse. }
      rewrite lookup_union_r by done.
      destruct (Labels pod); simpl; [done|]. by rewrite lookup_empty.
Qed.

End MergePodLabels.

Lemma MergePod_merges_labels_witness :
  let merged :=
    PodTemplate.MergePod Scenario.podC (Some [("team", "rl")]) None 0 0 "img:2" in
  corev1.labelAt merged "team" = "rl" ∧ corev1.labelAt merged "aenv-ttl" = "1m".
Proof.
  destruct (MergePod_merges_labels Scenario.podC (Some [("team", "rl")]) None 0 0
              "img:2") as [_ Hsome].
  destruct (Hsome [("team", "rl")] eq_refl) as [Hgiven Hother]; [compute_done|].
  split.
  - apply Hgiven. compute_done.
  - etrans; [apply Hother; compute_done|]. vm_compute. reflexivity.
Defined.

(** ** Loading a template *)

Section LoadFacts.
Context `{Imports} `{Host}.
Import Go corev1 PodTemplate PodHandler.

Lemma legacyFileName_cases machineType :
  legacyFileName machineType
  = if decide (machineType = "win64")
    then "/home/admin/pod_template_windows/config.yaml"
    else if decide (machineType = "Terminal")
    then "/home/admin/pod_template_terminal/config.yaml"
    else "/home/admin/pod_template_linux/config.yaml".
Proof.
  unfold legacyFileName, AMD64, SingleContainerTemplate, WIN64.
  repeat case_decide; try done; subst; done.
Qed.

Lemma renderPod_server_fields aenvHubEnv template pod :
  LoadPodTemplateFromYaml (templateTypeOf aenvHubEnv) = Ok (Some template) →
  renderPod aenvHubEnv = Ok pod →
  ResourceVersion pod = ResourceVersion template ∧ UID pod = UID template.
Proof.
  unfold renderPod. intros Hload Hrender. rewrite Hload in Hrender.
  cbn in Hrender. bind_inv Hrender.
  unfold MergePodImage in Ha. bind_inv Ha. injection Ha as <-. cbn in Hrender.
  destruct a0 as [|c rest]; [done|].
  destruct (DeployConfig aenvHubEnv !! "ttl") as [ttl|].
  - by destruct ttl; simpl in Hrender; try discriminate Hrender;
      injection Hrender as <-.
  - by injection Hrender as <-.
Qed.

(** X18: when the configured directory holds a blueprint for the
    template type of a request and it parses, the pod [createPod] submits
    is made from it, with an empty resource version and UID whatever the
    file says; the legacy path is not looked at. *)
Theorem configured_blueprint_is_submitted_clean aenvHubEnv yamlFile template pod :
  ReadFile (podTemplateBaseDir +:+ "/" +:+ templateTypeOf aenvHubEnv +:+ ".yaml")
  = Some yamlFile →
  Unmarshal yamlFile = Some (Some template) →
  renderPod aenvHubEnv = Ok pod →
  ResourceVersion pod = "" ∧ UID pod = ""
  ∧ Namespace pod = Namespace template
  ∧ ContainerName <$> Containers pod = ContainerName <$> Containers template
  ∧ LoadNsFromPodTemplate (templateTypeOf aenvHubEnv) = Ok (Namespace template).
Proof.
  intros Hread Hparse Hrender.
  assert (Hload : LoadPodTemplateFromYaml (templateTypeOf aenvHubEnv)
                  = Ok (Some (clearServerFields template))).
  { unfold LoadPodTemplateFromYaml. by rewrite Hread, Hparse. }
  destruct (renderPod_server_fields _ _ _ Hload Hrender) as [-> ->].
  destruct (renderPod_keeps_the_template_lemma _ _ _ Hload Hrender)
    as (_ & -> & -> & _).
  unfold LoadNsFromPodTemplate. rewrite Hload. by repeat split.
Qed.

(** X19: a blueprint in the configured directory that does not parse
    makes [createPod] panic, also when the legacy path holds a template
    that would do: the fallback is taken only when the file cannot be
    read. *)
Theorem corrupt_blueprint_panics aenvHubEnv yamlFile :
  ReadFile (podTemplateBaseDir +:+ "/" +:+ templateTypeOf aenvHubEnv +:+ ".yaml")
  = Some yamlFile →
  Unmarshal yamlFile = None →
  createPod (Some aenvHubEnv)
  = Panic ("failed to unmarshal YAML from "
           +:+ podTemplateBaseDir +:+ "/" +:+ templateTypeOf aenvHubEnv +:+ ".yaml").
Proof.
  intros Hread Hparse. unfold createPod, renderPod, LoadPodTemplateFromYaml.
  by rewrite Hread, Hparse.
Qed.

(** X20: when the configured directory has no blueprint for the template
    type of a request, the pod is made from the legacy file: the Windows
    one for [win64], the terminal one for [Terminal], and the Linux one
    for every other type, known or not.  The legacy template is used as
    it was parsed: the pod submitted carries its resource version and its
    UID. *)
Theorem legacy_template_is_the_fallback aenvHubEnv yamlFile template pod :
  ReadFile (podTemplateBaseDir +:+ "/" +:+ templateTypeOf aenvHubEnv +:+ ".yaml")
  = None →
  ReadFile (if decide (templateTypeOf aenvHubEnv = "win64")
            then "/home/admin/pod_template_windows/config.yaml"
            else if decide (templateTypeOf aenvHubEnv = "Terminal")
            then "/home/admin/pod_template_terminal/config.yaml"
            else "/home/admin/pod_template_linux/config.yaml") = Some yamlFile →
  Unmarshal yamlFile = Some (Some template) →
  renderPod aenvHubEnv = Ok pod →
  ResourceVersion pod = ResourceVersion template ∧ UID pod = UID template
  ∧ Namespace pod = Namespace template
  ∧ ContainerName <$> Containers pod = ContainerName <$> Containers template.
Proof.
  intros Hconfigured Hlegacy Hparse Hrender.
  assert (Hload : LoadPodTemplateFromYaml (templateTypeOf aenvHubEnv)
                  = Ok (Some template)).
  { unfold LoadPodTemplateFromYaml, loadPodTemplateFromLegacyPath.
    by rewrite Hconfigured, legacyFileName_cases, Hlegacy, Hparse. }
  destruct (renderPod_server_fields _ _ _ Hload Hrender) as [-> ->].
  by destruct (renderPod_keeps_the_template_lemma _ _ _ Hload Hrender)
    as (_ & -> & -> & _).
Qed.

End LoadFacts.

Lemma configured_blueprint_is_submitted_clean_witness :
  corev1.ResourceVersion Scenario.singleTemplate = "41"
  ∧ ∃ pod,
      @PodHandler.renderPod imports Scenario.host Cases.defaultRequest = Go.Ok pod
      ∧ corev1.ResourceVersion pod = "" ∧ corev1.UID pod = "".
Proof.
  split; [reflexivity|].
  destruct (@PodHandler.renderPod imports Scenario.host Cases.defaultRequest)
    as [pod|msg] eqn:Hrender; [|vm_compute in Hrender; discriminate].
  exists pod. split; [done|].
  destruct (@configured_blueprint_is_submitted_clean imports Scenario.host
              Cases.defaultRequest "single" Scenario.singleTemplate pod)
    as (Hrv & Huid & _); [reflexivity | reflexivity | exact Hrender |].
  by split.
Defined.

Lemma corrupt_blueprint_panics_witness :
  @PodHandler.createPod imports Cases.corruptHost (Some Cases.terminalRequest)
  = Go.Panic "failed to unmarshal YAML from /etc/aenv/pod-templates/Terminal.yaml"
  ∧ Go.returns (@PodHandler.createPod imports Cases.legacyHost
                  (Some Cases.terminalRequest)) = true.
Proof.
  split.
  - apply (@corrupt_blueprint_panics imports Cases.corruptHost Cases.terminalRequest
             "damaged"); reflexivity.
  - vm_compute. reflexivity.
Defined.

Lemma legacy_template_is_the_fallback_witness :
  ∃ pod,
    @PodHandler.renderPod imports Cases.legacyHost Cases.unknownRequest = Go.Ok pod
    ∧ corev1.ResourceVersion pod = "41" ∧ corev1.UID pod = "uid-1"
    ∧ corev1.ContainerName <$> corev1.Containers pod = ["main"].
Proof.
  destruct (@PodHandler.renderPod imports Cases.legacyHost Cases.unknownRequest)
    as [pod|msg] eqn:Hrender; [|vm_compute in Hrender; discriminate].
  exists pod. split; [done|].
  destruct (@legacy_template_is_the_fallback imports Cases.legacyHost
              Cases.unknownRequest "single" Scenario.singleTemplate pod)
    as (Hrv & Huid & _ & Hcs); [reflexivity | reflexivity | reflexivity
                               | exact Hrender |].
  split; [exact Hrv|]. split; [exact Huid|]. exact Hcs.
Defined.

(** ** The deploy configuration the gateway sends *)

Section PrepareFacts.
Import Go Gateway.

(** X21: for an environment that has no deploy configuration at all,
    [CreateEnvInstance] panics at the assignment of the TTL when the
    request has no datasource, a [nil] map being written; with a
    datasource the map is made first and the second image is named with
    the default prefix. *)
Theorem nil_deploy_config_needs_datasource req :
  (Datasource req = "" →
     prepareDeployConfig req None = Panic "assignment to entry in nil map")
  ∧ (Datasource req ≠ "" →
       ∃ sent,
         prepareDeployConfig req None = Ok (Some sent)
         ∧ sent !! "secondImageName"
           = Some (AString ("docker.io/library/aenv" +:+ ":" +:+ Datasource req))
         ∧ sent !! "ttl" = Some (AString (TTL req))).
Proof.
  unfold prepareDeployConfig. split; intros Hs.
  - rewrite decide_False by (intros Hn; done).
    by destruct (EnvironmentVariables req), (Arguments req).
  - rewrite decide_True by done. simpl. rewrite lookup_empty.
    destruct (EnvironmentVariables req), (Arguments req); simpl;
      eexists; (split; [done|]);
      by repeat first [rewrite lookup_insert_eq | rewrite lookup_insert_ne by done].
Qed.

(** X22: for an environment with a deploy configuration the gateway
    always has one to send.  The TTL of the request is stored; the
    variables and the arguments of the request, when given, replace those
    of the definition, and otherwise those of the definition stay; a
    datasource names the second image, with the prefix of the definition
    or, when that is missing or not a string, the default one; and every
    other entry of the definition is sent as it is. *)
Theorem prepareDeployConfig_overrides req (d : gmap string Any) :
  ∃ sent,
    prepareDeployConfig req (Some d) = Ok (Some sent)
    ∧ sent !! "ttl" = Some (AString (TTL req))
    ∧ sent !! "environmentVariables"
      = match EnvironmentVariables req with
        | Some vars => Some (AStrMap vars)
        | None => d !! "environmentVariables"
        end
    ∧ sent !! "arguments"
      = match Arguments req with
        | Some args => Some (AStrSlice args)
        | None => d !! "arguments"
        end
    ∧ sent !! "secondImageName"
      = (if decide (Datasource req ≠ "") then
           Some (AString
                   (match d !! "imagePrefix" with
                    | Some (AString str) => str
                    | _ => "docker.io/library/aenv"
                    end +:+ ":" +:+ Datasource req))
         else d !! "secondImageName")
    ∧ ∀ k, k ∉ ["ttl"; "environmentVariables"; "arguments"; "secondImageName"] →
           sent !! k = d !! k.
Proof.
  unfold prepareDeployConfig.
  destruct (decide (Datasource req ≠ "")), (EnvironmentVariables req),
    (Arguments req); simpl; eexists; (split; [done|]);
    (repeat split;
     [by repeat first [rewrite lookup_insert_eq | rewrite lookup_insert_ne by done]..
     |intros k Hk; repeat (apply not_elem_of_cons in Hk as [? Hk]);
      by repeat (rewrite lookup_insert_ne by done)]).
Qed.

End PrepareFacts.

Lemma nil_deploy_config_needs_datasource_witness :
  Gateway.prepareDeployConfig (Scenario.request "") None
  = Go.Panic "assignment to entry in nil map"
  ∧ Go.returns (Gateway.prepareDeployConfig (Scenario.request "django-1") None) = true.
Proof.
  destruct (nil_deploy_config_needs_datasource (Scenario.request "")) as [Hnone _].
  destruct (nil_deploy_config_needs_datasource (Scenario.request "django-1"))
    as [_ Hsome].
  split; [by apply Hnone|].
  destruct Hsome as (sent & -> & _); [discriminate|]. reflexivity.
Defined.

Lemma prepareDeployConfig_overrides_witness :
  ∃ sent,
    Gateway.prepareDeployConfig Inputs.withArguments
      (Some {[ "cpu" := Go.AString "2";
               "arguments" := Go.AStrSlice ["--verbose"] ]}) = Go.Ok (Some sent)
    ∧ sent !! "arguments" = Some (Go.AStrSlice ["--port"; "8080"])
    ∧ sent !! "cpu" = Some (Go.AString "2").
Proof.
  destruct (prepareDeployConfig_overrides Inputs.withArguments
              {[ "cpu" := Go.AString "2"; "arguments" := Go.AStrSlice ["--verbose"] ]})
    as (sent & Hsent & _ & _ & Hargs & _ & Hother).
  exists sent. split; [exact Hsent|]. split; [exact Hargs|].
  rewrite Hother by compute_done. vm_compute. reflexivity.
Defined.

(** ** The random suffix of a pod name *)

Section RandFacts.
Import Go.

Lemma letters_get k :
  (k < 36)%nat →
  ∃ c, String.get k Rand.letters = Some c ∧ isLowerOrDigit c = true.
Proof.
  intros Hk.
  do 36 (destruct k as [|k]; [eexists; split; reflexivity|]). lia.
Qed.

Lemma fill_spec draw i count :
  (∀ j, 0 ≤ draw j < 36) →
  ∃ s, Rand.fill draw i count = Ok s
       ∧ String.length s = count
       ∧ Forall (λ c, isLowerOrDigit c = true) (list_ascii_of_string s).
Proof.
  intros Hdraw. revert i. induction count as [|count IH]; intros i; cbn [Rand.fill].
  - exists "". by repeat split.
  - destruct (Hdraw i) as [Hlo Hhi].
    destruct (Z.ltb_spec (draw i) 0) as [?|_]; [lia|].
    destruct (letters_get (Z.to_nat (draw i))) as (c & -> & Hc); [lia|].
    destruct (IH (S i)) as (s & -> & Hlen & Hall).
    exists (String c s). simpl. split; [done|]. split; [by rewrite Hlen|].
    by apply Forall_cons.
Qed.

(** X23: with a source that answers [Intn(36)] within its range,
    [RandString(n)] returns, for [n] from zero to the bound of the
    runtime on one allocation, a string of exactly [n] bytes, each a
    lower-case letter or a digit; for a negative [n] and for one above
    the bound it panics in [make]. *)
Theorem RandString_alphabet maxAlloc draw n :
  (∀ j, 0 ≤ draw j < 36) →
  (0 ≤ n ≤ maxAlloc →
     ∃ s, Rand.RandString maxAlloc draw n = Ok s
          ∧ Z.of_nat (String.length s) = n
          ∧ Forall (λ c, isLowerOrDigit c = true) (list_ascii_of_string s))
  ∧ (n < 0 ∨ maxAlloc < n →
       Rand.RandString maxAlloc draw n = Panic "makeslice: len out of range").
Proof.
  intros Hdraw. unfold Rand.RandString. split; intros Hn.
  - destruct (Z.ltb_spec n 0) as [?|_]; [lia|].
    destruct (Z.ltb_spec maxAlloc n) as [?|_]; [lia|]. simpl.
    destruct (fill_spec draw 0 (Z.to_nat n) Hdraw) as (s & -> & Hlen & Hall).
    exists s. split; [done|]. split; [lia|done].
  - destruct (Z.ltb_spec n 0) as [?|?]; [done|].
    destruct (Z.ltb_spec maxAlloc n) as [?|?]; [done|lia].
Qed.

End RandFacts.

Lemma RandString_alphabet_witness :
  Rand.RandString (2 ^ 48) (λ j, Z.of_nat ((7 * j + 3) mod 36)) 6 = Go.Ok "dkry5c"
  ∧ Rand.RandString (2 ^ 48) (λ j, Z.of_nat ((7 * j + 3) mod 36)) (2 ^ 62)
    = Go.Panic "makeslice: len out of range".
Proof.
  destruct (RandString_alphabet (2 ^ 48) (λ j, Z.of_nat ((7 * j + 3) mod 36)) 6)
    as [Hreturns _].
  { intros j. pose proof (Nat.mod_upper_bound (7 * j + 3) 36). lia. }
  destruct (RandString_alphabet (2 ^ 48) (λ j, Z.of_nat ((7 * j + 3) mod 36))
              (2 ^ 62)) as [_ Hpanics].
  { intros j. pose proof (Nat.mod_upper_bound (7 * j + 3) 36). lia. }
  split.
  - destruct Hreturns as (s & Hs & _); [lia|]. rewrite Hs. f_equal.
    vm_compute in Hs. by injection Hs as <-.
  - apply Hpanics. right. lia.
Defined.

(** ** The status of an environment *)

Section StatusFacts.
Import EnvStatus.

(** X24: the name of a status leads back to the status: for the nine
    statuses [EnvStatusByName] undoes [EnvStatusNameByStatus], and a
    number that is no status is named ["Init"] and so leads to
    [EnvStatusInit].  [strings.ToLower] need only lower the nine names as
    ASCII. *)
Theorem EnvStatus_round_trip (ToLower : string → string) status :
  (∀ name, name ∈ ["Init"; "Pending"; "Creating"; "Created"; "Testing";
                   "Verified"; "Ready"; "Released"; "Failed"] →
           ToLower name = asciiLower name) →
  EnvStatusByName ToLower (EnvStatusNameByStatus status)
  = if decide (0 ≤ status ≤ 8) then status else EnvStatusInit.
Proof.
  intros Hlower.
  assert (Hcases : status = 0 ∨ status = 1 ∨ status = 2 ∨ status = 3 ∨ status = 4
                   ∨ status = 5 ∨ status = 6 ∨ status = 7 ∨ status = 8
                   ∨ ¬ (0 ≤ status ≤ 8)) by lia.
  unfold EnvStatusByName.
  destruct Hcases as [->|[->|[->|[->|[->|[->|[->|[->|[->|Hout]]]]]]]]];
    try (match goal with
         | |- context [EnvStatusNameByStatus ?k] =>
             let name := eval vm_compute in (EnvStatusNameByStatus k) in
             change (EnvStatusNameByStatus k) with name
         end;
         rewrite Hlower by in_list; reflexivity).
  destruct (decide (0 ≤ status ≤ 8)) as [?|_]; [done|].
  assert (Hname : EnvStatusNameByStatus status = "Init").
  { unfold EnvStatusNameByStatus, statusNames.
    unfold EnvStatusInit, EnvStatusPending, EnvStatusCreating, EnvStatusCreated,
      EnvStatusTesting, EnvStatusVerified, EnvStatusReady, EnvStatusReleased,
      EnvStatusFailed.
    repeat (rewrite lookup_insert_ne by lia). by rewrite lookup_singleton_ne by lia. }
  rewrite Hname, Hlower by compute_done. reflexivity.
Qed.

End StatusFacts.

Lemma EnvStatus_round_trip_witness :
  EnvStatus.EnvStatusByName EnvStatus.asciiLower (EnvStatus.EnvStatusNameByStatus 6)
  = 6.
Proof.
  apply (EnvStatus_round_trip EnvStatus.asciiLower 6). intros name _. reflexivity.
Defined.

(** ** The body quoted in an error of the instance client *)

Section TruncateFacts.
Import EnvInstanceClient.

Lemma substring_0_length m s :
  String.length (String.substring 0 m s) = Nat.min m (String.length s).
Proof.
  revert s. induction m as [|m IH]; intros [|c s]; simpl; try done.
  by rewrite IH.
Qed.

Lemma substring_0_split m s :
  ∃ rest, s = String.substring 0 m s +:+ rest.
Proof.
  revert s. induction m as [|m IH]; intros s.
  - exists s. by destruct s.
  - destruct s as [|c s]; [by exists ""|].
    destruct (IH s) as [rest Hrest]. exists rest. simpl.
    by rewrite string_app_cons, <- Hrest.
Qed.

Lemma string_app_length s t :
  String.length (s +:+ t) = (String.length s + String.length t)%nat.
Proof.
  induction s as [|c s IH]; [done|].
  rewrite string_app_cons. simpl. by rewrite IH.
Qed.

(** X25: [truncateBody] returns a body of at most 500 bytes as it is and
    replaces a longer one by its first 500 bytes followed by
    ["...(truncated)"]; the result is never longer than 514 bytes. *)
Theorem truncateBody_bounded body :
  ((String.length body ≤ 500)%nat → truncateBody body = body)
  ∧ ((500 < String.length body)%nat →
       ∃ first rest,
         body = first +:+ rest
         ∧ String.length first = 500%nat
         ∧ truncateBody body = first +:+ "...(truncated)")
  ∧ (String.length (truncateBody body) ≤ 514)%nat.
Proof.
  unfold truncateBody, maxLen.
  destruct (Nat.ltb_spec 500 (String.length body)) as [Hlong|Hshort].
  - split; [lia|]. split.
    + intros _. destruct (substring_0_split 500 body) as [rest Hrest].
      exists (String.substring 0 500 body), rest. split; [done|].
      split; [|done]. rewrite substring_0_length. lia.
    + rewrite string_app_length, substring_0_length.
      change (String.length "...(truncated)") with 14%nat. lia.
  - split; [done|]. split; [lia|lia].
Qed.

End TruncateFacts.

(** ** What the scan of the cache writes to the log *)

Section LogFacts.
Context `{Imports}.
Import corev1 PodCache.

Lemma elapsedAt_app clock first pods pods' :
  elapsedAt clock first (pods ++ pods')
  = elapsedAt clock first pods ++ elapsedAt clock (first + length pods) pods'.
Proof.
  revert first. induction pods as [|pod pods IH]; intros first; simpl.
  - by rewrite Nat.add_0_r.
  - rewrite IH, <- app_assoc. by rewrite Nat.add_succ_r.
Qed.

(** One step of the scan: the pod is appended exactly when it is listed
    and then the clock has been read once more; the log gains the line
    "has expired" exactly when the age at that reading exceeds the TTL,
    and the warning exactly when the label does not parse. *)
Lemma Timed_scanPod clock expired log reads pod :
  ∃ log',
    Timed.scanPod clock (expired, log, reads) pod
    = (expired ++ (if decide (Listed pod) then [pod] else []), log',
       (reads + (if decide (Listed pod) then 1 else 0))%nat)
    ∧ announced log'
      = announced log
        ++ (if decide (Listed pod) then elapsedAt clock reads [pod] else [])
    ∧ warned log'
      = warned log ++ (if decide (Unparsable pod) then [PodName pod] else []).
Proof.
  unfold Timed.scanPod.
  destruct (decide (labelAt pod AENV_TTL = "")) as [Hempty|Hfull].
  - exists log.
    destruct (decide (Listed pod)) as [[? _]|_]; [done|].
    destruct (decide (Unparsable pod)) as [[? _]|_]; [done|].
    by rewrite !app_nil_r, Nat.add_0_r.
  - destruct (ParseDuration (labelAt pod AENV_TTL)) as [limited|] eqn:Hparse.
    + eexists.
      destruct (decide (Listed pod)) as [_|Hnot];
        [|exfalso; apply Hnot; split; [done|by rewrite Hparse]].
      destruct (decide (Unparsable pod)) as [[_ Hnone]|_];
        [by rewrite Hparse in Hnone|].
      rewrite Nat.add_1_r. split; [reflexivity|].
      simpl. rewrite !app_nil_r.
      destruct (Z.ltb_spec limited (time.Sub (clock reads) (CreationTimestamp pod)))
        as [Hlt|Hge].
      * destruct (decide (Elapsed (clock reads) pod)) as [_|Hnot];
          [|exfalso; apply Hnot; by exists limited].
        unfold announced, warned. rewrite !omap_app. simpl.
        by rewrite app_nil_r.
      * destruct (decide (Elapsed (clock reads) pod)) as [(l & Heq & Hlt)|_];
          [|by rewrite app_nil_r].
        rewrite Hparse in Heq. injection Heq as <-. lia.
    + eexists.
      destruct (decide (Listed pod)) as [[_ [? Hsome]]|_];
        [by rewrite Hparse in Hsome|].
      destruct (decide (Unparsable pod)) as [_|Hnot];
        [|exfalso; apply Hnot; by split].
      rewrite Nat.add_0_r, !app_nil_r. split; [reflexivity|].
      unfold announced, warned. rewrite !omap_app. simpl. by rewrite app_nil_r.
Qed.

Lemma Timed_scan clock items expired log reads :
  ∃ log',
    foldl (Timed.scanPod clock) (expired, log, reads) items
    = (expired ++ filter Listed items, log',
       (reads + length (filter Listed items))%nat)
    ∧ announced log'
      = announced log ++ elapsedAt clock reads (filter Listed items)
    ∧ warned log' = warned log ++ (PodName <$> filter Unparsable items).
Proof.
  revert expired log reads.
  induction items as [|pod items IH]; intros expired log reads; cbn [foldl].
  - exists log. rewrite filter_nil. simpl. by rewrite !app_nil_r, Nat.add_0_r.
  - destruct (Timed_scanPod clock expired log reads pod)
      as (log1 & -> & Hann1 & Hwarn1).
    destruct (IH (expired ++ (if decide (Listed pod) then [pod] else [])) log1
                (reads + (if decide (Listed pod) then 1 else 0))%nat)
      as (log2 & -> & Hann2 & Hwarn2).
    exists log2. rewrite Hann2, Hann1, Hwarn2, Hwarn1, !filter_cons.
    destruct (decide (Listed pod)), (decide (Unparsable pod)); simpl;
      rewrite <- ?app_assoc, ?app_nil_r, ?Nat.add_0_r, ?Nat.add_1_r,
        ?Nat.add_succ_r; simpl; by rewrite ?app_nil_r.
Qed.

(** X26: the log of [ListExpiredPods] is exact, the clock being read
    anew for every pod.  The scan returns the pods it returns at any
    single reading.  The lines "has expired" name, in order, the
    returned pods whose age exceeds their TTL at the reading made for
    them, the reading number [i] for the pod number [i] of the result,
    and no other pod; the warnings name, in order, the pods of the
    namespace whose TTL label is not empty and does not parse. *)
Theorem ListExpiredPods_log c clock ns items expired log :
  ByIndex c ns = inr items →
  Timed.ListExpiredPods c clock ns = inr (expired, log) →
  (∀ now, ∃ log', ListExpiredPods c now ns = inr (expired, log'))
  ∧ announced log = elapsedAt clock 0 expired
  ∧ warned log = PodName <$> filter Unparsable items.
Proof.
  intros Hidx Hscan. unfold Timed.ListExpiredPods in Hscan. rewrite Hidx in Hscan.
  destruct (Timed_scan clock items [] [] 0%nat) as (log' & Hfold & Hann & Hwarn).
  rewrite Hfold in Hscan. simpl in Hscan. injection Hscan as <- <-.
  split; [|done]. intros now. by apply ListExpiredPods_listed.
Qed.

End LogFacts.

Lemma ListExpiredPods_log_witness :
  let items := [Scenario.podB; Scenario.podC; Scenario.podBad; Scenario.podEmpty;
                Scenario.labelled "d" "Running" "1h" Scenario.hour] in
  let clock := λ k, (2 * Scenario.hour + Z.of_nat k)%Z in
  ∃ expired log,
    @Timed.ListExpiredPods imports (Scenario.cache items) clock "aenv"
    = inr (expired, log)
    ∧ corev1.PodName <$> expired = ["b"; "c"; "d"]
    ∧ announced log = ["c"; "d"]
    ∧ warned log = ["bad"].
Proof.
  intros items clock.
  set (r := (foldl (@Timed.scanPod imports clock) ([], [], 0%nat) items).1).
  exists r.1, r.2. split; [vm_compute; reflexivity|].
  split; [vm_compute; reflexivity|].
  destruct (@ListExpiredPods_log imports (Scenario.cache items) clock "aenv"
              items r.1 r.2) as (_ & Hann & Hwarn);
    [reflexivity | vm_compute; reflexivity |].
  split; [rewrite Hann | rewrite Hwarn]; vm_compute; reflexivity.
Defined.
